(* ===== verification/_CoqProject ===== *)
-Q . S2P
Prelude.v
JsNum.v
JsString.v
JsJson.v
Dom.v
Frames.v
Skills.v
Counters.v
Typewriter.v
Prefs.v
Wallet.v
Widgets.v
Toasts.v
ServiceWorker.v
Script.v
Page.v
