(* ===== verification/Prelude.v ===== *)
(** * A verification development for the SkillsPassport page script

    The program is one browser script, [src/script.js] (470 lines): the
    interactive behaviour of a marketing page.  It has no server and no
    persistent data beyond two [localStorage] flags; every feature is an
    event handler or a one-shot animation driven by [requestAnimationFrame].
    The features share the helpers [$], [$$] and [showToast] and never call
    each other, except that the keydown handler serves both the search
    shortcut and the wallet modal, and the copy button uses
    [generateShortId].

    ** Files, in dependency order (_CoqProject)

    - [Prelude.v] (this file): the [js_scope] notations, the [completion]
      type of abrupt completions (a thrown [TypeError], [SyntaxError] or
      [SecurityError]),
      the tactics [inv] and [break_ifs], the hint database [js], and
      generic lemmas on rationals, lists and substrings;
    - [JsNum.v]: a JavaScript number as [num] (an exact rational, NaN or an
      infinity) with the IEEE tables for [+ - * /], comparisons,
      [Math.min/max/floor/round/pow], truthiness, and the setoid [num_eqv]
      with [Proper] instances;
    - [JsString.v]: [trim], [replace], [toUpperCase], [slice],
      [includes], [Number(s)], [parseInt(s, radix)] and
      [Number.prototype.toString(radix)] for [0 <= x < 1], with the
      character-class lemmas the identifier theorems use;
    - [JsJson.v]: [JSON.parse] by recursive descent over the text, with
      fuel, and the theorem that its fuel (three units per character) is
      always enough;
    - [Dom.v]: the document as a tree of elements, CSS selectors as data
      (type, id, class, attribute and attribute-prefix selectors, compound,
      descendant and comma lists), [querySelector], [querySelectorAll] and
      [closest] as document-order walks, and the helpers [$] and [$$]
      (lines 9-10) with the selectors the script passes them;
    - [Frames.v]: the [requestAnimationFrame] re-request pattern
      ([raf_run]) over an explicit timeline, with its termination and
      last-write lemmas;
    - [Skills.v]: the skill-progress IIFE (lines 387-471): [parsePercent],
      [animateNumber], [animateBar], the observer callback that animates
      each container once and unobserves it, the initial writes and the
      reduced-motion bypass; the specification's interpolation contract
      ([interpolation]) and the refinement of the bar loop into it;
    - [Counters.v]: [animateValue], [initCounters], [revealOnLoad], the
      [load] handler (lines 29-35, 108-152) and [initLazyReveal] (lines
      317-335), over a page state whose sets are stdpp [gset]s;
    - [Typewriter.v]: [typewriterInit] (lines 87-106): the parse of
      [data-text], its errors, the first tick, and [tick] as a state
      machine with its reachability relation [tw_reach] and the tick
      sequence [run];
    - [Prefs.v]: [applyTheme], [initTheme], the theme toggle, [initCookie]
      and the cookie button (lines 37-63, 277-294), proved against the
      key-value store interface [KVStore]/[KVStoreLaws] (a typeclass for
      [localStorage]) and instantiated with an stdpp [gmap];
    - [Wallet.v]: the connect, close, wallet-button and Escape handlers
      (lines 190-224, 305-311), the event type [wallet_event] with its
      reachability relation, and [generateShortId] (lines 255-257);
    - [Widgets.v]: scroll progress and back to top, mobile menu,
      accordion, feature filter, newsletter, the ['/'] shortcut, in-page
      links (over a [Dom.v] document: [closest], [getAttribute] and
      [querySelector] of an ['#name'] href), ticker and [mintDemo], network
      switch and credential copy;
    - [Toasts.v]: [showToast] (lines 13-24) with its two timers, and the
      event loop that fires due timers in due-time and scheduling order
      ([run_until]) between the calls of a session ([toast_calls]);
    - [ServiceWorker.v]: the guarded [register('/sw.js')] statement
      (lines 353-357) with its [catch] handler, over the navigator's
      [serviceWorker] property and the registration's promise;
    - [Script.v]: the script's top-level statements in source order, the
      three that can throw at load ([initTheme] and [initCookie] reading
      [localStorage], the typewriter), the service-worker statement's
      outcome from [ServiceWorker.sw_register], and the run that a throw
      ends;
    - [Page.v]: the composition of [$$] with the handlers that take its
      result: [initLazyReveal] over
      [querySelectorAll('img[data-src], .fade-in')] ([Module LazyPage])
      and the feature filter over [$$('#featureGrid .feature-card')]
      ([Module FilterPage]), reading each element's tag, [data-src],
      classes and [data-type] from the document, and the reduced-motion
      branch of the skill IIFE over [querySelectorAll('.progress-fill')]
      ([Module ReducedPage]).

    ** The theorems, by group

    - liveness and exactness of the frame loops: each bar, label and
      counter stops once its timeline passes the duration and ends on its
      exact target ([Skills.animateBar_completes],
      [Counters.animateValue_final], [Skills.animateNumber_final]), and
      the counter stops within a number of frames bounded by its duration
      over the display's frame interval ([Counters.animateValue_terminates]);
    - type and equivalence: the counter writes integers
      ([Counters.animateValue_integers]); the label and the bar, started
      together, run the same frames and the label shows the rounded width
      ([Skills.label_rounds_bar]);
    - refinement: the bar's widths are an [interpolation] of the
      specification's contract ([Skills.animateBar_refines]);
    - animate-once and load-once safety by induction over batches of
      observer entries ([Skills.animate_once],
      [Counters.reveal_at_most_once], [Counters.lazy_load_at_most_once]),
      and the double animation of stat counters that the guard misses;
    - invariants by rule induction over the reachable states: the
      typewriter never shows a whole word, the wallet modal's attributes
      agree, [aria-pressed] follows the theme, the accordion's and the
      menu's attributes agree;
    - round trips through the store (theme and cookie consent survive a
      reload);
    - bounds: durations within [600, 1200], progress widths within
      [0, 100], identifiers of at most 8 characters of [[0-9A-Z]], and of
      at most [j] for a random value [k / 36^j]
      ([Wallet.generateShortId_short]), minted counts within [200, 1199]
      ([Widgets.mint_count_range]);
    - the DOM: [$$(sel)] is the document-order list of the matching
      elements, with no element twice on a document of distinct elements,
      and [$(sel)] its head (lemmas of [Dom.v]); an in-page link to ['#name']
      scrolls when [name] is a CSS identifier and otherwise throws
      ([Widgets.link_id_href]); composed with the handlers, each element
      of the page loads its lazy image at most once, even one both
      alternatives of the selector match
      ([Page.LazyPage.lazy_element_loads_once]), and the filter styles
      exactly the cards below [#featureGrid], once each
      ([Page.FilterPage.feature_filter_doc]); with reduced motion every
      [.progress-fill] gets its raw [data-width], unclamped
      ([Page.ReducedPage.reduced_motion_doc]);
    - timers: whatever the interleaving of their timers, a toast is shown
      from 20 ms after its call and removed [max(0, timeout + 200)] ms
      after it ([Toasts.toast_lifetime]), by an invariant of the pending
      timer queue ([Toasts.toast_inv]);
    - ordering: the top-level statements run as a prefix of the script,
      all of them when storage is accessible and the typewriter starts
      (the service-worker statement never throws and swallows a rejected
      registration, [Script.script_completes]), and a blocked storage or
      a [data-text] that is not JSON stops it
      before most handlers are bound ([Script.script_aborts]);
    - error paths and divergences from the specification: the handlers
      that throw, the [NaN] width on a page that does not scroll, the
      short identifiers such as ["SP-I"], the two [data-target] parses,
      which agree except on a ["0x"] prefix
      ([Counters.target_parses_disagree]), the unclamped reduced-motion
      width.

    ** Bounds and fuel

    Loops over frames and ticks run over an explicit finite timeline or a
    given number of ticks, so no fuel is involved there; termination is the
    statement that a frame past the duration stops the loop.
    [Number.prototype.toString(radix)] expands at most 64 digits: a double
    in [0, 1) is a multiple of [2^-53], whose expansion in radix 16 or 36
    ends within 27 digits, so 64 digits of fuel are enough.  [JSON.parse]
    runs its descent with [3 * n + 1] units of fuel for a text of [n]
    characters: a nesting level passes through three functions per
    opening bracket, and [JsJson.json_parse_fuel] shows that this never
    runs out and that more fuel gives the same result.

    ** Modelling choices

    - numbers: finite results are exact rationals (no rounding to 53 bits,
      no negative zero); the exactness theorems also hold in binary
      floating point, since the last frame computes [1 - (1-1)^3 = 1] and
      [target * 1 = target] without rounding;
    - strings are Stdlib [string] (ASCII); the connect button's label, which
      contains a non-ASCII bullet, is kept as a pair, and the toasts with
      non-ASCII text as constructors;
    - time: frame timestamps and [performance.now()] readings are
      rationals; [Math.random()] is an input in [0, 1);
    - the DOM is modelled per feature: the elements a handler reads and
      the attributes and styles it writes, as records, with missing
      elements as [option]; effects before a throw stay on the page.

    ** Not modelled

    CSS, layout and the intersection computation itself (an observer
    delivers batches of entries as inputs); the outcome of the clipboard
    and service-worker promises (an input); the ticks of a
    typewriter whose [data-text] holds objects or truthy non-strings
    ([TwOutside]); the handlers other than the links, the lazy observer
    and the feature filter still take the elements [$] and [$$] find as
    inputs rather than a [Dom.v] document, since they read only those
    elements; a [navigator.serviceWorker] getter that throws (the model
    reads the property as absent, falsy or a container); selector syntax beyond what the
    script uses, and hrefs other than ['#'] followed by name characters,
    whose validity [Widgets.LinksDoc] takes as a parameter;
    the CSS transitions the toast classes trigger;
    [scrollIntoView] and [focus] beyond the fact that they happen; the
    rounding of binary floating point. *)

From Stdlib Require Import QArith Qround Qminmax Lqa Lia ZArith List String Ascii Bool.
Import ListNotations.

Declare Scope js_scope.
Delimit Scope js_scope with js.

(** ** Abrupt completions

    A handler either completes normally with a value or throws: a
    [TypeError] from reading a property of [null]/[undefined], a
    [SyntaxError] from [JSON.parse] or [querySelector], a [SecurityError]
    from a blocked [localStorage]. *)

Inductive js_error := TypeError | SyntaxError | SecurityError.

Inductive completion (A : Type) : Type :=
| Normal (a : A)
| Throw (e : js_error).
Arguments Normal {A} a.
Arguments Throw {A} e.

Definition cbind {A B} (c : completion A) (k : A -> completion B) : completion B :=
  match c with
  | Normal a => k a
  | Throw e => Throw e
  end.

Notation "'let!' x := c 'in' k" := (cbind c (fun x => k))
  (at level 10, x name, c at level 100, k at level 200) : js_scope.

(** [deref o] reads a possibly-null element: [null] throws a [TypeError]. *)
Definition deref {A} (o : option A) : completion A :=
  match o with Some a => Normal a | None => Throw TypeError end.

Lemma cbind_normal {A B} (a : A) (k : A -> completion B) :
  cbind (Normal a) k = k a.
Proof. reflexivity. Qed.

Lemma cbind_throw {A B} e (k : A -> completion B) :
  cbind (Throw e) k = Throw e.
Proof. reflexivity. Qed.

(** ** Tactics and hints *)

Create HintDb js.

Ltac inv H := inversion H; subst; clear H.

(** Case on every boolean test and match in the goal. *)
Ltac break_ifs :=
  repeat match goal with
  | |- context [if ?b then _ else _] => destruct b eqn:?
  | |- context [match ?x with _ => _ end] =>
      match type of x with
      | bool => destruct x eqn:?
      | option _ => destruct x eqn:?
      end
  end.

(** ** Rationals *)

#[local] Open Scope Q_scope.

(** The cube is monotone on the whole line; the ease-out curve
    [1 - (1-p)^3] of the bars inherits it. *)
Lemma cube_le_mono (x y : Q) : x <= y -> x * x * x <= y * y * y.
Proof.
  intros H.
  assert (0 <= y * y + x * y + x * x) by nra.
  assert (0 <= (y - x) * (y * y + x * y + x * x)) by (apply Qmult_le_0_compat; lra).
  nra.
Qed.

Lemma cube_unit_range (u : Q) : 0 <= u -> u <= 1 -> 0 <= u * u * u <= 1.
Proof. intros. assert (0 <= u * u) by nra. split; nra. Qed.

Lemma Qle_bool_false (x y : Q) : Qle_bool x y = false -> y < x.
Proof.
  intros H. apply Qnot_le_lt. intros Hle. apply Qle_bool_iff in Hle. congruence.
Qed.

Lemma Qeq_bool_false (x y : Q) : Qeq_bool x y = false -> ~ x == y.
Proof. intros H Heq. apply Qeq_bool_iff in Heq. congruence. Qed.

Lemma Qmult_le_compat_l (x y z : Q) : x <= y -> 0 <= z -> z * x <= z * y.
Proof. intros. rewrite (Qmult_comm z x), (Qmult_comm z y). apply Qmult_le_compat_r; assumption. Qed.

Lemma Qle_div_iff (a b c : Q) : 0 < c -> (a <= b / c <-> a * c <= b).
Proof.
  intros Hc. rewrite <- (Qmult_le_r a (b / c) c Hc).
  assert (E : b / c * c == b) by (field; intros E; rewrite E in Hc; discriminate).
  rewrite E. reflexivity.
Qed.

#[export] Hint Resolve cube_le_mono cube_unit_range Qmult_le_compat_l : js.

(** ** Lists *)

Lemma last_map {A B} (f : A -> B) (l : list A) (d : A) :
  last (map f l) (f d) = f (last l d).
Proof.
  induction l as [|x l IH]; [reflexivity|].
  destruct l as [|y l]; [reflexivity|]. simpl in *. exact IH.
Qed.

Lemma last_map_nonempty {A B} (f : A -> B) (l : list A) (d : A) (d' : B) :
  l <> [] -> last (map f l) d' = f (last l d).
Proof.
  intros Hl. induction l as [|x l IH]; [congruence|].
  destruct l as [|y l]; [reflexivity|]. apply IH. discriminate.
Qed.

(** A timeline or a sequence of writes that never decreases. *)
Fixpoint nondecreasing (l : list Q) : Prop :=
  match l with
  | [] => True
  | x :: l' =>
      match l' with
      | [] => True
      | y :: _ => x <= y /\ nondecreasing l'
      end
  end.

Lemma nondecreasing_tail (x : Q) (l : list Q) :
  nondecreasing (x :: l) -> nondecreasing l.
Proof. destruct l; simpl; tauto. Qed.

Lemma nondecreasing_head (x : Q) (l : list Q) :
  nondecreasing (x :: l) -> Forall (fun y => x <= y) l.
Proof.
  revert x. induction l as [|y l IH]; intros x H; constructor.
  - apply H.
  - destruct H as [Hxy Hl]. specialize (IH y Hl).
    eapply Forall_impl; [|exact IH]. intros z Hz. simpl in *. lra.
Qed.

Lemma nondecreasing_map (f : Q -> Q) (l : list Q) :
  (forall x y, x <= y -> f x <= f y) ->
  nondecreasing l -> nondecreasing (map f l).
Proof.
  intros Hf. induction l as [|x l IH]; [simpl; auto|].
  destruct l as [|y l]; simpl in *; [auto|].
  intros [Hxy Hl]. split; [apply Hf; exact Hxy|]. apply IH. exact Hl.
Qed.

Lemma nondecreasing_app_l (l1 l2 : list Q) :
  nondecreasing (l1 ++ l2) -> nondecreasing l1.
Proof.
  induction l1 as [|x l1 IH]; [simpl; auto|]. intros H.
  destruct l1 as [|y l1]; [simpl; auto|]. simpl in H |- *.
  split; [apply H|]. apply IH. apply H.
Qed.

Lemma nondecreasing_cons (x : Q) (l : list Q) :
  Forall (fun y => x <= y) l -> nondecreasing l -> nondecreasing (x :: l).
Proof. intros Hx Hl. destruct l as [|y l]; simpl; [auto|]. inversion Hx; subst. auto. Qed.

Lemma last_cons_nonempty {A} (x : A) (l : list A) (d : A) :
  l <> [] -> last (x :: l) d = last l d.
Proof. destruct l; [congruence|reflexivity]. Qed.

#[export] Hint Resolve nondecreasing_tail nondecreasing_app_l nondecreasing_cons : js.

(** A filter keeps no more than a weaker one. *)
Lemma filter_length_mono {A} (f g : A -> bool) (l : list A) :
  (forall x, In x l -> f x = true -> g x = true) ->
  (List.length (filter f l) <= List.length (filter g l))%nat.
Proof.
  induction l as [|x l IH]; intros H; simpl; [lia|].
  destruct (f x) eqn:Fx.
  - rewrite (H x (or_introl eq_refl) Fx). simpl. apply le_n_S, IH. intros y Hy. apply H. now right.
  - destruct (g x); simpl; [apply le_S|]; apply IH; intros y Hy; apply H; now right.
Qed.

(** A boolean test that reflects [P] chooses between two values. *)
Lemma if_reflect_iff {A} (P : Prop) (b : bool) (x y d : A) :
  (b = true <-> P) -> x <> y ->
  (d = (if b then x else y) <-> (P /\ d = x) \/ (~ P /\ d = y)).
Proof.
  intros Hb Hxy. destruct b; split.
  - intros ->. left. split; [apply Hb|]; reflexivity.
  - intros [[_ ->]|[HP _]]; [reflexivity|]. exfalso. apply HP, Hb. reflexivity.
  - intros ->. right. split; [|reflexivity]. intros HP. apply Hb in HP. discriminate.
  - intros [[HP _]|[_ ->]]; [|reflexivity]. apply Hb in HP. discriminate.
Qed.

(** ** Strings *)

Lemma substring0_length (n : nat) (s : string) :
  (n <= String.length s)%nat -> String.length (substring 0 n s) = n.
Proof.
  revert n. induction s as [|c s IH]; intros n H; simpl in *.
  - destruct n; [reflexivity|lia].
  - destruct n; [reflexivity|]. simpl. rewrite IH; [reflexivity|lia].
Qed.

Lemma substring0_prefix (n : nat) (s : string) : String.prefix (substring 0 n s) s = true.
Proof.
  revert n. induction s as [|c s IH]; intros n; destruct n; simpl; auto.
  destruct (ascii_dec c c); [apply IH|congruence].
Qed.

