(* ===== verification/JsNum.v ===== *)
(** * JavaScript numbers

    The [Number] values the script computes with: a finite value is an
    exact rational, beside NaN and the two infinities.  The operations are
    the ones the script calls ([+ - * /], [Math.min], [Math.max],
    [Math.floor], [Math.round], [Math.pow(x, 3)], the comparisons, and
    [ToBoolean] for [||]); NaN and the infinities follow the IEEE 754
    tables of ECMAScript (sections 6.1.6.1 and 21.3.2).  Finite results are
    exact: the rounding of binary floating point and negative zero are not
    modelled.  Equality of numbers is [num_eqv] (rational equality on
    finite values), with its setoid instances. *)

From Stdlib Require Import QArith Qround Qminmax Lqa Lia ZArith Bool Morphisms.
From S2P Require Import Prelude.

#[local] Open Scope Q_scope.

Inductive num : Type :=
| Fin (q : Q)
| NaN
| PosInf
| NegInf.

Definition of_Z (z : Z) : num := Fin (inject_Z z).

Definition num_neg (a : num) : num :=
  match a with
  | Fin x => Fin (- x)
  | NaN => NaN
  | PosInf => NegInf
  | NegInf => PosInf
  end.

(** [a + b] *)
Definition num_add (a b : num) : num :=
  match a, b with
  | NaN, _ | _, NaN => NaN
  | PosInf, NegInf | NegInf, PosInf => NaN
  | PosInf, _ | _, PosInf => PosInf
  | NegInf, _ | _, NegInf => NegInf
  | Fin x, Fin y => Fin (x + y)
  end.

(** [a - b] *)
Definition num_sub (a b : num) : num := num_add a (num_neg b).

(** The infinity of the sign of a nonzero rational times [inf]. *)
Definition scale_inf (x : Q) (inf : num) : num :=
  if Qeq_bool x 0 then NaN else if Qle_bool x 0 then num_neg inf else inf.

(** [a * b] *)
Definition num_mul (a b : num) : num :=
  match a, b with
  | NaN, _ | _, NaN => NaN
  | Fin x, Fin y => Fin (x * y)
  | Fin x, inf | inf, Fin x => scale_inf x inf
  | PosInf, PosInf | NegInf, NegInf => PosInf
  | _, _ => NegInf
  end.

(** [a / b]; a zero divisor gives an infinity of the dividend's sign
    (the sign of a zero divisor is not modelled). *)
Definition num_div (a b : num) : num :=
  match a, b with
  | NaN, _ | _, NaN => NaN
  | Fin x, Fin y =>
      if Qeq_bool y 0 then scale_inf x PosInf else Fin (x / y)
  | Fin _, _ => Fin 0
  | inf, Fin y => if Qeq_bool y 0 then inf else scale_inf y inf
  | _, _ => NaN
  end.

(** The comparison of two numbers; [None] when one of them is NaN. *)
Definition num_cmp (a b : num) : option comparison :=
  match a, b with
  | NaN, _ | _, NaN => None
  | Fin x, Fin y => Some (Qcompare x y)
  | PosInf, PosInf | NegInf, NegInf => Some Eq
  | NegInf, _ | _, PosInf => Some Lt
  | PosInf, _ | _, NegInf => Some Gt
  end.

(** [a < b], [a <= b], [a >= b], [a > b] *)
Definition num_lt (a b : num) : bool :=
  match num_cmp a b with Some Lt => true | _ => false end.
Definition num_le (a b : num) : bool :=
  match num_cmp a b with Some Lt | Some Eq => true | _ => false end.
Definition num_ge (a b : num) : bool := num_le b a.
Definition num_gt (a b : num) : bool := num_lt b a.

(** [Math.min(a, b)] and [Math.max(a, b)] *)
Definition num_min (a b : num) : num :=
  match a, b with
  | NaN, _ | _, NaN => NaN
  | _, _ => if num_lt b a then b else a
  end.
Definition num_max (a b : num) : num :=
  match a, b with
  | NaN, _ | _, NaN => NaN
  | _, _ => if num_lt a b then b else a
  end.

(** [Math.floor(a)] *)
Definition num_floor (a : num) : num :=
  match a with Fin x => of_Z (Qfloor x) | _ => a end.

(** [Math.round(a)]: the nearest integer, halves rounded up. *)
Definition num_round (a : num) : num :=
  match a with Fin x => of_Z (Qfloor (x + (1 # 2))) | _ => a end.

(** [Math.pow(a, 3)] *)
Definition num_cube (a : num) : num :=
  match a with Fin x => Fin (x * x * x) | _ => a end.

(** [ToBoolean(a)]: NaN and zero are falsy. *)
Definition num_truthy (a : num) : bool :=
  match a with
  | Fin x => negb (Qeq_bool x 0)
  | NaN => false
  | _ => true
  end.

(** [a || b] on numbers. *)
Definition num_or (a b : num) : num := if num_truthy a then a else b.

(** [Number.isNaN] *)
Definition is_nan (a : num) : bool := match a with NaN => true | _ => false end.

(** ** Equality of numbers *)

Definition num_eqv (a b : num) : Prop :=
  match a, b with
  | Fin x, Fin y => x == y
  | NaN, NaN | PosInf, PosInf | NegInf, NegInf => True
  | _, _ => False
  end.

Declare Scope num_scope.
Delimit Scope num_scope with num.
Infix "==" := num_eqv (at level 70, no associativity) : num_scope.
Infix "+" := num_add : num_scope.
Infix "-" := num_sub : num_scope.
Infix "*" := num_mul : num_scope.
Infix "/" := num_div : num_scope.

#[export] Instance num_eqv_equiv : Equivalence num_eqv.
Proof.
  split.
  - intros []; simpl; auto; reflexivity.
  - intros [] []; simpl; auto; intros H; symmetry; exact H.
  - intros [x| | |] [y| | |] [z| | |]; simpl; try tauto.
    intros H1 H2. rewrite H1. exact H2.
Qed.

Lemma fin_eqv (x y : Q) : num_eqv (Fin x) (Fin y) <-> x == y.
Proof. reflexivity. Qed.

#[export] Instance Fin_proper : Proper (Qeq ==> num_eqv) Fin.
Proof. intros x y H. exact H. Qed.

(** Rational tests and operations that respect [==], used by the
    [Proper] proofs below. *)
Lemma Qeq_bool_compat (x x' y y' : Q) :
  x == x' -> y == y' -> Qeq_bool x y = Qeq_bool x' y'.
Proof.
  intros Hx Hy. destruct (Qeq_bool x y) eqn:E1, (Qeq_bool x' y') eqn:E2; auto.
  - apply Qeq_bool_iff in E1. apply Qeq_bool_false in E2. exfalso. apply E2.
    rewrite <- Hx, <- Hy. exact E1.
  - apply Qeq_bool_iff in E2. apply Qeq_bool_false in E1. exfalso. apply E1.
    rewrite Hx, Hy. exact E2.
Qed.

Lemma Qle_bool_compat (x x' y y' : Q) :
  x == x' -> y == y' -> Qle_bool x y = Qle_bool x' y'.
Proof.
  intros Hx Hy. destruct (Qle_bool x y) eqn:E1, (Qle_bool x' y') eqn:E2; auto.
  - apply Qle_bool_iff in E1. apply Qle_bool_false in E2. exfalso. lra.
  - apply Qle_bool_iff in E2. apply Qle_bool_false in E1. exfalso. lra.
Qed.

Lemma Qfloor_compat (x y : Q) : x == y -> Qfloor x = Qfloor y.
Proof.
  intros H. apply Z.le_antisymm; apply Qfloor_resp_le; rewrite H; apply Qle_refl.
Qed.

#[export] Instance num_neg_proper : Proper (num_eqv ==> num_eqv) num_neg.
Proof. intros [x| | |] [y| | |]; simpl; try tauto. intros H. rewrite H. reflexivity. Qed.

#[export] Instance scale_inf_proper : Proper (Qeq ==> eq ==> num_eqv) scale_inf.
Proof.
  intros x y H i ? <-. unfold scale_inf.
  rewrite (Qeq_bool_compat x y 0 0 H (Qeq_refl 0)).
  rewrite (Qle_bool_compat x y 0 0 H (Qeq_refl 0)). reflexivity.
Qed.

#[export] Instance num_add_proper : Proper (num_eqv ==> num_eqv ==> num_eqv) num_add.
Proof.
  intros [x| | |] [x'| | |] Hx [y| | |] [y'| | |] Hy; simpl in *; try tauto.
  rewrite Hx, Hy. reflexivity.
Qed.

#[export] Instance num_sub_proper : Proper (num_eqv ==> num_eqv ==> num_eqv) num_sub.
Proof. intros a a' Ha b b' Hb. unfold num_sub. rewrite Ha, Hb. reflexivity. Qed.

#[export] Instance num_mul_proper : Proper (num_eqv ==> num_eqv ==> num_eqv) num_mul.
Proof.
  intros [x| | |] [x'| | |] Hx [y| | |] [y'| | |] Hy; simpl in *; try tauto;
    try (rewrite Hx; reflexivity); try (rewrite Hy; reflexivity).
  rewrite Hx, Hy. reflexivity.
Qed.

#[export] Instance num_div_proper : Proper (num_eqv ==> num_eqv ==> num_eqv) num_div.
Proof.
  intros [x| | |] [x'| | |] Hx [y| | |] [y'| | |] Hy; simpl in *; try tauto;
    try (rewrite (Qeq_bool_compat y y' 0 0 Hy (Qeq_refl 0)));
    try (destruct (Qeq_bool y' 0)); try reflexivity; try (rewrite Hy; reflexivity);
    try (rewrite Hx; reflexivity).
  rewrite Hx, Hy. reflexivity.
Qed.

#[export] Instance num_cmp_proper : Proper (num_eqv ==> num_eqv ==> eq) num_cmp.
Proof.
  intros [x| | |] [x'| | |] Hx [y| | |] [y'| | |] Hy; simpl in *; try tauto.
  rewrite Hx, Hy. reflexivity.
Qed.

#[export] Instance num_lt_proper : Proper (num_eqv ==> num_eqv ==> eq) num_lt.
Proof. intros a a' Ha b b' Hb. unfold num_lt. now rewrite (num_cmp_proper a a' Ha b b' Hb). Qed.

#[export] Instance num_le_proper : Proper (num_eqv ==> num_eqv ==> eq) num_le.
Proof. intros a a' Ha b b' Hb. unfold num_le. now rewrite (num_cmp_proper a a' Ha b b' Hb). Qed.

#[export] Instance num_min_proper : Proper (num_eqv ==> num_eqv ==> num_eqv) num_min.
Proof.
  intros a a' Ha b b' Hb. unfold num_min. rewrite (num_lt_proper b b' Hb a a' Ha).
  destruct a, a', b, b'; simpl in Ha, Hb |- *; try tauto; destruct (num_lt _ _); auto.
Qed.

#[export] Instance num_max_proper : Proper (num_eqv ==> num_eqv ==> num_eqv) num_max.
Proof.
  intros a a' Ha b b' Hb. unfold num_max. rewrite (num_lt_proper a a' Ha b b' Hb).
  destruct a, a', b, b'; simpl in Ha, Hb |- *; try tauto; destruct (num_lt _ _); auto.
Qed.

#[export] Instance num_cube_proper : Proper (num_eqv ==> num_eqv) num_cube.
Proof. intros [x| | |] [y| | |] H; simpl in *; try tauto. rewrite H. reflexivity. Qed.

#[export] Instance num_floor_proper : Proper (num_eqv ==> num_eqv) num_floor.
Proof.
  intros [x| | |] [y| | |] H; simpl in *; try tauto.
  rewrite (Qfloor_compat x y H). reflexivity.
Qed.

#[export] Instance num_round_proper : Proper (num_eqv ==> num_eqv) num_round.
Proof.
  intros [x| | |] [y| | |] H; simpl in H; try tauto; try exact I.
  assert (E : x + (1 # 2) == y + (1 # 2)) by (rewrite H; reflexivity).
  unfold num_round. rewrite (Qfloor_compat _ _ E). reflexivity.
Qed.

#[export] Instance num_truthy_proper : Proper (num_eqv ==> eq) num_truthy.
Proof.
  intros [x| | |] [y| | |] H; simpl in *; try tauto.
  rewrite (Qeq_bool_compat x y 0 0 H (Qeq_refl 0)). reflexivity.
Qed.

(** ** Finite arithmetic *)

Lemma num_sub_fin (x y : Q) : num_sub (Fin x) (Fin y) = Fin (x - y).
Proof. reflexivity. Qed.

Lemma num_mul_fin (x y : Q) : num_mul (Fin x) (Fin y) = Fin (x * y).
Proof. reflexivity. Qed.

Lemma num_div_fin (x y : Q) : ~ y == 0 -> num_div (Fin x) (Fin y) = Fin (x / y).
Proof.
  intros Hy. simpl. destruct (Qeq_bool y 0) eqn:E; [|reflexivity].
  apply Qeq_bool_iff in E. contradiction.
Qed.

Lemma num_lt_fin (x y : Q) : num_lt (Fin x) (Fin y) = true <-> x < y.
Proof.
  unfold num_lt. simpl. rewrite Qlt_alt.
  destruct (x ?= y); split; congruence.
Qed.

Lemma num_lt_fin_false (x y : Q) : num_lt (Fin x) (Fin y) = false <-> y <= x.
Proof.
  split.
  - intros H. apply Qnot_lt_le. intros Hlt. apply num_lt_fin in Hlt. congruence.
  - intros H. destruct (num_lt (Fin x) (Fin y)) eqn:E; auto.
    apply num_lt_fin in E. lra.
Qed.

(** [Math.min] and [Math.max] on finite values are [Qmin] and [Qmax]. *)
Lemma num_min_fin (x y : Q) : num_min (Fin x) (Fin y) = Fin (Qmin x y).
Proof.
  unfold num_min, num_lt, Qmin, GenericMinMax.gmin. simpl.
  rewrite <- (Qcompare_antisym x y). destruct (x ?= y); reflexivity.
Qed.

Lemma num_max_fin (x y : Q) : num_max (Fin x) (Fin y) = Fin (Qmax x y).
Proof.
  unfold num_max, num_lt, Qmax, GenericMinMax.gmax. simpl.
  destruct (x ?= y); reflexivity.
Qed.
