(* ===== verification/JsString.v ===== *)
(** * JavaScript string built-ins

    The string operations the script calls, as the ECMAScript
    specification defines them, on ASCII strings: [String.prototype.trim]
    (22.1.3.32), [replace] with a string pattern (first occurrence only,
    22.1.3.19), [toUpperCase], [slice], [includes], [Number(s)]
    (StringToNumber, 7.1.4.1.1), [parseInt] (19.2.5) and the fractional
    digits of [Number.prototype.toString(radix)].  Number literals are
    valued exactly (no rounding to 53 bits, no overflow to Infinity for
    huge exponents). *)

From Stdlib Require Import QArith Qround Qpower Lqa Lia ZArith List String Ascii Bool.
From S2P Require Import Prelude JsNum.
Import ListNotations.

#[local] Open Scope Q_scope.
#[local] Open Scope string_scope.

(** ** Characters *)

(** StrWhiteSpaceChar restricted to ASCII: TAB, LF, VT, FF, CR, SP. *)
Definition is_ws (c : ascii) : bool :=
  match nat_of_ascii c with
  | 9 | 10 | 11 | 12 | 13 | 32 => true
  | _ => false
  end%nat.

(** The value of a digit in radix up to 36: [0-9], [a-z], [A-Z]. *)
Definition digit_val (c : ascii) : option Z :=
  let n := nat_of_ascii c in
  if ((48 <=? n) && (n <=? 57))%nat then Some (Z.of_nat n - 48)%Z
  else if ((97 <=? n) && (n <=? 122))%nat then Some (Z.of_nat n - 87)%Z
  else if ((65 <=? n) && (n <=? 90))%nat then Some (Z.of_nat n - 55)%Z
  else None.

Definition is_digit (r : Z) (c : ascii) : bool :=
  match digit_val c with Some d => (d <? r)%Z | None => false end.

(** [toUpperCase] on ASCII. *)
Definition upper_char (c : ascii) : ascii :=
  let n := nat_of_ascii c in
  if ((97 <=? n) && (n <=? 122))%nat then ascii_of_nat (n - 32) else c.

Fixpoint to_upper (s : string) : string :=
  match s with
  | EmptyString => EmptyString
  | String c s' => String (upper_char c) (to_upper s')
  end.

(** ** trim, replace, slice, includes *)

Fixpoint drop_ws (l : list ascii) : list ascii :=
  match l with
  | c :: l' => if is_ws c then drop_ws l' else l
  | [] => []
  end.

(** [s.trim()] *)
Definition trim (s : string) : string :=
  string_of_list_ascii (rev (drop_ws (rev (drop_ws (list_ascii_of_string s))))).

(** [s.replace(c, "")] for a one-character pattern: the first occurrence
    only is removed. *)
Fixpoint remove_first (c : ascii) (s : string) : string :=
  match s with
  | EmptyString => EmptyString
  | String c' s' => if Ascii.eqb c c' then s' else String c' (remove_first c s')
  end.

(** [s.slice(b, e)] for [0 <= b <= e]. *)
Definition slice (b e : nat) (s : string) : string := substring b (e - b) s.

(** [s.includes(c)] for a one-character argument. *)
Fixpoint includes_char (c : ascii) (s : string) : bool :=
  match s with
  | EmptyString => false
  | String c' s' => Ascii.eqb c c' || includes_char c s'
  end.

(** ** Digit strings *)

(** The longest prefix of radix-[r] digits, and the rest. *)
Fixpoint span_digits (r : Z) (s : string) : list Z * string :=
  match s with
  | String c s' =>
      match digit_val c with
      | Some d => if (d <? r)%Z then let '(ds, rest) := span_digits r s' in (d :: ds, rest)
                  else ([], s)
      | None => ([], s)
      end
  | EmptyString => ([], s)
  end.

Definition digits_value (r : Z) (ds : list Z) : Z :=
  fold_left (fun acc d => acc * r + d)%Z ds 0%Z.

(** ** [Number(s)]: StringToNumber *)

(** ExponentPart after the [e]: an optional sign, then at least one
    digit, then the end of the string. *)
Definition parse_exponent (s : string) : option Z :=
  let '(sgn, s1) :=
    match s with
    | String "+"%char s' => (1%Z, s')
    | String "-"%char s' => ((-1)%Z, s')
    | _ => (1%Z, s)
    end in
  match span_digits 10 s1 with
  | (d :: ds, EmptyString) => Some (sgn * digits_value 10 (d :: ds))%Z
  | _ => None
  end.

Definition apply_exponent (m : Q) (rest : string) : option Q :=
  match rest with
  | EmptyString => Some m
  | String c s' =>
      if Ascii.eqb c "e"%char || Ascii.eqb c "E"%char then
        match parse_exponent s' with
        | Some e => Some (m * Qpower (inject_Z 10) e)
        | None => None
        end
      else None
  end.

Definition mantissa (ip fp : list Z) : Q :=
  inject_Z (digits_value 10 (ip ++ fp)%list) / inject_Z (10 ^ Z.of_nat (List.length fp)).

(** StrUnsignedDecimalLiteral. *)
Definition parse_unsigned_decimal (s : string) : option num :=
  if String.eqb s "Infinity" then Some PosInf else
  let '(ip, r1) := span_digits 10 s in
  match r1 with
  | String "."%char r2 =>
      let '(fp, r3) := span_digits 10 r2 in
      match ip, fp with
      | [], [] => None
      | _, _ => option_map Fin (apply_exponent (mantissa ip fp) r3)
      end
  | _ =>
      match ip with
      | [] => None
      | _ => option_map Fin (apply_exponent (mantissa ip []) r1)
      end
  end.

(** NonDecimalIntegerLiteral: [0x], [0o], [0b] and at least one digit. *)
Definition parse_radix_integer (r : Z) (s : string) : option num :=
  match span_digits r s with
  | (d :: ds, EmptyString) => Some (of_Z (digits_value r (d :: ds)))
  | _ => None
  end.

(** StrNumericLiteral. *)
Definition parse_numeric_literal (s : string) : option num :=
  match s with
  | String "0"%char (String x s') =>
      if Ascii.eqb x "x"%char || Ascii.eqb x "X"%char then parse_radix_integer 16 s'
      else if Ascii.eqb x "o"%char || Ascii.eqb x "O"%char then parse_radix_integer 8 s'
      else if Ascii.eqb x "b"%char || Ascii.eqb x "B"%char then parse_radix_integer 2 s'
      else parse_unsigned_decimal s
  | String "+"%char s' => parse_unsigned_decimal s'
  | String "-"%char s' => option_map num_neg (parse_unsigned_decimal s')
  | _ => parse_unsigned_decimal s
  end.

(** [Number(s)]: surrounding white space is ignored, the empty string is
    0, and a string that is not a numeric literal is NaN. *)
Definition string_to_number (s : string) : num :=
  let t := trim s in
  if String.eqb t "" then Fin 0
  else match parse_numeric_literal t with Some n => n | None => NaN end.

(** ** [parseInt(s, radix)] *)

(** [radix] is [None] when the argument is omitted ([undefined]). *)
(** The sign of the text after the white space, and the characters after it. *)
Definition int_sign (l : list ascii) : Z * list ascii :=
  match l with
  | "-"%char :: l' => ((-1)%Z, l')
  | "+"%char :: l' => (1%Z, l')
  | _ => (1%Z, l)
  end.

Definition parse_int (s : string) (radix : option Z) : num :=
  let '(sign, l1) := int_sign (drop_ws (list_ascii_of_string s)) in
  let R := match radix with Some r => r | None => 0%Z end in
  if negb (R =? 0)%Z && ((R <? 2)%Z || (36 <? R)%Z) then NaN else
  let strip := (R =? 0)%Z || (R =? 16)%Z in
  let '(R1, l2) :=
    match l1 with
    | "0"%char :: x :: l' =>
        if strip && (Ascii.eqb x "x"%char || Ascii.eqb x "X"%char) then (16%Z, l')
        else ((if (R =? 0)%Z then 10 else R)%Z, l1)
    | _ => ((if (R =? 0)%Z then 10 else R)%Z, l1)
    end in
  match span_digits R1 (string_of_list_ascii l2) with
  | ([], _) => NaN
  | (ds, _) => of_Z (sign * digits_value R1 ds)
  end.

(** The text [parseInt] without a radix reads as hexadecimal: ["0x"] or
    ["0X"] after the white space and the sign. *)
Definition hex_prefixed (s : string) : bool :=
  match snd (int_sign (drop_ws (list_ascii_of_string s))) with
  | "0"%char :: x :: _ => Ascii.eqb x "x"%char || Ascii.eqb x "X"%char
  | _ => false
  end.

(** The value of a digit character, [0] for a non-digit. *)
Definition digit_of (c : ascii) : Z := match digit_val c with Some d => d | None => 0%Z end.

(** ** [Number.prototype.toString(radix)] on [0, 1) *)

(** The fractional digits of [x] in radix [r], until the remainder is
    zero or [fuel] digits are written. *)
Fixpoint frac_digits (r : Z) (x : Q) (fuel : nat) : list Z :=
  match fuel with
  | O => []
  | S fuel' =>
      if Qeq_bool x 0 then []
      else let y := x * inject_Z r in
           let d := Qfloor y in
           d :: frac_digits r (y - inject_Z d) fuel'
  end.

Definition digit_char (d : Z) : ascii :=
  if (d <? 10)%Z then ascii_of_nat (Z.to_nat d + 48) else ascii_of_nat (Z.to_nat d + 87).

Fixpoint string_of_digits (ds : list Z) : string :=
  match ds with
  | [] => EmptyString
  | d :: ds' => String (digit_char d) (string_of_digits ds')
  end.

(** [x.toString(r)] for [0 <= x < 1]: ["0"] for zero, otherwise ["0."]
    followed by the digits.  An engine stops the expansion when the
    digits identify the double; this model writes the exact expansion,
    which is what the engine writes when the expansion ends first (as for
    [0.5], [0.25]).  A double in [0, 1) is a multiple of [2^-53], whose
    expansion in radix 16 or 36 ends within 27 digits: 64 digits of fuel
    are enough. *)
Definition frac_to_string (r : Z) (x : Q) : string :=
  match frac_digits r x 64 with
  | [] => "0"
  | ds => "0." ++ string_of_digits ds
  end.

(** A string all of whose characters satisfy [P]. *)
Fixpoint all_chars (P : ascii -> bool) (s : string) : bool :=
  match s with
  | EmptyString => true
  | String c s' => P c && all_chars P s'
  end.

(** [[0-9a-z]] and [[0-9A-Z]], by character code. *)
Definition is_lower_alnum (c : ascii) : bool :=
  let n := nat_of_ascii c in ((48 <=? n) && (n <=? 57) || (97 <=? n) && (n <=? 122))%nat.

Definition is_upper_alnum (c : ascii) : bool :=
  let n := nat_of_ascii c in ((48 <=? n) && (n <=? 57) || (65 <=? n) && (n <=? 90))%nat.

(** ** Lemmas *)

Lemma to_upper_length (s : string) : String.length (to_upper s) = String.length s.
Proof. induction s; simpl; congruence. Qed.

Lemma all_chars_to_upper (P P' : ascii -> bool) (s : string) :
  (forall c, P c = true -> P' (upper_char c) = true) ->
  all_chars P s = true -> all_chars P' (to_upper s) = true.
Proof.
  intros HP. induction s as [|c s IH]; simpl; [reflexivity|].
  rewrite !andb_true_iff. intros [Hc Hs]. auto.
Qed.

Lemma all_chars_substring (P : ascii -> bool) (n m : nat) (s : string) :
  all_chars P s = true -> all_chars P (substring n m s) = true.
Proof.
  revert n m. induction s as [|c s IH]; intros n m; simpl; [destruct n, m; reflexivity|].
  rewrite andb_true_iff. intros [Hc Hs].
  destruct n, m; simpl; [reflexivity| rewrite Hc; apply IH; exact Hs | apply IH; exact Hs ..].
Qed.

Lemma substring0_length_min (n : nat) (s : string) :
  String.length (substring 0 n s) = Nat.min n (String.length s).
Proof.
  revert n. induction s as [|c s IH]; intros [|n]; simpl; auto.
Qed.

Lemma string_of_digits_length (ds : list Z) :
  String.length (string_of_digits ds) = List.length ds.
Proof. induction ds; simpl; congruence. Qed.

Lemma digit_char_lower_alnum (d : Z) :
  (0 <= d < 36)%Z -> is_lower_alnum (digit_char d) = true.
Proof.
  intros Hd. unfold digit_char, is_lower_alnum.
  destruct (Z.ltb_spec d 10); rewrite nat_ascii_embedding by lia;
    rewrite orb_true_iff, !andb_true_iff, !Nat.leb_le; lia.
Qed.

Lemma upper_char_upper_alnum (c : ascii) :
  is_lower_alnum c = true -> is_upper_alnum (upper_char c) = true.
Proof.
  unfold is_lower_alnum, is_upper_alnum, upper_char.
  rewrite orb_true_iff, !andb_true_iff, !Nat.leb_le. intros Hc.
  pose proof (nat_ascii_bounded c). cbv zeta.
  destruct ((97 <=? nat_of_ascii c) && (nat_of_ascii c <=? 122))%nat eqn:E;
    rewrite ?andb_true_iff, ?andb_false_iff, ?Nat.leb_le, ?Nat.leb_gt in E;
    [rewrite nat_ascii_embedding by lia|];
    rewrite orb_true_iff, !andb_true_iff, !Nat.leb_le; lia.
Qed.

Lemma string_of_digits_lower_alnum (ds : list Z) :
  Forall (fun d => 0 <= d < 36)%Z ds -> all_chars is_lower_alnum (string_of_digits ds) = true.
Proof.
  induction 1; simpl; [reflexivity|]. rewrite digit_char_lower_alnum by assumption. assumption.
Qed.

(** Every digit of the expansion of [0 <= x < 1] in radix [r] is below [r]. *)
Lemma frac_digits_range (r : Z) (x : Q) (fuel : nat) :
  (0 < r)%Z -> 0 <= x < 1 -> Forall (fun d => 0 <= d < r)%Z (frac_digits r x fuel).
Proof.
  intros Hr. revert x. induction fuel as [|fuel IH]; intros x [Hx0 Hx1]; cbn [frac_digits]; [constructor|].
  destruct (Qeq_bool x 0); [constructor|].
  assert (Hr' : inject_Z 0 < inject_Z r) by (rewrite <- Zlt_Qlt; exact Hr).
  change (inject_Z 0) with 0 in Hr'.
  set (y := x * inject_Z r).
  assert (Hy0 : 0 <= y) by (unfold y; nra).
  assert (Hy1 : y < inject_Z r) by (unfold y; nra).
  pose proof (Qfloor_le y) as Hf. pose proof (Qlt_floor y) as Hf1.
  rewrite inject_Z_plus in Hf1.
  constructor.
  - split.
    + exact (Qfloor_resp_le 0 y Hy0).
    + rewrite Zlt_Qlt. lra.
  - apply IH. change (inject_Z 1) with 1 in Hf1. lra.
Qed.

(** ** [parseInt] with and without a radix *)

(** Radix 10 and no radix read the same number unless the text starts
    with a hexadecimal prefix. *)
Lemma parse_int_10_none (s : string) :
  hex_prefixed s = false -> parse_int s (Some 10%Z) = parse_int s None.
Proof.
  unfold hex_prefixed, parse_int. destruct (int_sign _) as [sign l1]. simpl. intros H.
  destruct l1 as [|c [|x l']]; [reflexivity|reflexivity|].
  destruct c as [[] [] [] [] [] [] [] []]; try reflexivity.
  cbn in H |- *. rewrite H. reflexivity.
Qed.

Lemma span_digits_all (r : Z) (h : list ascii) :
  forallb (is_digit r) h = true -> span_digits r (string_of_list_ascii h) = (map digit_of h, EmptyString).
Proof.
  induction h as [|c h IH]; simpl; [reflexivity|]. intros Hc. apply andb_true_iff in Hc as [Hc Hh].
  unfold is_digit, digit_of in *. destruct (digit_val c) as [d|]; [|discriminate].
  rewrite Hc, IH by exact Hh. reflexivity.
Qed.

(** ["0x"] followed by hexadecimal digits: radix 10 reads the [0] before
    the [x], no radix reads the digits in base 16. *)
Lemma parse_int_hex (h : list ascii) :
  h <> [] -> forallb (is_digit 16) h = true ->
  parse_int (string_of_list_ascii ("0"%char :: "x"%char :: h)) (Some 10%Z) = of_Z 0 /\
  parse_int (string_of_list_ascii ("0"%char :: "x"%char :: h)) None = of_Z (digits_value 16 (map digit_of h)).
Proof.
  intros Hne Hh. unfold parse_int. cbn -[span_digits string_of_list_ascii]. split; [reflexivity|].
  rewrite list_ascii_of_string_of_list_ascii. cbn -[span_digits].
  replace (is_ws "0"%char) with false by reflexivity. cbn -[span_digits].
  rewrite span_digits_all by exact Hh.
  destruct h as [|c h]; [congruence|]. cbn iota beta. f_equal. destruct (digits_value _ _); reflexivity.
Qed.

(** ** The length of a terminating expansion *)

Lemma frac_digits_ext (r : Z) (x x' : Q) (n : nat) :
  x == x' -> frac_digits r x n = frac_digits r x' n.
Proof.
  revert x x'. induction n as [|n IH]; intros x x' E; cbn [frac_digits]; [reflexivity|].
  destruct (Qeq_bool x 0) eqn:B, (Qeq_bool x' 0) eqn:B'; try reflexivity.
  - apply Qeq_bool_iff in B. apply Qeq_bool_neq in B'. exfalso. apply B'. rewrite <- E. exact B.
  - apply Qeq_bool_iff in B'. apply Qeq_bool_neq in B. exfalso. apply B. rewrite E. exact B'.
  - rewrite (Qfloor_comp (x * inject_Z r) (x' * inject_Z r)) by (rewrite E; reflexivity).
    f_equal. apply IH. rewrite E. reflexivity.
Qed.

Lemma Qfloor_unique (y : Q) (n : Z) : inject_Z n <= y -> y < inject_Z n + 1 -> Qfloor y = n.
Proof.
  intros H1 H2. pose proof (Qfloor_resp_le _ _ H1) as Hl. rewrite Qfloor_Z in Hl.
  pose proof (Qfloor_le y) as Hf.
  assert (Hu : (Qfloor y < n + 1)%Z) by (rewrite Zlt_Qlt, inject_Z_plus; change (inject_Z 1) with 1; lra).
  lia.
Qed.

(** A value [k / r^j] in [0, 1) has at most [j] digits in radix [r]. *)
Lemma frac_digits_len (r : Z) (j : nat) (k : Z) (n : nat) :
  (0 < r)%Z -> (0 <= k < r ^ Z.of_nat j)%Z ->
  (List.length (frac_digits r (inject_Z k / inject_Z (r ^ Z.of_nat j)) n) <= j)%nat.
Proof.
  intros Hr. revert k n. induction j as [|j IH]; intros k n Hk; destruct n as [|n]; cbn [frac_digits List.length]; try lia.
  - replace k with 0%Z by (simpl in Hk; lia). reflexivity.
  - destruct (Qeq_bool _ 0); cbn [List.length]; [lia|]. apply le_n_S.
    set (m := (r ^ Z.of_nat j)%Z).
    assert (Hm : (0 < m)%Z) by (apply Z.pow_pos_nonneg; lia).
    assert (Hrm : (r ^ Z.of_nat (S j) = r * m)%Z) by (rewrite Nat2Z.inj_succ, Z.pow_succ_r; lia).
    rewrite Hrm in Hk |- *.
    assert (Hmq : 0 < inject_Z m) by (change 0 with (inject_Z 0); rewrite <- Zlt_Qlt; exact Hm).
    assert (Hrq : 0 < inject_Z r) by (change 0 with (inject_Z 0); rewrite <- Zlt_Qlt; exact Hr).
    assert (Hm' : ~ inject_Z m == 0) by (intros E; rewrite E in Hmq; exact (Qlt_irrefl 0 Hmq)).
    assert (Hr' : ~ inject_Z r == 0) by (intros E; rewrite E in Hrq; exact (Qlt_irrefl 0 Hrq)).
    pose proof (Z.div_mod k m ltac:(lia)) as Hdm. pose proof (Z.mod_pos_bound k m Hm) as Hb.
    set (q := (k / m)%Z) in *. set (k0 := (k mod m)%Z) in *.
    assert (Hz0 : 0 <= inject_Z k0 / inject_Z m).
    { apply Qle_shift_div_l; [exact Hmq|]. rewrite Qmult_0_l.
      change 0 with (inject_Z 0). rewrite <- Zle_Qle. lia. }
    assert (Hz1 : inject_Z k0 / inject_Z m < 1).
    { apply Qlt_shift_div_r; [exact Hmq|]. rewrite Qmult_1_l.
      rewrite <- Zlt_Qlt. lia. }
    assert (Hy : inject_Z k / inject_Z (r * m) * inject_Z r == inject_Z q + inject_Z k0 / inject_Z m).
    { rewrite Hdm at 1. rewrite inject_Z_plus, !inject_Z_mult. field. split; assumption. }
    rewrite (Qfloor_comp _ _ Hy), (Qfloor_unique _ q) by lra.
    rewrite (frac_digits_ext r _ (inject_Z k0 / inject_Z m)) by (rewrite Hy; ring).
    apply IH. lia.
Qed.
