(* ===== verification/JsJson.v ===== *)
(** * [JSON.parse] (the built-in the typewriter calls at line 90)

    A JSON text is parsed by recursive descent over its characters, as
    the grammar of ECMA-404 reads: whitespace is space, tab, line feed and
    carriage return; a value is an object, an array, a string, a number or
    one of [true], [false], [null]; the text is one value between optional
    whitespace.  A string is kept as its list of UTF-16 code units, so the
    escapes [\uXXXX] are exact; an object as its list of members in the
    order of the text.  A number lexeme is checked against the JSON
    grammar and converted with [Number(lexeme)] ([JsString.string_to_number]),
    which gives the value [JSON.parse] gives for such a lexeme.

    The descent functions take fuel; [json_parse] gives them three units
    per character plus one (a nesting level passes through three
    functions for its opening bracket), and [json_parse_fuel] shows that
    this never runs out: a parse either succeeds or reports a
    [SyntaxError]. *)

From Stdlib Require Import QArith Lia ZArith List String Ascii Bool.
From S2P Require Import Prelude JsNum JsString.
Import ListNotations.

#[local] Open Scope Z_scope.

(** ** Values *)

Inductive json :=
| JNull
| JBool (b : bool)
| JNum (n : num)
| JStr (s : list Z)
| JArr (vs : list json)
| JObj (fields : list (list Z * json)).

(** The outcome of a descent function: a value and the text after it, a
    syntax error, or no fuel left. *)
Inductive presult (A : Type) :=
| POk (a : A) (rest : list ascii)
| PErr
| PNoFuel.
Arguments POk {A} a rest.
Arguments PErr {A}.
Arguments PNoFuel {A}.

(** ** Lexical level *)

Definition json_ws (c : ascii) : bool :=
  match nat_of_ascii c with 9 | 10 | 13 | 32 => true | _ => false end%nat.

Fixpoint skip_ws (l : list ascii) : list ascii :=
  match l with
  | c :: l' => if json_ws c then skip_ws l' else l
  | [] => []
  end.

Definition hex_val (c : ascii) : option Z :=
  let n := Z.of_nat (nat_of_ascii c) in
  if (48 <=? n) && (n <=? 57) then Some (n - 48)
  else if (97 <=? n) && (n <=? 102) then Some (n - 87)
  else if (65 <=? n) && (n <=? 70) then Some (n - 55)
  else None.

(** The code unit of a one-character escape [\e]. *)
Definition simple_escape (e : ascii) : option Z :=
  let n := Z.of_nat (nat_of_ascii e) in
  if (n =? 34) || (n =? 92) || (n =? 47) then Some n
  else if n =? 98 then Some 8 else if n =? 102 then Some 12
  else if n =? 110 then Some 10 else if n =? 114 then Some 13
  else if n =? 116 then Some 9 else None.

(** The body of a string after its opening quote: the code units up to
    the closing quote, and the text after it.  A raw control character
    (below 0x20) is an error. *)
Fixpoint lex_string (l : list ascii) (acc : list Z) : option (list Z * list ascii) :=
  match l with
  | [] => None
  | c :: l' =>
      let n := Z.of_nat (nat_of_ascii c) in
      if n =? 34 then Some (rev acc, l')
      else if n =? 92 then
        match l' with
        | [] => None
        | e :: l'' =>
            if Ascii.eqb e "u" then
              match l'' with
              | h1 :: h2 :: h3 :: h4 :: l3 =>
                  match hex_val h1, hex_val h2, hex_val h3, hex_val h4 with
                  | Some a, Some b, Some c', Some d =>
                      lex_string l3 ((((a * 16 + b) * 16 + c') * 16 + d) :: acc)
                  | _, _, _, _ => None
                  end
              | _ => None
              end
            else
              match simple_escape e with
              | Some u => lex_string l'' (u :: acc)
              | None => None
              end
        end
      else if n <? 32 then None
      else lex_string l' (n :: acc)
  end.

(** The text after the literal [p], when the text starts with it. *)
Fixpoint strip_prefix (p l : list ascii) : option (list ascii) :=
  match p, l with
  | [], _ => Some l
  | a :: p', c :: l' => if Ascii.eqb a c then strip_prefix p' l' else None
  | _ :: _, [] => None
  end.

Definition strip_literal (l : list ascii) : option (json * list ascii) :=
  match strip_prefix (list_ascii_of_string "true") l with
  | Some r => Some (JBool true, r)
  | None =>
      match strip_prefix (list_ascii_of_string "false") l with
      | Some r => Some (JBool false, r)
      | None =>
          match strip_prefix (list_ascii_of_string "null") l with
          | Some r => Some (JNull, r)
          | None => None
          end
      end
  end.

(** The double quote, character 34. *)
Definition quote_char : ascii := ascii_of_nat 34.

Definition is_digit_char (c : ascii) : bool :=
  let n := nat_of_ascii c in ((48 <=? n) && (n <=? 57))%nat.

(** The characters a number lexeme is made of. *)
Definition num_char (c : ascii) : bool :=
  is_digit_char c || match c with "-"%char | "+"%char | "."%char | "e"%char | "E"%char => true | _ => false end.

Fixpoint span_num (l : list ascii) : list ascii * list ascii :=
  match l with
  | c :: l' => if num_char c then let '(a, b) := span_num l' in (c :: a, b) else ([], l)
  | [] => ([], [])
  end.

(** The text after a run of digits. *)
Fixpoint skip_digits (l : list ascii) : list ascii :=
  match l with
  | c :: l' => if is_digit_char c then skip_digits l' else l
  | [] => []
  end.

(** The JSON number grammar: an optional minus, then [0] or a nonzero
    digit and digits, then optionally a dot and one or more digits, then
    optionally [e] or [E], an optional sign and one or more digits. *)
Definition json_number_ok (l : list ascii) : bool :=
  let l1 := match l with "-"%char :: r => r | _ => l end in
  let int_rest :=
    match l1 with
    | "0"%char :: r => Some r
    | c :: r => if is_digit_char c then Some (skip_digits r) else None
    | [] => None
    end in
  let frac_rest (r : list ascii) :=
    match r with
    | "."%char :: r' => match r' with
                        | c :: _ => if is_digit_char c then Some (skip_digits r') else None
                        | [] => None
                        end
    | _ => Some r
    end in
  let exp_rest (r : list ascii) :=
    match r with
    | e :: r' =>
        if (Ascii.eqb e "e" || Ascii.eqb e "E")%char then
          let r'' := match r' with "+"%char :: x | "-"%char :: x => x | _ => r' end in
          match r'' with
          | c :: _ => if is_digit_char c then Some (skip_digits r'') else None
          | [] => None
          end
        else Some r
    | [] => Some []
    end in
  match int_rest with
  | Some r => match frac_rest r with
              | Some r' => match exp_rest r' with Some [] => true | _ => false end
              | None => false
              end
  | None => false
  end.

(** ** Descent *)

Fixpoint parse_value (fuel : nat) (l : list ascii) : presult json :=
  match fuel with
  | O => PNoFuel
  | S f =>
      match skip_ws l with
      | [] => PErr
      | c :: r =>
          if Ascii.eqb c "{" then parse_object f r
          else if Ascii.eqb c "[" then parse_array f r
          else if Ascii.eqb c quote_char then
            match lex_string r [] with Some (s, r') => POk (JStr s) r' | None => PErr end
          else
            match strip_literal (c :: r) with
            | Some (v, r') => POk v r'
            | None =>
                if Ascii.eqb c "-" || is_digit_char c then
                  let '(lex, r') := span_num (c :: r) in
                  if json_number_ok lex
                  then POk (JNum (string_to_number (string_of_list_ascii lex))) r'
                  else PErr
                else PErr
            end
      end
  end

(** After [[]: []] or the elements. *)
with parse_array (fuel : nat) (l : list ascii) : presult json :=
  match fuel with
  | O => PNoFuel
  | S f =>
      match skip_ws l with
      | c :: r => if Ascii.eqb c "]" then POk (JArr []) r else parse_elems f l []
      | [] => parse_elems f l []
      end
  end

(** An element, then [,] and more elements or []]. *)
with parse_elems (fuel : nat) (l : list ascii) (acc : list json) : presult json :=
  match fuel with
  | O => PNoFuel
  | S f =>
      match parse_value f l with
      | POk v r =>
          match skip_ws r with
          | c :: r' =>
              if Ascii.eqb c "," then parse_elems f r' (v :: acc)
              else if Ascii.eqb c "]" then POk (JArr (rev (v :: acc))) r'
              else PErr
          | [] => PErr
          end
      | PErr => PErr
      | PNoFuel => PNoFuel
      end
  end

(** After [{]: [}] or the members. *)
with parse_object (fuel : nat) (l : list ascii) : presult json :=
  match fuel with
  | O => PNoFuel
  | S f =>
      match skip_ws l with
      | c :: r => if Ascii.eqb c "}" then POk (JObj []) r else parse_members f l []
      | [] => parse_members f l []
      end
  end

(** A member [key : value], then [,] and more members or [}]. *)
with parse_members (fuel : nat) (l : list ascii) (acc : list (list Z * json)) : presult json :=
  match fuel with
  | O => PNoFuel
  | S f =>
      match skip_ws l with
      | c :: r =>
          if negb (Ascii.eqb c quote_char) then PErr else
          match lex_string r [] with
          | Some (k, r1) =>
              match skip_ws r1 with
              | d :: r2 =>
                  if negb (Ascii.eqb d ":") then PErr else
                  match parse_value f r2 with
                  | POk v r3 =>
                      match skip_ws r3 with
                      | e :: r4 =>
                          if Ascii.eqb e "," then parse_members f r4 ((k, v) :: acc)
                          else if Ascii.eqb e "}" then POk (JObj (rev ((k, v) :: acc))) r4
                          else PErr
                      | [] => PErr
                      end
                  | PErr => PErr
                  | PNoFuel => PNoFuel
                  end
              | [] => PErr
              end
          | None => PErr
          end
      | [] => PErr
      end
  end.

(** [JSON.parse(text)]: [None] is the [SyntaxError]. *)
Definition json_parse (s : string) : option json :=
  let l := list_ascii_of_string s in
  match parse_value (3 * List.length l + 1) l with
  | POk v r => match skip_ws r with [] => Some v | _ => None end
  | _ => None
  end.

(** ** The fuel is enough *)

(** A descent result that is not out of fuel and, when it succeeds,
    consumed some text. *)
Definition consumed {A} (res : presult A) (l : list ascii) : Prop :=
  match res with
  | POk _ r => (List.length r < List.length l)%nat
  | PErr => True
  | PNoFuel => False
  end.

Lemma skip_ws_le (l : list ascii) : (List.length (skip_ws l) <= List.length l)%nat.
Proof. induction l as [|c l IH]; simpl; [lia|]. destruct (json_ws c); simpl; lia. Qed.

Lemma lex_string_lt (l : list ascii) (acc s : list Z) (r : list ascii) :
  lex_string l acc = Some (s, r) -> (List.length r < List.length l)%nat.
Proof.
  revert acc. induction l as [l IH] using (induction_ltof1 _ (@List.length ascii)).
  intros acc H. destruct l as [|c l']; [discriminate|].
  cbn [lex_string] in H.
  destruct (_ =? 34)%Z; [injection H as _ <-; simpl; lia|].
  destruct (_ =? 92)%Z.
  - destruct l' as [|e l'']; [discriminate|].
    destruct (Ascii.eqb e "u").
    + destruct l'' as [|h1 [|h2 [|h3 [|h4 l3]]]]; try discriminate.
      destruct (hex_val h1), (hex_val h2), (hex_val h3), (hex_val h4); try discriminate.
      apply IH in H; unfold ltof in *; simpl in *; lia.
    + destruct (simple_escape e); [|discriminate].
      apply IH in H; unfold ltof in *; simpl in *; lia.
  - destruct (_ <? 32)%Z; [discriminate|]. apply IH in H; unfold ltof in *; simpl in *; lia.
Qed.

Lemma strip_prefix_length (p l r : list ascii) :
  strip_prefix p l = Some r -> (List.length r + List.length p = List.length l)%nat.
Proof.
  revert l. induction p as [|a p IH]; intros [|c l] H; simpl in H; try discriminate.
  - injection H as <-. simpl. lia.
  - injection H as <-. simpl. lia.
  - destruct (Ascii.eqb a c); [|discriminate]. apply IH in H. simpl. lia.
Qed.

Lemma strip_literal_lt (l r : list ascii) (v : json) :
  strip_literal l = Some (v, r) -> (List.length r < List.length l)%nat.
Proof.
  unfold strip_literal.
  destruct (strip_prefix (list_ascii_of_string "true") l) eqn:E1;
    [intros H; injection H as _ <-; apply strip_prefix_length in E1; simpl in E1; lia|].
  destruct (strip_prefix (list_ascii_of_string "false") l) eqn:E2;
    [intros H; injection H as _ <-; apply strip_prefix_length in E2; simpl in E2; lia|].
  destruct (strip_prefix (list_ascii_of_string "null") l) eqn:E3; [|discriminate].
  intros H; injection H as _ <-; apply strip_prefix_length in E3; simpl in E3; lia.
Qed.

Lemma span_num_le (l : list ascii) : (List.length (snd (span_num l)) <= List.length l)%nat.
Proof.
  induction l as [|c l IH]; simpl; [lia|].
  destruct (num_char c); [destruct (span_num l); simpl in *; lia|simpl; lia].
Qed.

Lemma span_num_cons (c : ascii) (l : list ascii) :
  num_char c = true -> (List.length (snd (span_num (c :: l))) <= List.length l)%nat.
Proof.
  intros H. cbn [span_num]. rewrite H. pose proof (span_num_le l).
  destruct (span_num l); simpl in *; lia.
Qed.

Lemma consumed_mono {A} (res : presult A) (l l' : list ascii) :
  consumed res l' -> (List.length l' <= List.length l)%nat -> consumed res l.
Proof. destruct res; simpl; auto; lia. Qed.

Lemma num_start_char (c : ascii) : Ascii.eqb c "-" || is_digit_char c = true -> num_char c = true.
Proof.
  rewrite orb_true_iff. intros [H|H].
  - apply Ascii.eqb_eq in H. subst. reflexivity.
  - unfold num_char. rewrite H. reflexivity.
Qed.

(** Each descent function, given three units of fuel per character
    (plus a constant), finishes, and a success consumes text. *)
Lemma parse_fuel (fuel : nat) :
  (forall l, 3 * List.length l + 1 <= fuel -> consumed (parse_value fuel l) l)%nat /\
  (forall l, 3 * List.length l + 3 <= fuel -> consumed (parse_array fuel l) l)%nat /\
  (forall l acc, 3 * List.length l + 2 <= fuel -> consumed (parse_elems fuel l acc) l)%nat /\
  (forall l, 3 * List.length l + 3 <= fuel -> consumed (parse_object fuel l) l)%nat /\
  (forall l acc, 3 * List.length l + 2 <= fuel -> consumed (parse_members fuel l acc) l)%nat.
Proof.
  induction fuel as [|f IH]; [repeat split; intros; lia|].
  destruct IH as (IHv & IHa & IHe & IHo & IHm). repeat split.
  - intros l Hl. cbn [parse_value]. pose proof (skip_ws_le l) as Hs.
    destruct (skip_ws l) as [|c r]; [exact I|]. simpl in Hs.
    destruct (Ascii.eqb c "{"); [apply (consumed_mono _ _ r); [apply IHo|]; lia|].
    destruct (Ascii.eqb c "["); [apply (consumed_mono _ _ r); [apply IHa|]; lia|].
    destruct (Ascii.eqb c quote_char).
    { destruct (lex_string r []) as [[s r']|] eqn:E; [|exact I].
      apply lex_string_lt in E. simpl. lia. }
    destruct (strip_literal (c :: r)) as [[v r']|] eqn:E.
    { apply strip_literal_lt in E. simpl in *. lia. }
    destruct (Ascii.eqb c "-" || is_digit_char c) eqn:Ec; [|exact I].
    pose proof (span_num_cons c r (num_start_char c Ec)) as Hn.
    destruct (span_num (c :: r)) as [lex r']. destruct (json_number_ok lex); [|exact I].
    simpl in *. lia.
  - intros l Hl. cbn [parse_array]. destruct (skip_ws l) as [|c r] eqn:E; [apply IHe; lia|].
    pose proof (skip_ws_le l) as Hs. rewrite E in Hs. simpl in Hs.
    destruct (Ascii.eqb c "]"); [simpl; lia|apply IHe; lia].
  - intros l acc Hl. cbn [parse_elems]. pose proof (IHv l ltac:(lia)) as Hv.
    destruct (parse_value f l) as [v r| |]; [|exact I|contradiction]. simpl in Hv.
    pose proof (skip_ws_le r) as Hs. destruct (skip_ws r) as [|c r']; [exact I|]. simpl in Hs.
    destruct (Ascii.eqb c ","); [apply (consumed_mono _ _ r'); [apply IHe|]; lia|].
    destruct (Ascii.eqb c "]"); [simpl; lia|exact I].
  - intros l Hl. cbn [parse_object]. destruct (skip_ws l) as [|c r] eqn:E; [apply IHm; lia|].
    pose proof (skip_ws_le l) as Hs. rewrite E in Hs. simpl in Hs.
    destruct (Ascii.eqb c "}"); [simpl; lia|apply IHm; lia].
  - intros l acc Hl. cbn [parse_members]. pose proof (skip_ws_le l) as Hs.
    destruct (skip_ws l) as [|c r]; [exact I|]. simpl in Hs. destruct (negb _); [exact I|].
    destruct (lex_string r []) as [[k r1]|] eqn:E1; [|exact I]. apply lex_string_lt in E1.
    pose proof (skip_ws_le r1) as Hs1. destruct (skip_ws r1) as [|d r2]; [exact I|].
    simpl in Hs1. destruct (negb _); [exact I|].
    pose proof (IHv r2 ltac:(lia)) as Hv.
    destruct (parse_value f r2) as [v r3| |]; [|exact I|contradiction]. simpl in Hv.
    pose proof (skip_ws_le r3) as Hs3. destruct (skip_ws r3) as [|e r4]; [exact I|]. simpl in Hs3.
    destruct (Ascii.eqb e ","); [apply (consumed_mono _ _ r4); [apply IHm|]; lia|].
    destruct (Ascii.eqb e "}"); [simpl; lia|exact I].
Qed.

(** More fuel does not change a result that did not run out of fuel. *)
Lemma parse_mono (f k : nat) :
  (forall l, parse_value f l <> PNoFuel -> parse_value (f + k) l = parse_value f l) /\
  (forall l, parse_array f l <> PNoFuel -> parse_array (f + k) l = parse_array f l) /\
  (forall l acc, parse_elems f l acc <> PNoFuel -> parse_elems (f + k) l acc = parse_elems f l acc) /\
  (forall l, parse_object f l <> PNoFuel -> parse_object (f + k) l = parse_object f l) /\
  (forall l acc, parse_members f l acc <> PNoFuel ->
                 parse_members (f + k) l acc = parse_members f l acc).
Proof.
  induction f as [|f IH]; [repeat split; intros; contradiction|].
  destruct IH as (IHv & IHa & IHe & IHo & IHm). repeat split.
  - intros l H. cbn [Nat.add parse_value] in *. destruct (skip_ws l) as [|c r]; [reflexivity|].
    destruct (Ascii.eqb c "{"); [apply IHo, H|].
    destruct (Ascii.eqb c "["); [apply IHa, H|]. reflexivity.
  - intros l H. cbn [Nat.add parse_array] in *.
    destruct (skip_ws l) as [|c r]; [apply IHe, H|].
    destruct (Ascii.eqb c "]"); [reflexivity|apply IHe, H].
  - intros l acc H. cbn [Nat.add parse_elems] in *.
    destruct (parse_value f l) as [v r| |] eqn:E; [|rewrite IHv by congruence; rewrite E; reflexivity|contradiction].
    rewrite IHv by congruence. rewrite E.
    destruct (skip_ws r) as [|c r']; [reflexivity|].
    destruct (Ascii.eqb c ","); [apply IHe, H|reflexivity].
  - intros l H. cbn [Nat.add parse_object] in *.
    destruct (skip_ws l) as [|c r]; [apply IHm, H|].
    destruct (Ascii.eqb c "}"); [reflexivity|apply IHm, H].
  - intros l acc H. cbn [Nat.add parse_members] in *.
    destruct (skip_ws l) as [|c r]; [reflexivity|]. destruct (negb _); [reflexivity|].
    destruct (lex_string r []) as [[key r1]|]; [|reflexivity].
    destruct (skip_ws r1) as [|d r2]; [reflexivity|]. destruct (negb _); [reflexivity|].
    destruct (parse_value f r2) as [v r3| |] eqn:E; [|rewrite IHv by congruence; rewrite E; reflexivity|contradiction].
    rewrite IHv by congruence. rewrite E.
    destruct (skip_ws r3) as [|e r4]; [reflexivity|].
    destruct (Ascii.eqb e ","); [apply IHm, H|reflexivity].
Qed.

(** [json_parse] does not depend on its fuel: any larger amount gives the
    same result, which is therefore the result of the descent without a
    bound, and it is never [PNoFuel]. *)
Theorem json_parse_fuel (s : string) (fuel : nat) :
  let l := list_ascii_of_string s in
  (3 * List.length l + 1 <= fuel)%nat ->
  parse_value fuel l = parse_value (3 * List.length l + 1) l /\
  parse_value (3 * List.length l + 1) l <> PNoFuel.
Proof.
  intros l Hf.
  assert (Hnf : parse_value (3 * List.length l + 1) l <> PNoFuel).
  { pose proof (proj1 (parse_fuel (3 * List.length l + 1)) l (le_n _)) as H.
    intros E. rewrite E in H. exact H. }
  split; [|exact Hnf].
  replace fuel with (3 * List.length l + 1 + (fuel - (3 * List.length l + 1)))%nat by lia.
  apply (proj1 (parse_mono _ _)). exact Hnf.
Qed.
