(* ===== verification/Dom.v ===== *)
(** * The document and the selector helpers [$] and [$$] (src/script.js, lines 9-10)

    [$(sel)] is [document.querySelector(sel)] and [$$(sel)] is
    [Array.from(document.querySelectorAll(sel))]; the script also calls
    [element.querySelector], [element.matches] and [element.closest].
    The document is a forest of element nodes, each with a unique
    identity ([el_uid]), a tag name, an [id], classes and attributes.  A
    selector is kept as the data the browser parses the selector string
    into: a list of alternatives ([,]), each a chain of compound selectors
    joined by the descendant combinator, each compound a list of simple
    selectors (type, [#id], [.class], [[attr]], [[attr^=prefix]]), which
    covers every selector the script writes except [span:last-child].

    [querySelectorAll] collects the matching elements by a preorder walk
    of the tree and [querySelector] stops the walk at the first match; the
    theorems relate them to the specification of the DOM standard: the
    elements of the tree in document order ([preorder]) that match, and
    the first of them.  On a document whose identities are distinct, the
    list has no repetition, even for a selector list an element matches in
    several ways. *)

From Stdlib Require Import List String Bool.
From S2P Require Import Prelude.
Import ListNotations.


(** ** Documents *)

Record elem := {
  el_uid : nat;                            (** the node's identity *)
  el_tag : string;                         (** lower case, as selectors compare it *)
  el_id : option string;
  el_classes : list string;
  el_attrs : list (string * string)
}.

Inductive node := Node (e : elem) (children : list node).

(** [getAttribute(a)]: the first attribute of that name. *)
Definition get_attr (e : elem) (a : string) : option string :=
  match find (fun kv => String.eqb (fst kv) a) (el_attrs e) with
  | Some kv => Some (snd kv)
  | None => None
  end.

(** ** Selectors *)

Inductive simple_sel :=
| STag (t : string)
| SId (i : string)
| SClass (c : string)
| SAttr (a : string)
| SAttrPrefix (a p : string).

Inductive complex_sel :=
| Compound (cs : list simple_sel)
| Descendant (anc : complex_sel) (cs : list simple_sel).

(** A selector list [A, B, ...]. *)
Definition selector := list complex_sel.

(** [[a^=p]] with an empty [p] matches nothing. *)
Definition simple_matches (s : simple_sel) (e : elem) : bool :=
  match s with
  | STag t => String.eqb (el_tag e) t
  | SId i => match el_id e with Some j => String.eqb i j | None => false end
  | SClass c => existsb (String.eqb c) (el_classes e)
  | SAttr a => match get_attr e a with Some _ => true | None => false end
  | SAttrPrefix a p =>
      match get_attr e a with
      | Some v => negb (String.eqb p ""%string) && String.prefix p v
      | None => false
      end
  end.

Definition compound_matches (cs : list simple_sel) (e : elem) : bool :=
  forallb (fun s => simple_matches s e) cs.

(** [e], whose ancestors from the parent up are [anc], matches [c]. *)
Fixpoint complex_matches (c : complex_sel) (anc : list elem) (e : elem) : bool :=
  match c with
  | Compound cs => compound_matches cs e
  | Descendant a cs =>
      compound_matches cs e &&
      (fix some_ancestor (l : list elem) : bool :=
         match l with
         | [] => false
         | p :: l' => complex_matches a l' p || some_ancestor l'
         end) anc
  end.

(** [element.matches(sel)] *)
Definition sel_matches (s : selector) (anc : list elem) (e : elem) : bool :=
  existsb (fun c => complex_matches c anc e) s.

(** ** Queries *)

(** The matches of a subtree, by a preorder walk. *)
Fixpoint qall (s : selector) (anc : list elem) (n : node) : list elem :=
  let 'Node e ch := n in
  (if sel_matches s anc e then [e] else []) ++
  (fix walk (l : list node) : list elem :=
     match l with
     | [] => []
     | c :: l' => qall s (e :: anc) c ++ walk l'
     end) ch.

(** The first match of a subtree: the walk stops there. *)
Fixpoint qfirst (s : selector) (anc : list elem) (n : node) : option elem :=
  let 'Node e ch := n in
  if sel_matches s anc e then Some e else
  (fix walk (l : list node) : option elem :=
     match l with
     | [] => None
     | c :: l' => match qfirst s (e :: anc) c with
                  | Some x => Some x
                  | None => walk l'
                  end
     end) ch.

(** [document.querySelectorAll(sel)] and [document.querySelector(sel)]. *)
Definition querySelectorAll (s : selector) (doc : list node) : list elem :=
  flat_map (qall s []) doc.

Definition querySelector (s : selector) (doc : list node) : option elem :=
  (fix walk (l : list node) : option elem :=
     match l with
     | [] => None
     | c :: l' => match qfirst s [] c with Some x => Some x | None => walk l' end
     end) doc.

(** [$(sel)] and [$$(sel)], lines 9-10, with the default context. *)
Definition dollar (s : selector) (doc : list node) : option elem := querySelector s doc.
Definition dollars (s : selector) (doc : list node) : list elem := querySelectorAll s doc.

(** [element.querySelectorAll(sel)]: the matching descendants of the
    element, matched against the whole document. *)
Definition el_querySelectorAll (s : selector) (anc : list elem) (n : node) : list elem :=
  let 'Node e ch := n in flat_map (qall s (e :: anc)) ch.

(** [element.closest(sel)]: the element itself or its first ancestor that
    matches. *)
Fixpoint closest (s : selector) (e : elem) (anc : list elem) : option elem :=
  if sel_matches s anc e then Some e else
  match anc with
  | [] => None
  | p :: anc' => closest s p anc'
  end.

(** ** The specification: document order *)

(** Every element of a subtree with its ancestors, in document order. *)
Fixpoint preorder (anc : list elem) (n : node) : list (list elem * elem) :=
  let 'Node e ch := n in
  (anc, e) :: (fix walk (l : list node) :=
                 match l with
                 | [] => []
                 | c :: l' => preorder (e :: anc) c ++ walk l'
                 end) ch.

Definition doc_order (doc : list node) : list (list elem * elem) := flat_map (preorder []) doc.

(** The elements in document order that match [s]. *)
Definition matching (s : selector) (doc : list node) : list elem :=
  map snd (filter (fun ae => sel_matches s (fst ae) (snd ae)) (doc_order doc)).

(** A document whose elements have distinct identities. *)
Definition wf_doc (doc : list node) : Prop := NoDup (map (fun ae => el_uid (snd ae)) (doc_order doc)).

(** ** The selectors of the script *)

(** [img[data-src], .fade-in], line 318. *)
Definition lazy_selector : selector :=
  [Compound [STag "img"; SAttr "data-src"]; Compound [SClass "fade-in"]]%string.

(** [#featureGrid .feature-card], line 344. *)
Definition feature_card_selector : selector :=
  [Descendant (Compound [SId "featureGrid"]) [SClass "feature-card"]]%string.

(** [a[href^="#"]], line 362. *)
Definition anchor_selector : selector :=
  [Compound [STag "a"; SAttrPrefix "href" "#"]]%string.

(** ** Walks as list functions *)

(** Induction on a node with the hypothesis for each of its children. *)
Fixpoint node_ind2 (P : node -> Prop) (f : forall e ch, Forall P ch -> P (Node e ch)) (n : node) : P n :=
  match n with
  | Node e ch =>
      f e ch ((fix go (l : list node) : Forall P l :=
                 match l with
                 | [] => Forall_nil P
                 | c :: l' => @Forall_cons _ P c l' (node_ind2 P f c) (go l')
                 end) ch)
  end.

(** The first [Some] of [f] over a list. *)
Fixpoint first_of {A B} (f : A -> option B) (l : list A) : option B :=
  match l with
  | [] => None
  | x :: l' => match f x with Some y => Some y | None => first_of f l' end
  end.

Lemma qall_node (s : selector) (anc : list elem) (e : elem) (ch : list node) :
  qall s anc (Node e ch) = (if sel_matches s anc e then [e] else []) ++ flat_map (qall s (e :: anc)) ch.
Proof. simpl; f_equal; try (induction ch as [|c ch IH]; simpl; congruence). Qed.

Lemma qfirst_node (s : selector) (anc : list elem) (e : elem) (ch : list node) :
  qfirst s anc (Node e ch) = if sel_matches s anc e then Some e else first_of (qfirst s (e :: anc)) ch.
Proof.
  simpl. destruct (sel_matches s anc e); [reflexivity|].
  induction ch as [|c ch IH]; simpl; [reflexivity|]. rewrite IH. reflexivity.
Qed.

Lemma preorder_node (anc : list elem) (e : elem) (ch : list node) :
  preorder anc (Node e ch) = (anc, e) :: flat_map (preorder (e :: anc)) ch.
Proof. simpl; f_equal; try (induction ch as [|c ch IH]; simpl; congruence). Qed.

Lemma querySelector_first_of (s : selector) (doc : list node) :
  querySelector s doc = first_of (qfirst s []) doc.
Proof. induction doc as [|c doc IH]; simpl; [reflexivity|]. rewrite IH. reflexivity. Qed.

Lemma hd_error_app {A} (l1 l2 : list A) :
  hd_error (l1 ++ l2) = match hd_error l1 with Some x => Some x | None => hd_error l2 end.
Proof. destruct l1; reflexivity. Qed.

(** [first_of] over a list is the head of the concatenated results, when
    it is so for each element. *)
Lemma first_of_flat_map {A B} (f : A -> option B) (g : A -> list B) (l : list A) :
  Forall (fun x => f x = hd_error (g x)) l -> first_of f l = hd_error (flat_map g l).
Proof.
  induction 1 as [|x l Hx _ IH]; [reflexivity|]. simpl. rewrite hd_error_app, Hx, IH. reflexivity.
Qed.

Lemma map_filter_flat_map {A B C} (p : B -> bool) (h : B -> C) (g : A -> list B) (l : list A) :
  map h (filter p (flat_map g l)) = flat_map (fun x => map h (filter p (g x))) l.
Proof.
  induction l as [|x l IH]; [reflexivity|]. simpl. rewrite filter_app, map_app, IH. reflexivity.
Qed.

Lemma flat_map_Forall_ext {A B} (f g : A -> list B) (l : list A) :
  Forall (fun x => f x = g x) l -> flat_map f l = flat_map g l.
Proof. induction 1; simpl; congruence. Qed.

(** ** The walks meet the specification *)

Lemma qall_spec (s : selector) (n : node) (anc : list elem) :
  qall s anc n = map snd (filter (fun ae => sel_matches s (fst ae) (snd ae)) (preorder anc n)).
Proof.
  revert anc. induction n as [e ch IH] using node_ind2. intros anc.
  rewrite qall_node, preorder_node. cbn [filter fst snd].
  rewrite (flat_map_Forall_ext _
             (fun c => map snd (filter (fun ae => sel_matches s (fst ae) (snd ae)) (preorder (e :: anc) c))) ch).
  - rewrite <- map_filter_flat_map. destruct (sel_matches s anc e); reflexivity.
  - eapply Forall_impl; [|exact IH]. intros c Hc. apply Hc.
Qed.

Lemma qfirst_spec (s : selector) (n : node) (anc : list elem) :
  qfirst s anc n = hd_error (qall s anc n).
Proof.
  revert anc. induction n as [e ch IH] using node_ind2. intros anc.
  rewrite qfirst_node, qall_node. destruct (sel_matches s anc e); [reflexivity|].
  apply first_of_flat_map. eapply Forall_impl; [|exact IH]. intros c Hc. apply Hc.
Qed.

Lemma NoDup_map_filter {A B} (f : A -> B) (p : A -> bool) (l : list A) :
  NoDup (map f l) -> NoDup (map f (filter p l)).
Proof.
  induction l as [|x l IH]; simpl; [auto|]. intros Hn. inversion Hn as [|y l' Hx Hl]; subst.
  destruct (p x); simpl; [|auto]. constructor; [|auto].
  intros Hin. apply Hx. apply in_map_iff in Hin as (z & <- & Hz).
  apply in_map. apply filter_In in Hz. apply Hz.
Qed.

Lemma querySelectorAll_matching (s : selector) (doc : list node) :
  querySelectorAll s doc = matching s doc.
Proof.
  unfold querySelectorAll, matching, doc_order. rewrite map_filter_flat_map.
  apply flat_map_Forall_ext, Forall_forall. intros c _. apply qall_spec.
Qed.

(** [A B] with a compound [A]: [e] matches [B] and one of its ancestors
    matches [A]. *)
Lemma descendant_compound_matches (cs0 cs : list simple_sel) (anc : list elem) (e : elem) :
  complex_matches (Descendant (Compound cs0) cs) anc e =
  compound_matches cs e && existsb (compound_matches cs0) anc.
Proof. simpl; f_equal; try (induction anc as [|p anc IH]; simpl; congruence). Qed.

Lemma existsb_eqb_In (x : string) (l : list string) : existsb (String.eqb x) l = true <-> In x l.
Proof.
  rewrite existsb_exists. split.
  - intros (y & Hy & E). apply String.eqb_eq in E. subst. exact Hy.
  - intros H. exists x. split; [exact H|apply String.eqb_refl].
Qed.

Lemma In_matching (s : selector) (doc : list node) (e : elem) :
  In e (matching s doc) <-> exists anc, In (anc, e) (doc_order doc) /\ sel_matches s anc e = true.
Proof.
  unfold matching. rewrite in_map_iff. split.
  - intros ([anc e'] & <- & Hin). apply filter_In in Hin. exists anc. exact Hin.
  - intros (anc & Hin & Hm). exists (anc, e). split; [reflexivity|]. apply filter_In. auto.
Qed.

Lemma matching_NoDup (s : selector) (doc : list node) :
  wf_doc doc -> NoDup (map el_uid (matching s doc)).
Proof. intros Hwf. unfold matching. rewrite map_map. apply NoDup_map_filter. exact Hwf. Qed.

(** A handler that writes [f e] on each element of [$$(s)]: the writes,
    by element identity. *)
Lemma In_dollars_pairs {B} (f : elem -> B) (s : selector) (doc : list node) (u : nat) (b : B) :
  In (u, b) (map (fun e => (el_uid e, f e)) (dollars s doc)) <->
  exists anc e, In (anc, e) (doc_order doc) /\ sel_matches s anc e = true /\ el_uid e = u /\ b = f e.
Proof.
  unfold dollars. rewrite querySelectorAll_matching, in_map_iff. split.
  - intros (e & Heq & Hin). apply In_matching in Hin as (anc & Hd & Hm). injection Heq as <- <-.
    exists anc, e. auto.
  - intros (anc & e & Hd & Hm & <- & ->). exists e. split; [reflexivity|].
    apply In_matching. exists anc. auto.
Qed.

Lemma dollars_pairs_NoDup {B} (f : elem -> B) (s : selector) (doc : list node) :
  wf_doc doc -> NoDup (map fst (map (fun e => (el_uid e, f e)) (dollars s doc))).
Proof.
  intros Hwf. unfold dollars. rewrite querySelectorAll_matching, map_map. exact (matching_NoDup _ _ Hwf).
Qed.

(** The selector helpers meet the DOM's specification: [$$(sel)]
    walks the document and returns exactly the elements that match, in
    document order, and [$(sel)], whose walk stops at the first match,
    returns the first of them ([null] when there is none). *)
Theorem dollar_spec (s : selector) (doc : list node) :
  dollars s doc = matching s doc /\ dollar s doc = hd_error (dollars s doc).
Proof.
  unfold dollar, dollars. split; [apply querySelectorAll_matching|].
  rewrite querySelector_first_of. apply first_of_flat_map.
  apply Forall_forall. intros c _. apply qfirst_spec.
Qed.

(** ** A page *)

Definition mk_elem (uid : nat) (tag : string) (id : option string) (classes : list string)
    (attrs : list (string * string)) : elem :=
  {| el_uid := uid; el_tag := tag; el_id := id; el_classes := classes; el_attrs := attrs |}.

(** A body holding an image that is both lazy and fading in, and a
    fading paragraph. *)
Definition demo_doc : list node :=
  [Node (mk_elem 0 "body" None [] [])
     [Node (mk_elem 1 "img" None ["fade-in"%string] [("data-src", "hero.png")%string]) [];
      Node (mk_elem 2 "p" (Some "intro"%string) ["fade-in"%string] []) []]]%string.

Example lazy_query_demo : map el_uid (dollars lazy_selector demo_doc) = [1; 2].
Proof. reflexivity. Qed.
