(* ===== verification/Frames.v ===== *)
(** * The animation-frame loop

    Every animation of the script has the shape

    << const step = (time) => { ...write...; if (progress < 1) requestAnimationFrame(step); };
       requestAnimationFrame(step); >>

    The browser calls the pending callback once per frame with the frame's
    timestamp.  A run of such a loop is modelled over an explicit timeline:
    the list of timestamps of the frames that follow the first
    [requestAnimationFrame] call.  [raf_run] threads the callback's state
    (the [startTime] of [animateValue]) and returns the values written, one
    per frame, and whether a frame is still requested after the timeline.
    The lemmas characterise the writes as the callback applied to the
    timeline up to the first frame that does not re-request, and give
    termination of the loop once that frame is in the timeline. *)

From Stdlib Require Import ZArith QArith Lqa Lia List.
From S2P Require Import Prelude.
Import ListNotations.

#[local] Open Scope Q_scope.

Section Loop.
Context {S A : Type}.

  (** The callback: from its state and the frame time, its new state, the
      value it writes and whether it calls [requestAnimationFrame] again. *)
Variable step : S -> Q -> S * A * bool.

Fixpoint raf_run (s : S) (ts : list Q) : list A * bool :=
    match ts with
    | [] => ([], true)
    | t :: ts' =>
        let '(s', a, again) := step s t in
        if again then let '(ws, pending) := raf_run s' ts' in (a :: ws, pending)
        else ([a], false)
    end.

Lemma raf_run_length (s : S) (ts : list Q) : (length (fst (raf_run s ts)) <= length ts)%nat.
  Proof.
    revert s. induction ts as [|t ts IH]; intros s; simpl; [lia|].
    destruct (step s t) as [[s' a] []]; simpl; [|lia].
    specialize (IH s'). destruct (raf_run s' ts); simpl in *. lia.
  Qed.

  (** A loop that has stopped wrote at most one value per frame and at
      least one. *)
Lemma raf_run_stopped_nonempty (s : S) (ts : list Q) :
    snd (raf_run s ts) = false -> fst (raf_run s ts) <> [].
  Proof.
    revert s. induction ts as [|t ts IH]; intros s; simpl; [discriminate|].
    destruct (step s t) as [[s' a] []]; simpl; [|congruence].
    destruct (raf_run s' ts); simpl. congruence.
  Qed.
End Loop.

(** ** Stateless callbacks

    [animateNumber] and [animateBar] read their start time once, before
    the loop; their callback is a function of the frame time only. *)

Section Stateless.
Context {A : Type}.
Variable frame : Q -> A * bool.

Definition lift_step (_ : unit) (t : Q) : unit * A * bool :=
    let '(a, again) := frame t in (tt, a, again).

Definition raf_run0 (ts : list Q) : list A * bool := raf_run lift_step tt ts.

  (** The frames the loop runs: the timeline up to and including the
      first frame that does not re-request. *)
Fixpoint frames_run (ts : list Q) : list Q :=
    match ts with
    | [] => []
    | t :: ts' => if snd (frame t) then t :: frames_run ts' else [t]
    end.

Definition stops_within (ts : list Q) : bool :=
    existsb (fun t => negb (snd (frame t))) ts.

  (** The writes are the callback's values at the frames the loop runs,
      and the loop is pending exactly when no frame of the timeline
      stopped it. *)
Lemma raf_run0_spec (ts : list Q) :
    raf_run0 ts = (map (fun t => fst (frame t)) (frames_run ts), negb (stops_within ts)).
  Proof.
    unfold raf_run0. induction ts as [|t ts IH]; [reflexivity|].
    simpl. unfold lift_step at 1. destruct (frame t) as [a again] eqn:E.
    destruct again; simpl.
    - fold lift_step. rewrite IH, E. reflexivity.
    - rewrite E. reflexivity.
  Qed.

Lemma frames_run_prefix (ts : list Q) : exists rest, ts = frames_run ts ++ rest.
  Proof.
    induction ts as [|t ts [rest IH]]; [exists []; reflexivity|]. simpl.
    destruct (snd (frame t)).
    - exists rest. simpl. f_equal. exact IH.
    - exists ts. reflexivity.
  Qed.

Lemma frames_run_nondecreasing (ts : list Q) :
    nondecreasing ts -> nondecreasing (frames_run ts).
  Proof.
    destruct (frames_run_prefix ts) as [rest E]. rewrite E at 1.
    apply nondecreasing_app_l.
  Qed.

Lemma frames_run_nil (ts : list Q) : frames_run ts = [] -> ts = [].
  Proof. destruct ts as [|t ts]; simpl; [auto|]. destruct (snd (frame t)); discriminate. Qed.

Lemma frames_run_incl (ts : list Q) (t : Q) : In t (frames_run ts) -> In t ts.
  Proof.
    destruct (frames_run_prefix ts) as [rest E]. intros H.
    rewrite E. apply in_or_app. left. exact H.
  Qed.

  (** Termination: once the timeline holds a frame that does not
      re-request, the loop is over, and its last write is the value of the
      first such frame. *)
Lemma raf_run0_last (ts : list Q) (t : Q) :
    In t ts -> snd (frame t) = false ->
    exists t1, In t1 ts /\ snd (frame t1) = false /\
      raf_run0 ts = (map (fun u => fst (frame u)) (frames_run ts), false) /\
      last (frames_run ts) t = t1.
  Proof.
    intros Hin Hstop. rewrite raf_run0_spec.
    induction ts as [|u ts IH]; [contradiction|]. simpl.
    destruct (snd (frame u)) eqn:Hu; simpl.
    - destruct Hin as [<-|Hin]; [congruence|].
      destruct (IH Hin) as [t1 (Ht1 & Hs1 & Hrun & Hlast)].
      injection Hrun as Hp. exists t1. split; [right; exact Ht1|]. split; [exact Hs1|].
      rewrite Hp. split; [reflexivity|].
      destruct (frames_run ts) eqn:F; [|exact Hlast].
      apply frames_run_nil in F. subst. contradiction.
    - exists u. repeat split; simpl; auto.
  Qed.
End Stateless.

(** Every value a loop writes is a value its callback returns. *)
Lemma raf_run_forall {S A} (step : S -> Q -> S * A * bool) (P : A -> Prop) (s : S) (ts : list Q) :
  (forall s t, P (snd (fst (step s t)))) -> Forall P (fst (raf_run step s ts)).
Proof.
  intros HP. revert s. induction ts as [|t ts IH]; intros s; simpl; [constructor|].
  pose proof (HP s t) as Ht. destruct (step s t) as [[s' a] []]; simpl in *.
  - specialize (IH s'). destruct (raf_run step s' ts); simpl in *. constructor; assumption.
  - constructor; [exact Ht|constructor].
Qed.

(** A loop whose state no longer changes runs like a stateless one. *)
Lemma raf_run_const_state {S A} (step : S -> Q -> S * A * bool) (s : S) (ts : list Q) :
  (forall t, fst (fst (step s t)) = s) ->
  raf_run step s ts = raf_run0 (fun t => (snd (fst (step s t)), snd (step s t))) ts.
Proof.
  intros Hs. unfold raf_run0. induction ts as [|t ts IH]; [reflexivity|]. simpl.
  unfold lift_step at 1. specialize (Hs t).
  destruct (step s t) as [[s' a] []]; simpl in *; subst s'; [|reflexivity].
  rewrite IH. reflexivity.
Qed.

(** A loop that stops at every frame where another stops runs no more
    frames than the other. *)
Lemma frames_run_length_le {A B} (f : Q -> A * bool) (g : Q -> B * bool) (ts : list Q) :
  (forall t, snd (g t) = false -> snd (f t) = false) ->
  (length (frames_run f ts) <= length (frames_run g ts))%nat.
Proof.
  intros Hfg. induction ts as [|t ts IH]; simpl; [lia|].
  destruct (snd (g t)) eqn:G.
  - destruct (snd (f t)); simpl; lia.
  - rewrite (Hfg t G). simpl. lia.
Qed.

(** Two callbacks with the same stop test run the same frames. *)
Lemma frames_run_ext {A B} (f : Q -> A * bool) (g : Q -> B * bool) (ts : list Q) :
  (forall t, snd (f t) = snd (g t)) -> frames_run f ts = frames_run g ts.
Proof.
  intros Hfg. induction ts as [|t ts IH]; simpl; [reflexivity|].
  rewrite Hfg. destruct (snd (g t)); [rewrite IH|]; reflexivity.
Qed.

Lemma stops_within_ext {A B} (f : Q -> A * bool) (g : Q -> B * bool) (ts : list Q) :
  (forall t, snd (f t) = snd (g t)) -> stops_within f ts = stops_within g ts.
Proof. intros Hfg. induction ts as [|t ts IH]; simpl; [reflexivity|]. rewrite Hfg, IH. reflexivity. Qed.

(** A frame of index [k] that does not re-request ends the loop: it runs
    at most [k + 1] frames and is not pending. *)
Lemma frames_run_stop_at {A} (f : Q -> A * bool) (ts : list Q) (k : nat) (t : Q) :
  nth_error ts k = Some t -> snd (f t) = false ->
  (length (frames_run f ts) <= S k)%nat /\ stops_within f ts = true.
Proof.
  revert k. induction ts as [|u ts IH]; intros [|k] Hk Hs; try discriminate; simpl in *.
  - injection Hk as ->. rewrite Hs. simpl. split; [lia|reflexivity].
  - destruct (IH k Hk Hs) as [Hl Hw]. rewrite Hw, orb_true_r.
    destruct (snd (f u)); simpl; split; auto; lia.
Qed.

(** A timeline whose frames are at least [delta] apart, as on a display
    refreshing every [delta] ms. *)
Fixpoint spaced (delta : Q) (ts : list Q) : Prop :=
  match ts with
  | t :: (u :: _) as ts' => t + delta <= u /\ spaced delta ts'
  | _ => True
  end.

Lemma spaced_nth (delta t0 t : Q) (ts : list Q) (k : nat) :
  0 <= delta -> spaced delta (t0 :: ts) -> nth_error ts k = Some t ->
  t0 + inject_Z (Z.of_nat (S k)) * delta <= t.
Proof.
  intros Hd. revert t0 k. induction ts as [|u ts IH]; intros t0 [|k] Hsp Hk; try discriminate.
  - injection Hk as ->. destruct Hsp as [H _]. change (inject_Z (Z.of_nat 1)) with 1. lra.
  - destruct Hsp as [H Hsp]. specialize (IH u k Hsp Hk).
    rewrite (Nat2Z.inj_succ (S k)), <- Z.add_1_r, inject_Z_plus. change (inject_Z 1) with 1. lra.
Qed.

#[export] Hint Resolve frames_run_nondecreasing frames_run_incl : js.
