(* ===== verification/Skills.v ===== *)
(** * The skill-progress bars (src/script.js, lines 387-471)

    The last IIFE of the script animates each skill bar once, when its
    container first becomes visible: the fill's width eases from 0% to the
    percentage in its [data-width] attribute, and the percent label beside
    it counts up over the same duration.  The specification calls this
    component the RevealAnimator.

    - [parsePercent], [skill_duration]: the target and the duration
      [clamp(pct * 12, 600, 1200)] (lines 400-403, 447);
    - [number_frame]/[animateNumber], [bar_frame]/[animateBar]: the two
      frame loops (lines 406-431), run by [Frames.raf_run0];
    - [on_entry], [observer_callback], [deliver]: the intersection-observer
      callback (lines 434-457) on an explicit observer state (the set of
      observed containers, the animations started, the number of
      [performance.now()] readings taken), and the browser's delivery of a
      batch of entries to it;
    - [skills_init]: the whole IIFE: the reduced-motion bypass (lines
      389-397) or the initialisation of labels and fills and the
      [observe] calls (lines 460-469).

    The theorems: the duration bounds; the bar's and the label's last
    writes; the bar's loop refines the interpolation contract of the
    specification ([interpolation]); animate-once across batches; the
    label can finish a frame after the bar, and started together on a
    target within [0, 100] it shows [Math.round] of the bar's width at
    every frame (equivalence of the two loops); and the divergences from
    the specification (reduced motion, unclamped labels, negative
    progress). *)

From Stdlib Require Import QArith Qround Qminmax Lqa Lia ZArith List String Ascii Bool.
From stdpp Require Import gmap.
From S2P Require Import Prelude JsNum JsString Frames.
Import ListNotations.

#[local] Open Scope Q_scope.

(** ** Targets and durations *)

(** [parsePercent(p)], lines 400-403: [Number(String(p).trim().replace('%',''))
    || 0]; the empty string is falsy and gives 0. *)
Definition parsePercent (p : string) : num :=
  if String.eqb p "" then Fin 0
  else num_or (string_to_number (remove_first "%"%char (trim p))) (Fin 0).

(** [Math.max(600, Math.min(1200, pct * 12))], line 447. *)
Definition skill_duration (pct : num) : num :=
  num_max (Fin 600) (num_min (Fin 1200) (num_mul pct (Fin 12))).

(** [bar.dataset.width || '0%'], line 444 (and line 393). *)
Definition data_width_or_default (w : option string) : string :=
  match w with
  | Some s => if String.eqb s "" then "0%" else s
  | None => "0%"
  end.

(** ** The two frame loops *)

(** [Math.min((time - startTime) / duration, 1)], lines 410 and 425. *)
Definition progress_at (startTime : Q) (duration : num) (time : Q) : num :=
  num_min (num_div (num_sub (Fin time) (Fin startTime)) duration) (Fin 1).

(** [1 - Math.pow(1 - progress, 3)], lines 411 and 426. *)
Definition ease_out_cubic (p : num) : num :=
  num_sub (Fin 1) (num_cube (num_sub (Fin 1) p)).

(** One frame of [animateNumber] (lines 409-415): the rounded value the
    label shows (followed by ['%']) and whether a frame is re-requested. *)
Definition number_frame (target duration : num) (startTime time : Q) : num * bool :=
  let progress := progress_at startTime duration time in
  let eased := ease_out_cubic progress in
  let value := num_round (num_add (Fin 0) (num_mul (num_sub target (Fin 0)) eased)) in
  (value, num_lt progress (Fin 1)).

(** [animateNumber(el, target, duration)], lines 406-417, started at
    [startTime = performance.now()] and run over the timeline [ts]. *)
Definition animateNumber (target duration : num) (startTime : Q) (ts : list Q)
  : list num * bool :=
  raf_run0 (number_frame target duration startTime) ts.

(** [Math.max(0, Math.min(100, targetPercent))], line 421. *)
Definition bar_target (targetPercent : num) : num :=
  num_max (Fin 0) (num_min (Fin 100) targetPercent).

(** One frame of [animateBar] (lines 424-429): the width in percent. *)
Definition bar_frame (target duration : num) (startTime time : Q) : num * bool :=
  let progress := progress_at startTime duration time in
  let eased := ease_out_cubic progress in
  (num_mul target eased, num_lt progress (Fin 1)).

(** [animateBar(el, targetPercent, duration)], lines 420-431: the width is
    set to 0% at once, then once per frame. *)
Definition animateBar (targetPercent duration : num) (startTime : Q) (ts : list Q)
  : list num * bool :=
  let target := bar_target targetPercent in
  let '(ws, pending) := raf_run0 (bar_frame target duration startTime) ts in
  (Fin 0 :: ws, pending).

(** ** The page and the observer *)

(** A [.progress-bg] container: its [.progress-fill] child with the
    fill's [data-width] attribute, and whether the previous sibling has a
    [span:last-child] percent label. *)
Record fill := { data_width : option string }.
Record container := { c_fill : option fill; c_label : bool }.

(** An animation the callback starts: on which container, with which
    target and duration, and at which [performance.now()] reading. *)
Inductive anim :=
| BarAnim (c : nat) (targetPercent duration : num) (start : Q)
| NumberAnim (c : nat) (target duration : num) (start : Q).

Definition anim_container (a : anim) : nat :=
  match a with BarAnim c _ _ _ | NumberAnim c _ _ _ => c end.

Record observer_state := {
  observed : gset nat;
  anims : list anim;
  clock : nat
}.

Definition unobserve (c : nat) (st : observer_state) : observer_state :=
  {| observed := observed st ∖ {[ c ]}; anims := anims st; clock := clock st |}.

Definition start_anim (now : nat -> Q) (mk : Q -> anim) (st : observer_state)
  : observer_state :=
  {| observed := observed st; anims := anims st ++ [mk (now (clock st))];
     clock := S (clock st) |}.

Section Callback.
  (** The page's containers, by index, and the successive values of
      [performance.now()]. *)
Variable doc : list container.
Variable now : nat -> Q.

  (** The body of [entries.forEach], lines 435-456. *)
Definition on_entry (st : observer_state) (e : nat * bool) : observer_state :=
    let '(c, isIntersecting) := e in
    if negb isIntersecting then st else
    match nth_error doc c with
    | None => st
    | Some cont =>
        let st1 :=
          match c_fill cont with
          | None => st
          | Some f =>
              let pct := parsePercent (data_width_or_default (data_width f)) in
              let duration := skill_duration pct in
              let st' := start_anim now (BarAnim c pct duration) st in
              if c_label cont then start_anim now (NumberAnim c pct duration) st' else st'
          end in
        unobserve c st1
    end.

Definition observer_callback (st : observer_state) (entries : list (nat * bool))
    : observer_state :=
    fold_left on_entry entries st.

  (** The browser delivers to the callback the entries of the containers
      observed when the batch is taken. *)
Definition deliver (st : observer_state) (batch : list (nat * bool)) : observer_state :=
    observer_callback st (List.filter (fun e => bool_decide (e.1 ∈ observed st)) batch).

Definition deliver_all (st : observer_state) (batches : list (list (nat * bool)))
    : observer_state :=
    fold_left deliver batches st.
End Callback.

(** ** The IIFE *)

Inductive width := WRaw (s : string) | WPct (n : num).

(** The writes the IIFE makes before any animation: a width on a fill, a
    number (followed by ['%']) on a label. *)
Inductive skills_write :=
| SetWidth (c : nat) (w : width)
| SetLabel (c : nat) (v : num).

(** Reduced motion, lines 392-395, on the containers' fills: each gets its
    raw [data-width].  The code selects every [.progress-fill] of the
    document, also one outside a [.progress-bg]; [Page.ReducedPage]
    models that query over the document. *)
Definition reduced_writes (doc : list container) : list skills_write :=
  flat_map (fun '(c, cont) =>
              match c_fill cont with
              | Some f => [SetWidth c (WRaw (data_width_or_default (data_width f)))]
              | None => []
              end) (combine (seq 0 (length doc)) doc).

(** Lines 460-469: the label shows 0%, the fill is 0% wide, and the
    container is observed. *)
Definition init_writes (doc : list container) : list skills_write :=
  flat_map (fun '(c, cont) =>
              (if c_label cont then [SetLabel c (Fin 0)] else []) ++
              match c_fill cont with
              | Some _ => [SetWidth c (WPct (Fin 0))]
              | None => []
              end) (combine (seq 0 (length doc)) doc).

Definition skills_init (reduced : bool) (doc : list container)
  : list skills_write * option observer_state :=
  if reduced then (reduced_writes doc, None)
  else (init_writes doc,
        Some {| observed := list_to_set (seq 0 (length doc)); anims := []; clock := 0 |}).

(** ** The animator contract of the specification

    Section 4.1 of the specification: a run of one target is a monotone
    interpolation from 0 to the target, and when the loop ends the exact
    target is written.  [interpolation target ws pending] states it of the
    values [ws] a run wrote and whether a frame is still pending. *)
Record interpolation (target : Q) (ws : list Q) (pending : bool) : Prop := {
  interp_from_zero : hd_error ws = Some 0;
  interp_monotone : nondecreasing ws;
  interp_bounded : Forall (fun w => 0 <= w <= target) ws;
  interp_exact_end : pending = false -> List.last ws 0 == target
}.

(** ** The loops on finite values

    With a finite positive duration, the progress and the eased value are
    rational functions of the frame time. *)

Definition progress_q (t0 d t : Q) : Q := Qmin ((t - t0) / d) 1.
Definition ease_q (p : Q) : Q := 1 - (1 - p) * (1 - p) * (1 - p).

Lemma progress_at_fin (t0 d t : Q) :
  ~ d == 0 -> progress_at t0 (Fin d) t = Fin (progress_q t0 d t).
Proof.
  intros Hd. unfold progress_at. rewrite num_sub_fin, (num_div_fin _ _ Hd).
  apply num_min_fin.
Qed.

Lemma num_lt_fin_bool (x y : Q) : num_lt (Fin x) (Fin y) = negb (Qle_bool y x).
Proof.
  destruct (Qle_bool y x) eqn:E; simpl.
  - apply num_lt_fin_false. apply Qle_bool_iff. exact E.
  - apply num_lt_fin. apply Qle_bool_false. exact E.
Qed.

Lemma bar_frame_fin (T d t0 t : Q) :
  ~ d == 0 ->
  bar_frame (Fin T) (Fin d) t0 t =
  (Fin (T * ease_q (progress_q t0 d t)), negb (Qle_bool 1 (progress_q t0 d t))).
Proof.
  intros Hd. unfold bar_frame. rewrite (progress_at_fin _ _ _ Hd), num_lt_fin_bool.
  reflexivity.
Qed.

Lemma number_frame_fin (p d t0 t : Q) :
  ~ d == 0 ->
  number_frame (Fin p) (Fin d) t0 t =
  (of_Z (Qfloor (0 + (p - 0) * ease_q (progress_q t0 d t) + (1 # 2))),
   negb (Qle_bool 1 (progress_q t0 d t))).
Proof.
  intros Hd. unfold number_frame. rewrite (progress_at_fin _ _ _ Hd), num_lt_fin_bool.
  reflexivity.
Qed.

Section Progress.
Variables t0 d : Q.
Hypothesis Hd : 0 < d.

Lemma progress_q_le_1 (t : Q) : progress_q t0 d t <= 1.
  Proof. apply Q.le_min_r. Qed.

Lemma progress_q_nonneg (t : Q) : t0 <= t -> 0 <= progress_q t0 d t.
  Proof.
    intros Ht. apply Q.min_glb; [|lra].
    apply Qle_shift_div_l; [exact Hd|]. lra.
  Qed.

Lemma progress_q_done (t : Q) : t0 + d <= t -> progress_q t0 d t == 1.
  Proof.
    intros Ht. apply Q.min_r. apply Qle_shift_div_l; [exact Hd|]. lra.
  Qed.

Lemma progress_q_running (t : Q) : t < t0 + d -> progress_q t0 d t < 1.
  Proof.
    intros Ht. unfold progress_q. rewrite Q.min_l.
    - apply Qlt_shift_div_r; [exact Hd|]. lra.
    - apply Qlt_le_weak. apply Qlt_shift_div_r; [exact Hd|]. lra.
  Qed.

  (** A frame re-requests exactly while it precedes [t0 + d]. *)
Lemma progress_q_stop (t : Q) : Qle_bool 1 (progress_q t0 d t) = true <-> t0 + d <= t.
  Proof.
    rewrite Qle_bool_iff. split; intros H.
    - destruct (Qlt_le_dec t (t0 + d)) as [Hlt|Hle]; [|exact Hle].
      pose proof (progress_q_running t Hlt). lra.
    - rewrite (progress_q_done t H). lra.
  Qed.

Lemma progress_q_mono (t t' : Q) : t <= t' -> progress_q t0 d t <= progress_q t0 d t'.
  Proof.
    intros Ht. unfold progress_q. apply Q.min_glb; [|apply Q.le_min_r].
    eapply Qle_trans; [apply Q.le_min_l|].
    unfold Qdiv. apply Qmult_le_compat_r; [lra|].
    apply Qlt_le_weak. apply Qinv_lt_0_compat. exact Hd.
  Qed.

  (** Frames before the start time give a negative progress: the code
      clamps it above only. *)
Lemma progress_q_early (t : Q) : t < t0 -> progress_q t0 d t < 0.
  Proof.
    intros Ht. unfold progress_q. eapply Qle_lt_trans; [apply Q.le_min_l|].
    apply Qlt_shift_div_r; [exact Hd|]. lra.
  Qed.
End Progress.

Lemma ease_q_mono (p p' : Q) : p <= p' -> ease_q p <= ease_q p'.
Proof.
  intros H. unfold ease_q. pose proof (cube_le_mono (1 - p') (1 - p)). lra.
Qed.

Lemma ease_q_range (p : Q) : 0 <= p <= 1 -> 0 <= ease_q p <= 1.
Proof.
  intros [H0 H1]. unfold ease_q. pose proof (cube_unit_range (1 - p)). lra.
Qed.

Lemma ease_q_one (p : Q) : p == 1 -> ease_q p == 1.
Proof. intros H. unfold ease_q. rewrite H. reflexivity. Qed.

Lemma ease_q_negative (p : Q) : p < 0 -> ease_q p < 0.
Proof.
  intros H. unfold ease_q. pose proof (cube_le_mono 1 (1 - p)).
  assert (1 * 1 * 1 < (1 - p) * (1 - p) * (1 - p)) by nra. lra.
Qed.

#[export] Hint Resolve progress_q_le_1 progress_q_nonneg progress_q_mono ease_q_mono : js.

(** ** Targets and durations are finite *)

Lemma parsePercent_not_nan (s : string) : parsePercent s <> NaN.
Proof.
  unfold parsePercent, num_or. destruct (String.eqb s ""); [discriminate|].
  destruct (string_to_number _) eqn:E; simpl; try discriminate.
  destruct (negb _); discriminate.
Qed.

Lemma bar_target_range (pct : num) :
  pct <> NaN -> exists T, bar_target pct = Fin T /\ 0 <= T <= 100.
Proof.
  intros Hp. unfold bar_target. destruct pct as [q| | |]; [|congruence| |].
  - rewrite num_min_fin, num_max_fin. eexists. split; [reflexivity|].
    split; [apply Q.le_max_l|]. apply Q.max_lub; [lra|apply Q.le_min_l].
  - exists 100. split; [reflexivity|lra].
  - exists 0. split; [reflexivity|lra].
Qed.

Lemma skill_duration_fin (pct : num) :
  pct <> NaN -> exists d, skill_duration pct = Fin d /\ 600 <= d <= 1200.
Proof.
  intros Hp. unfold skill_duration. destruct pct as [q| | |]; [|congruence| |].
  - rewrite num_mul_fin, num_min_fin, num_max_fin. eexists. split; [reflexivity|].
    split; [apply Q.le_max_l|]. apply Q.max_lub; [lra|apply Q.le_min_l].
  - exists 1200. split; [reflexivity|lra].
  - exists 600. split; [reflexivity|lra].
Qed.

(** ** The bar loop *)

Section BarLoop.
Variables T d t0 : Q.
Hypothesis HT : 0 <= T.
Hypothesis Hd : 0 < d.

Definition bar_width_q (t : Q) : Q := T * ease_q (progress_q t0 d t).

Lemma Hd_nz : ~ d == 0.
  Proof. intros E. rewrite E in Hd. discriminate. Qed.

Lemma bar_frame_eq (t : Q) :
    bar_frame (Fin T) (Fin d) t0 t = (Fin (bar_width_q t), negb (Qle_bool 1 (progress_q t0 d t))).
  Proof. apply bar_frame_fin, Hd_nz. Qed.

Lemma bar_stops (t : Q) : snd (bar_frame (Fin T) (Fin d) t0 t) = false <-> t0 + d <= t.
  Proof.
    rewrite bar_frame_eq. simpl. rewrite <- (progress_q_stop t0 d Hd t).
    destruct (Qle_bool _ _); simpl; split; congruence.
  Qed.

Lemma bar_writes (ts : list Q) :
    raf_run0 (bar_frame (Fin T) (Fin d) t0) ts =
    (map (fun t => Fin (bar_width_q t)) (frames_run (bar_frame (Fin T) (Fin d) t0) ts),
     negb (stops_within (bar_frame (Fin T) (Fin d) t0) ts)).
  Proof.
    rewrite raf_run0_spec. f_equal. apply map_ext. intros t. rewrite bar_frame_eq. reflexivity.
  Qed.

Lemma bar_width_mono (t t' : Q) : t <= t' -> bar_width_q t <= bar_width_q t'.
  Proof.
    intros H. unfold bar_width_q. apply Qmult_le_compat_l; [|exact HT].
    apply ease_q_mono. apply progress_q_mono; assumption.
  Qed.

Lemma bar_width_range (t : Q) : t0 <= t -> 0 <= bar_width_q t <= T.
  Proof.
    intros H. unfold bar_width_q.
    destruct (ease_q_range (progress_q t0 d t)) as [E0 E1].
    { split; [apply progress_q_nonneg|apply progress_q_le_1]; assumption. }
    split; [apply Qmult_le_0_compat; assumption|].
    rewrite <- (Qmult_1_r T) at 2. apply Qmult_le_compat_l; assumption.
  Qed.

Lemma bar_width_done (t : Q) : t0 + d <= t -> bar_width_q t == T.
  Proof.
    intros H. unfold bar_width_q. rewrite (ease_q_one _ (progress_q_done t0 d Hd t H)).
    apply Qmult_1_r.
  Qed.

  (** The loop's last write, once a frame at or after [t0 + d] is in the
      timeline. *)
Lemma bar_last (ts : list Q) (t : Q) :
    In t ts -> t0 + d <= t ->
    snd (raf_run0 (bar_frame (Fin T) (Fin d) t0) ts) = false /\
    exists t1, In t1 ts /\ t0 + d <= t1 /\
      List.last (fst (raf_run0 (bar_frame (Fin T) (Fin d) t0) ts)) (Fin 0) = Fin (bar_width_q t1).
  Proof.
    intros Hin Ht. apply bar_stops in Ht.
    destruct (raf_run0_last _ ts t Hin Ht) as [t1 (Hin1 & Hs1 & Hrun & Hlast)].
    rewrite Hrun. split; [reflexivity|]. exists t1. split; [exact Hin1|].
    split; [apply bar_stops; exact Hs1|]. simpl.
    rewrite bar_writes in Hrun. injection Hrun as Hw _. rewrite <- Hw.
    rewrite (last_map_nonempty _ _ t); [rewrite Hlast; reflexivity|].
    intros F. apply frames_run_nil in F. subst. contradiction.
  Qed.
End BarLoop.

(** [animateBar] on a finite target and a positive finite duration. *)
Lemma animateBar_writes (pct : num) (T d t0 : Q) (ts : list Q) :
  bar_target pct = Fin T -> 0 < d ->
  animateBar pct (Fin d) t0 ts =
  (map Fin (0 :: map (bar_width_q T d t0) (frames_run (bar_frame (Fin T) (Fin d) t0) ts)),
   negb (stops_within (bar_frame (Fin T) (Fin d) t0) ts)).
Proof.
  intros ET Hd. unfold animateBar. rewrite ET, (bar_writes T d t0 Hd ts).
  simpl. rewrite map_map. reflexivity.
Qed.

(** The last value of a bar run whose timeline reaches [t0 + d]. *)
Lemma bar_run_last (T d t0 t : Q) (ts : list Q) :
  0 <= T -> 0 < d -> In t ts -> t0 + d <= t ->
  negb (stops_within (bar_frame (Fin T) (Fin d) t0) ts) = false /\
  List.last (0 :: map (bar_width_q T d t0) (frames_run (bar_frame (Fin T) (Fin d) t0) ts)) 0 == T.
Proof.
  intros HT Hd Hin Ht. apply (bar_stops T d t0 Hd) in Ht.
  destruct (raf_run0_last _ ts t Hin Ht) as [t1 (_ & Hs1 & Hrun & Hlast)].
  rewrite raf_run0_spec in Hrun. injection Hrun as Hp. split; [exact Hp|].
  rewrite last_cons_nonempty.
  - rewrite (last_map_nonempty _ _ t).
    + rewrite Hlast. apply bar_width_done; [exact Hd|]. apply (bar_stops T d t0 Hd). exact Hs1.
    + intros F. apply frames_run_nil in F. subst. contradiction.
  - intros F. apply map_eq_nil, frames_run_nil in F. subst. contradiction.
Qed.

(** Every frame of a bar run after the start lies in [0, T]. *)
Lemma bar_run_bounded (T d t0 : Q) (ts : list Q) :
  0 <= T -> 0 < d -> Forall (fun t => t0 <= t) ts ->
  Forall (fun w => 0 <= w <= T)
    (0 :: map (bar_width_q T d t0) (frames_run (bar_frame (Fin T) (Fin d) t0) ts)).
Proof.
  intros HT Hd Hts. constructor; [lra|]. apply Forall_map, List.Forall_forall.
  intros t Ht. apply bar_width_range; [exact HT|exact Hd|].
  rewrite List.Forall_forall in Hts. apply Hts. eapply frames_run_incl. exact Ht.
Qed.

(** The stop test of both loops depends on the progress only. *)
Lemma frame_again_progress (x y : num) (D : num) (t0 t : Q) :
  snd (bar_frame x D t0 t) = snd (number_frame y D t0 t).
Proof. reflexivity. Qed.

(** ** Theorems *)

(** C1. Completion (liveness and exactness): a skill bar whose timeline
    has a frame at least 1200 ms after the animation started has stopped
    requesting frames, and its last width is exactly the clamped target
    [max(0, min(100, parsePercent(data-width)))], whatever the attribute
    holds. *)
Theorem animateBar_completes (s : string) (t0 t : Q) (ts : list Q) :
  In t ts -> t0 + 1200 <= t ->
  snd (animateBar (parsePercent s) (skill_duration (parsePercent s)) t0 ts) = false /\
  num_eqv (List.last (fst (animateBar (parsePercent s) (skill_duration (parsePercent s)) t0 ts))
             (Fin 0))
          (bar_target (parsePercent s)).
Proof.
  intros Hin Ht.
  destruct (bar_target_range _ (parsePercent_not_nan s)) as [T [ET HT]].
  destruct (skill_duration_fin _ (parsePercent_not_nan s)) as [d [Ed Hd]].
  rewrite Ed, (animateBar_writes _ T d t0 ts ET ltac:(lra)), ET. cbn [fst snd].
  destruct (bar_run_last T d t0 t ts ltac:(lra) ltac:(lra) Hin ltac:(lra)) as [Hp Hl].
  split; [exact Hp|]. rewrite (last_map Fin _ 0). exact Hl.
Qed.

(** C2. Refinement: on a nondecreasing timeline whose frames follow the
    start time, the widths a bar run writes are an [interpolation] of the
    specification's contract: they start at 0, never decrease, stay in
    [0, target], and end exactly on the target when the loop stops. *)
Theorem animateBar_refines (s : string) (t0 : Q) (ts : list Q) :
  nondecreasing ts -> Forall (fun t => t0 <= t) ts ->
  exists T ws,
    bar_target (parsePercent s) = Fin T /\
    fst (animateBar (parsePercent s) (skill_duration (parsePercent s)) t0 ts) = map Fin ws /\
    interpolation T ws (snd (animateBar (parsePercent s) (skill_duration (parsePercent s)) t0 ts)).
Proof.
  intros Hmono Hafter.
  destruct (bar_target_range _ (parsePercent_not_nan s)) as [T [ET HT]].
  destruct (skill_duration_fin _ (parsePercent_not_nan s)) as [d [Ed Hd]].
  rewrite Ed, (animateBar_writes _ T d t0 ts ET ltac:(lra)).
  set (fr := frames_run (bar_frame (Fin T) (Fin d) t0) ts).
  exists T, (0 :: map (bar_width_q T d t0) fr). split; [exact ET|]. split; [reflexivity|].
  pose proof (bar_run_bounded T d t0 ts ltac:(lra) ltac:(lra) Hafter) as Hb.
  split; [reflexivity| | exact Hb |].
  - apply nondecreasing_cons.
    + inversion Hb; subst. eapply Forall_impl; [eassumption|]. intros w Hw. simpl in Hw. lra.
    + apply nondecreasing_map; [apply bar_width_mono; lra|].
      apply frames_run_nondecreasing. exact Hmono.
  - simpl. intros Hstop. apply negb_false_iff, existsb_exists in Hstop.
    destruct Hstop as [t [Hin Ht]]. apply negb_true_iff, (bar_stops T d t0 ltac:(lra)) in Ht.
    apply (bar_run_last T d t0 t ts ltac:(lra) ltac:(lra) Hin Ht).
Qed.

(** C3. Bounds: for every [data-width] attribute, [parsePercent] never
    yields NaN and the duration [max(600, min(1200, pct * 12))] is a finite
    number of milliseconds in [600, 1200] (infinite percentages
    included). *)
Theorem skill_duration_range (s : string) :
  exists d, skill_duration (parsePercent s) = Fin d /\ 600 <= d <= 1200.
Proof. apply skill_duration_fin, parsePercent_not_nan. Qed.

(** ** The observer *)

(** Decidable equality of the observer's data, for [decide]. *)
#[export] Instance Q_eq_dec : EqDecision Q.
Proof.
  intros [n d] [n' d'].
  destruct (decide (n = n')), (decide (d = d')); [left; congruence|right; congruence..].
Defined.
#[export] Instance num_eq_dec : EqDecision num.
Proof. solve_decision. Defined.
#[export] Instance anim_eq_dec : EqDecision anim.
Proof. solve_decision. Defined.

(** The animations started on container [c]. *)
Definition anims_for (c : nat) (st : observer_state) : list anim :=
  List.filter (fun a => Nat.eqb (anim_container a) c) (anims st).

Lemma start_anim_other (now : nat -> Q) (mk : Q -> anim) (st : observer_state) (c : nat) :
  (forall t, anim_container (mk t) <> c) ->
  anims_for c (start_anim now mk st) = anims_for c st.
Proof.
  intros Hmk. unfold anims_for, start_anim. simpl. rewrite List.filter_app. simpl.
  destruct (Nat.eqb_spec (anim_container (mk (now (clock st)))) c) as [E|_].
  - exfalso. eapply Hmk. exact E.
  - apply app_nil_r.
Qed.

Lemma anims_for_unobserve (c c' : nat) (st : observer_state) :
  anims_for c (unobserve c' st) = anims_for c st.
Proof. reflexivity. Qed.

Section ObserverLemmas.
Variable doc : list container.
Variable now : nat -> Q.

Lemma on_entry_observed_sub (st : observer_state) (e : nat * bool) :
    observed (on_entry doc now st e) ⊆ observed st.
  Proof.
    destruct e as [c []]; simpl; [|set_solver].
    destruct (nth_error doc c) as [cont|]; [|set_solver].
    destruct (c_fill cont); [destruct (c_label cont)|]; simpl; set_solver.
  Qed.

Lemma on_entry_other (st : observer_state) (e : nat * bool) (c : nat) :
    e.1 <> c -> anims_for c (on_entry doc now st e) = anims_for c st.
  Proof.
    destruct e as [c' []]; simpl; intros Hne; [|reflexivity].
    destruct (nth_error doc c') as [cont|]; [|reflexivity].
    destruct (c_fill cont); [|reflexivity].
    rewrite anims_for_unobserve.
    destruct (c_label cont);
      repeat (rewrite start_anim_other; [|intros t; simpl; congruence]); reflexivity.
  Qed.

  (** An entry that starts an animation on its container unobserves it. *)
Lemma on_entry_unobserves (st : observer_state) (e : nat * bool) :
    anims_for e.1 (on_entry doc now st e) <> anims_for e.1 st ->
    e.1 ∉ observed (on_entry doc now st e).
  Proof.
    destruct e as [c []]; simpl; [|congruence].
    destruct (nth_error doc c) as [cont|]; [|congruence].
    intros _. unfold unobserve. simpl. set_solver.
  Qed.

Lemma callback_observed_sub (st : observer_state) (es : list (nat * bool)) :
    observed (observer_callback doc now st es) ⊆ observed st.
  Proof.
    unfold observer_callback. revert st. induction es as [|e es IH]; intros st; simpl; [done|].
    etransitivity; [apply IH|apply on_entry_observed_sub].
  Qed.

Lemma callback_no_entry (st : observer_state) (es : list (nat * bool)) (c : nat) :
    Forall (fun e => e.1 <> c) es ->
    anims_for c (observer_callback doc now st es) = anims_for c st.
  Proof.
    unfold observer_callback. revert st. induction es as [|e es IH]; intros st Hes; simpl; [done|].
    inversion Hes; subst. rewrite IH by assumption. apply on_entry_other. assumption.
  Qed.

Lemma callback_animated_unobserved (st : observer_state) (es : list (nat * bool)) (c : nat) :
    anims_for c (observer_callback doc now st es) <> anims_for c st ->
    c ∉ observed (observer_callback doc now st es).
  Proof.
    unfold observer_callback. revert st. induction es as [|e es IH]; intros st H; simpl in *; [done|].
    destruct (decide (anims_for c (on_entry doc now st e) = anims_for c st)) as [E|E].
    - apply IH. rewrite E. exact H.
    - assert (Hc : e.1 = c).
      { destruct (decide (e.1 = c)); [assumption|]. exfalso. apply E, on_entry_other. assumption. }
      subst c. intros Hin. apply (on_entry_unobserves st e E).
      apply (callback_observed_sub (on_entry doc now st e) es). exact Hin.
  Qed.

Lemma deliver_observed_sub (st : observer_state) (b : list (nat * bool)) :
    observed (deliver doc now st b) ⊆ observed st.
  Proof. apply callback_observed_sub. Qed.

  (** The browser delivers no entry of an unobserved container. *)
Lemma deliver_unobserved (st : observer_state) (b : list (nat * bool)) (c : nat) :
    c ∉ observed st -> anims_for c (deliver doc now st b) = anims_for c st.
  Proof.
    intros Hc. apply callback_no_entry. apply List.Forall_forall.
    intros e He E. apply filter_In in He as [_ He]. apply bool_decide_eq_true in He.
    subst c. contradiction.
  Qed.

Lemma deliver_all_unobserved (st : observer_state) (bs : list (list (nat * bool))) (c : nat) :
    c ∉ observed st -> anims_for c (deliver_all doc now st bs) = anims_for c st.
  Proof.
    unfold deliver_all. revert st. induction bs as [|b bs IH]; intros st Hc; simpl; [done|].
    rewrite IH.
    - apply deliver_unobserved. exact Hc.
    - intros Hin. apply Hc. apply (deliver_observed_sub st b). exact Hin.
  Qed.
End ObserverLemmas.

(** C4. Animate once: once a batch of entries has started an animation
    on a container, no later batch starts another one on it, whatever the
    later entries say (the callback unobserves the container, and the
    browser delivers no entries for unobserved targets). *)
Theorem animate_once (doc : list container) (now : nat -> Q) (st : observer_state)
    (b : list (nat * bool)) (bs : list (list (nat * bool))) (c : nat) :
  anims_for c (deliver doc now st b) <> anims_for c st ->
  anims_for c (deliver_all doc now (deliver doc now st b) bs) = anims_for c (deliver doc now st b).
Proof.
  intros H. apply deliver_all_unobserved. apply callback_animated_unobserved. exact H.
Qed.

(** ** Ordering of the bar and its label *)

Lemma frame_stops_iff (y : num) (d t0 t : Q) :
  0 < d -> snd (number_frame y (Fin d) t0 t) = false <-> t0 + d <= t.
Proof.
  intros Hd. unfold number_frame. cbn [snd].
  assert (Hnz : ~ d == 0) by (intros E; rewrite E in Hd; discriminate).
  rewrite (progress_at_fin _ _ _ Hnz), num_lt_fin_bool, <- (progress_q_stop t0 d Hd t).
  destruct (Qle_bool _ _); simpl; split; congruence.
Qed.

(** C5. Ordering: the bar and its label share the duration, but the
    label's start time is read after the bar's; on any timeline the bar's
    loop stops no later than the label's (the label runs at least as many
    frames). *)
Theorem bar_stops_no_later_than_label (pct : num) (d tb tl : Q) (ts : list Q) :
  0 < d -> tb <= tl ->
  (length (frames_run (bar_frame (bar_target pct) (Fin d) tb) ts) <=
   length (frames_run (number_frame pct (Fin d) tl) ts))%nat.
Proof.
  intros Hd Hbl. apply frames_run_length_le. intros t Hstop.
  rewrite (frame_again_progress _ pct), frame_stops_iff by exact Hd.
  apply frame_stops_iff in Hstop; [lra|exact Hd].
Qed.

(** ** The label's last value *)

(** C6. The label's last value: once the timeline reaches [t0 + d], the
    label's loop has stopped and shows [Math.round(target)], the target
    itself, not clamped to [0, 100] as the bar is. *)
Theorem animateNumber_final (p d t0 t : Q) (ts : list Q) :
  0 < d -> In t ts -> t0 + d <= t ->
  snd (animateNumber (Fin p) (Fin d) t0 ts) = false /\
  List.last (fst (animateNumber (Fin p) (Fin d) t0 ts)) (Fin 0) = num_round (Fin p).
Proof.
  intros Hd Hin Ht. unfold animateNumber.
  apply (frame_stops_iff (Fin p) d t0 t Hd) in Ht.
  destruct (raf_run0_last _ ts t Hin Ht) as [t1 (_ & Hs1 & Hrun & Hlast)].
  rewrite Hrun. split; [reflexivity|]. cbn [fst].
  rewrite (last_map_nonempty _ _ t).
  - rewrite Hlast. apply (frame_stops_iff (Fin p) d t0 t1 Hd) in Hs1.
    assert (Hnz : ~ d == 0) by (intros E; rewrite E in Hd; discriminate).
    rewrite (number_frame_fin p d t0 t1 Hnz). cbn [fst]. unfold num_round. f_equal.
    apply Qfloor_compat. rewrite (ease_q_one _ (progress_q_done t0 d Hd t1 Hs1)). ring.
  - intros F. apply frames_run_nil in F. subst. contradiction.
Qed.

(** ** The label and the bar *)

(** C40. Equivalence of the two loops: started at the same time, on a
    target within [0, 100], the label's loop runs the same frames as the
    bar's, and each value it shows is [Math.round] of the width the bar
    writes at that frame (the bar writes one more value, the initial
    0%). *)
Theorem label_rounds_bar (p d t0 : Q) (ts : list Q) :
  0 <= p <= 100 -> 0 < d ->
  animateNumber (Fin p) (Fin d) t0 ts =
  (map num_round (tl (fst (animateBar (Fin p) (Fin d) t0 ts))), snd (animateBar (Fin p) (Fin d) t0 ts)).
Proof.
  intros Hp Hd. assert (Hnz : ~ d == 0) by lra.
  unfold animateNumber, animateBar. unfold bar_target. rewrite num_min_fin, num_max_fin.
  rewrite !raf_run0_spec. cbn [fst snd tl].
  rewrite (frames_run_ext (bar_frame _ _ _) (number_frame (Fin p) (Fin d) t0)) by reflexivity.
  rewrite (stops_within_ext (bar_frame _ _ _) (number_frame (Fin p) (Fin d) t0)) by reflexivity.
  f_equal. rewrite map_map. apply map_ext. intros t.
  rewrite bar_frame_fin, number_frame_fin by exact Hnz. cbn [fst num_round]. f_equal.
  apply Qfloor_compat. rewrite Q.max_r, Q.min_r by (try rewrite Q.min_r; lra). ring.
Qed.

(** ** Frames before the start time *)

(** C7. Negative progress: the code clamps the progress above only
    ([Math.min(..., 1)]); a frame whose timestamp precedes the start time
    read by [performance.now()] gives a negative width, where the
    specification clamps the progress to [0, 1]. *)
Theorem bar_early_frame_negative (T d t0 t : Q) :
  0 < T -> 0 < d -> t < t0 ->
  exists w, bar_frame (Fin T) (Fin d) t0 t = (Fin w, true) /\ w < 0.
Proof.
  intros HT Hd Ht. exists (bar_width_q T d t0 t).
  assert (Hnz : ~ d == 0) by (intros E; rewrite E in Hd; discriminate).
  rewrite (bar_frame_fin _ _ _ _ Hnz). split.
  - f_equal. destruct (Qle_bool 1 _) eqn:E; [|reflexivity].
    apply Qle_bool_iff in E. pose proof (progress_q_early t0 d Hd t Ht). lra.
  - unfold bar_width_q. pose proof (ease_q_negative _ (progress_q_early t0 d Hd t Ht)).
    assert (0 < T * - ease_q (progress_q t0 d t)) by (apply Qmult_lt_0_compat; lra).
    lra.
Qed.

(** ** Reduced motion *)

Definition doc150 : list container :=
  [ {| c_fill := Some {| data_width := Some "150%"%string |}; c_label := true |} ].

(** Reduced motion: with the preference set, the IIFE writes each
    fill's raw [data-width] and starts no observer, so a bar whose
    attribute is ["150%"%string] ends 150% wide, where the animated path ends at
    the clamped 100%. *)
Example reduced_motion_unclamped :
  skills_init true doc150 = ([SetWidth 0 (WRaw "150%"%string)], None) /\
  bar_target (parsePercent "150%"%string) = Fin 100.
Proof. split; reflexivity. Qed.

(** ** Witnesses *)

Definition skill_timeline : list Q := [16; 500; 996; 1200].

(** The specification's scenario: ["83%"%string] gives 83 and 996 ms; the bar's
    last width is 83. *)
Lemma animateBar_completes_witness :
  In 1200 skill_timeline /\ 0 + 1200 <= 1200 /\
  parsePercent "83%"%string = Fin 83 /\ skill_duration (Fin 83) = Fin 996 /\
  snd (animateBar (parsePercent "83%"%string) (skill_duration (parsePercent "83%"%string)) 0 skill_timeline)
    = false /\
  num_eqv (List.last (fst (animateBar (parsePercent "83%"%string)
                            (skill_duration (parsePercent "83%"%string)) 0 skill_timeline)) (Fin 0))
          (bar_target (parsePercent "83%"%string)).
Proof.
  split; [simpl; tauto|]. split; [lra|]. split; [reflexivity|]. split; [reflexivity|].
  apply (animateBar_completes "83%"%string 0 1200 skill_timeline); [simpl; tauto|lra].
Defined.

Lemma animateBar_refines_witness :
  nondecreasing skill_timeline /\ Forall (fun t => 0 <= t) skill_timeline /\
  exists T ws,
    bar_target (parsePercent "83%"%string) = Fin T /\
    fst (animateBar (parsePercent "83%"%string) (skill_duration (parsePercent "83%"%string)) 0 skill_timeline)
      = map Fin ws /\
    interpolation T ws
      (snd (animateBar (parsePercent "83%"%string) (skill_duration (parsePercent "83%"%string)) 0 skill_timeline)).
Proof.
  assert (Hm : nondecreasing skill_timeline) by (simpl; repeat split; lra).
  assert (Ha : Forall (fun t => 0 <= t) skill_timeline) by (repeat constructor; lra).
  split; [exact Hm|]. split; [exact Ha|].
  apply (animateBar_refines "83%"%string 0 skill_timeline Hm Ha).
Defined.

Definition doc83 : list container :=
  [ {| c_fill := Some {| data_width := Some "83%"%string |}; c_label := true |} ].

Definition st0 : observer_state :=
  {| observed := {[ 0%nat ]}; anims := []; clock := 0 |}.

Definition clock_ms (i : nat) : Q := inject_Z (Z.of_nat i).

(** One container, seen in a first batch and again in a second one. *)
Lemma animate_once_witness :
  anims_for 0 (deliver doc83 clock_ms st0 [(0%nat, true)]) <> anims_for 0 st0 /\
  anims_for 0 (deliver_all doc83 clock_ms (deliver doc83 clock_ms st0 [(0%nat, true)])
                 [[(0%nat, true)]; [(0%nat, false); (0%nat, true)]])
  = anims_for 0 (deliver doc83 clock_ms st0 [(0%nat, true)]).
Proof.
  assert (H : anims_for 0 (deliver doc83 clock_ms st0 [(0%nat, true)]) <> anims_for 0 st0)
    by (vm_compute; discriminate).
  split; [exact H|]. apply (animate_once doc83 clock_ms st0 _ _ 0 H).
Defined.

(** The label lags: a frame at exactly 996 ms ends the bar started at 0
    but not the label started 1 microsecond later. *)
Lemma bar_stops_no_later_than_label_witness :
  0 < 996 /\ 0 <= 1 # 1000 /\
  Nat.le (length (frames_run (bar_frame (bar_target (Fin 83)) (Fin 996) 0) [996; 1012]))
         (length (frames_run (number_frame (Fin 83) (Fin 996) (1 # 1000)) [996; 1012])) /\
  snd (animateBar (Fin 83) (Fin 996) 0 [996]) = false /\
  snd (animateNumber (Fin 83) (Fin 996) (1 # 1000) [996]) = true.
Proof.
  split; [lra|]. split; [lra|]. split.
  - apply bar_stops_no_later_than_label; lra.
  - split; vm_compute; reflexivity.
Defined.

(** The label of a ["150%"%string] bar ends on 150. *)
Lemma animateNumber_final_witness :
  0 < 1200 /\ In 1200 [1200] /\ 0 + 1200 <= 1200 /\
  snd (animateNumber (Fin 150) (Fin 1200) 0 [1200]) = false /\
  List.last (fst (animateNumber (Fin 150) (Fin 1200) 0 [1200])) (Fin 0) = num_round (Fin 150).
Proof.
  split; [lra|]. split; [simpl; tauto|]. split; [lra|].
  apply (animateNumber_final 150 1200 0 1200 [1200]); [lra|simpl; tauto|lra].
Defined.

Lemma bar_early_frame_negative_witness :
  0 < 83 /\ 0 < 996 /\ -16 < 0 /\
  exists w, bar_frame (Fin 83) (Fin 996) 0 (-16) = (Fin w, true) /\ w < 0.
Proof.
  split; [lra|]. split; [lra|]. split; [lra|].
  apply bar_early_frame_negative; lra.
Defined.

Lemma label_rounds_bar_witness :
  animateNumber (Fin 83) (Fin 996) 0 skill_timeline =
  (map num_round (tl (fst (animateBar (Fin 83) (Fin 996) 0 skill_timeline))),
   snd (animateBar (Fin 83) (Fin 996) 0 skill_timeline)).
Proof. apply label_rounds_bar; lra. Defined.
