(* ===== verification/Counters.v ===== *)
(** * Statistic counters and reveal observers (src/script.js, lines 29-35, 108-152, 317-335)

    - [value_step]/[animateValue] (lines 111-121): the counter loop; its
      start time is the first frame's timestamp, kept in a variable that
      starts [null] and is re-read while falsy;
    - [initCounters] (lines 122-130): on [load], every [.stat-item] with an
      [h3] counts from 0 to [parseInt(data-target || '0', 10)];
    - [reveal_entry]/[reveal_callback] (lines 135-152): the observer of the
      [.fade-in] elements: an intersecting element becomes [visible] and,
      for a [.stat-item] whose [h3] has no [data-animated], a counter is
      started and the flag set; the observer never unobserves;
    - [on_load] (lines 29-35): hide the preloader, [initCounters],
      [revealOnLoad];
    - [lazy_entry] (lines 317-335): the second observer of [.fade-in] and
      [img[data-src]] elements, which loads images and unobserves.

    The page is a list of elements; the state records the counters
    started (on which element, from which parse of the target), the
    elements marked [visible], the [data-animated] flags and the observed
    sets.  The theorems: the counter's last value; the reveal guard starts
    at most one counter per element; a [.stat-item.fade-in] is animated
    twice (once at load, once when revealed); the two parses of
    [data-target] disagree; the percent sign needs a target of 100 or
    more; the loop stops within [K + 1] frames on a display refreshing
    every [delta] ms when [d <= K * delta] (termination), and every value
    it writes is an integer.  The Section [ValueLoop] holds the loop's
    callback once the start time is read ([value_frame]) and the shape of
    a run that these theorems share. *)

From Stdlib Require Import QArith Qround Qminmax Lqa Lia ZArith List String Ascii Bool.
From stdpp Require Import gmap.
From S2P Require Import Prelude JsNum JsString Frames.
Import ListNotations.

#[local] Open Scope Q_scope.

(** ** [animateValue] *)

(** What the counter writes: the value, followed by ['%'] or not. *)
Record counter_text := CText { ct_value : num; ct_percent : bool }.

(** [el.dataset.percent === 'true'] *)
Definition percent_attr (p : option string) : bool :=
  match p with Some s => String.eqb s "true" | None => false end.

(** One frame of [animateValue] (lines 113-119); the state is
    [startTime], [None] for [null].  [!startTime] holds for [null] and for
    a start time of 0. *)
Definition value_step (start end_ duration : num) (percent : option string)
    (startTime : option Q) (timestamp : Q) : option Q * counter_text * bool :=
  let st := match startTime with
            | None => timestamp
            | Some s => if Qeq_bool s 0 then timestamp else s
            end in
  let progress := num_min (num_div (num_sub (Fin timestamp) (Fin st)) duration) (Fin 1) in
  let value := num_floor (num_add (num_mul progress (num_sub end_ start)) start) in
  let text := CText value (num_ge end_ (Fin 100) && percent_attr percent) in
  (Some st, text, num_lt progress (Fin 1)).

(** [animateValue(el, start, end, duration)], lines 111-121. *)
Definition animateValue (start end_ duration : num) (percent : option string) (ts : list Q)
  : list counter_text * bool :=
  raf_run (value_step start end_ duration percent) None ts.

(** ** The page *)

Record h3 := { h3_percent : option string; h3_animated : option string }.

(** An element of the page: its classes among those the script tests,
    its [data-target], and its [h3] child. *)
Record element := {
  is_stat_item : bool;
  is_fade_in : bool;
  data_target : option string;
  el_h3 : option h3
}.

(** Which code started a counter. *)
Inductive origin := FromInitCounters | FromReveal.

(** A counter started on the [h3] of element [i], with its target. *)
Record counter := { cn_elem : nat; cn_origin : origin; cn_end : num }.

Record page_state := {
  counters : list counter;
  visible : gset nat;
  animated : gset nat;    (** elements whose [h3] has [data-animated] set *)
  reveal_observed : gset nat;
  lazy_observed : gset nat;
  preloader_hidden : bool
}.

(** [item.dataset.target || '0'] then [parseInt(..., 10)], line 124. *)
Definition init_target (t : option string) : num :=
  parse_int (match t with Some s => if String.eqb s "" then "0" else s | None => "0" end)
            (Some 10%Z).

(** [parseInt(e.target.dataset.target || 0)], line 144: no radix; the
    number 0 converts to the string ["0"]. *)
Definition reveal_target (t : option string) : num :=
  parse_int (match t with Some s => if String.eqb s "" then "0" else s | None => "0" end) None.

Definition add_counter (c : counter) (st : page_state) : page_state :=
  {| counters := counters st ++ [c]; visible := visible st; animated := animated st;
     reveal_observed := reveal_observed st; lazy_observed := lazy_observed st;
     preloader_hidden := preloader_hidden st |}.

Section Page.
Variable doc : list element.

Definition indices : list nat := seq 0 (length doc).

  (** [initCounters()], lines 122-130. *)
Definition initCounters (st : page_state) : page_state :=
    fold_left (fun st i =>
      match nth_error doc i with
      | Some e =>
          if is_stat_item e then
            match el_h3 e with
            | Some _ => add_counter {| cn_elem := i; cn_origin := FromInitCounters;
                                       cn_end := init_target (data_target e) |} st
            | None => st
            end
          else st
      | None => st
      end) indices st.

  (** [!h.dataset.animated]: absent or empty. *)
Definition not_animated (st : page_state) (i : nat) : bool :=
    bool_decide (i ∉ animated st).

  (** The body of the reveal callback, lines 137-148. *)
Definition reveal_entry (st : page_state) (en : nat * bool) : page_state :=
    let '(i, isIntersecting) := en in
    if negb isIntersecting then st else
    let st1 := {| counters := counters st; visible := {[ i ]} ∪ visible st;
                  animated := animated st; reveal_observed := reveal_observed st;
                  lazy_observed := lazy_observed st; preloader_hidden := preloader_hidden st |} in
    match nth_error doc i with
    | Some e =>
        if is_stat_item e then
          match el_h3 e with
          | Some _ =>
              if not_animated st1 i then
                let st2 := add_counter {| cn_elem := i; cn_origin := FromReveal;
                                          cn_end := reveal_target (data_target e) |} st1 in
                {| counters := counters st2; visible := visible st2;
                   animated := {[ i ]} ∪ animated st2; reveal_observed := reveal_observed st2;
                   lazy_observed := lazy_observed st2; preloader_hidden := preloader_hidden st2 |}
              else st1
          | None => st1
          end
        else st1
    | None => st1
    end.

Definition reveal_callback (st : page_state) (entries : list (nat * bool)) : page_state :=
    fold_left reveal_entry entries st.

Definition reveal_deliver (st : page_state) (batch : list (nat * bool)) : page_state :=
    reveal_callback st (List.filter (fun en => bool_decide (en.1 ∈ reveal_observed st)) batch).

  (** [revealOnLoad()], line 151: observe every [.fade-in] element. *)
Definition revealOnLoad (st : page_state) : page_state :=
    {| counters := counters st; visible := visible st; animated := animated st;
       reveal_observed := list_to_set (List.filter (fun i =>
                            match nth_error doc i with Some e => is_fade_in e | None => false end)
                            indices);
       lazy_observed := lazy_observed st; preloader_hidden := preloader_hidden st |}.

  (** The [load] handler, lines 29-35. *)
Definition on_load (has_preloader : bool) (st : page_state) : page_state :=
    let st1 := {| counters := counters st; visible := visible st; animated := animated st;
                  reveal_observed := reveal_observed st; lazy_observed := lazy_observed st;
                  preloader_hidden := has_preloader || preloader_hidden st |} in
    revealOnLoad (initCounters st1).
End Page.

(** The page before [load]: the [data-animated] flags of the markup. *)
Definition initial_state (doc : list element) : page_state :=
  {| counters := []; visible := ∅;
     animated := list_to_set (List.filter (fun i =>
                   match nth_error doc i with
                   | Some e => match el_h3 e with
                               | Some h => match h3_animated h with
                                           | Some s => negb (String.eqb s "")
                                           | None => false end
                               | None => false end
                   | None => false end) (seq 0 (length doc)));
     reveal_observed := ∅; lazy_observed := ∅; preloader_hidden := false |}.

(** ** The lazy-reveal observer (lines 317-335)

    A second observer watches every [img[data-src]] and every [.fade-in]
    element: an intersecting target becomes [visible], an image with a
    [data-src] gets it as [src] and loses the attribute, and the target is
    unobserved.  Its state is kept apart from the counters'. *)

(** A target of the lazy observer: whether it is an [IMG], its
    [data-src], and whether it is [.fade-in]. *)
Record lazy_target := { lz_is_img : bool; lz_data_src : option string; lz_fade_in : bool }.

Record lazy_state := {
  lz_observed : gset nat;
  lz_visible : gset nat;
  lz_src_removed : gset nat;        (** [removeAttribute('data-src')] done *)
  lz_loads : list (nat * string)    (** [t.src = t.dataset.src], in order *)
}.

(** [t.dataset.src] after the attribute may have been removed. *)
Definition current_data_src (st : lazy_state) (i : nat) (t : lazy_target) : option string :=
  if bool_decide (i ∈ lz_src_removed st) then None
  else match lz_data_src t with
       | Some s => if String.eqb s "" then None else Some s
       | None => None
       end.

(** The body of the callback, lines 322-331. *)
Definition lazy_entry (targets : list lazy_target) (st : lazy_state) (en : nat * bool) : lazy_state :=
  let '(i, isIntersecting) := en in
  if negb isIntersecting then st else
  match nth_error targets i with
  | None => st
  | Some t =>
      let loaded :=
        if lz_is_img t then
          match current_data_src st i t with
          | Some src => Some src
          | None => None
          end
        else None in
      {| lz_observed := lz_observed st ∖ {[ i ]};
         lz_visible := {[ i ]} ∪ lz_visible st;
         lz_src_removed := match loaded with Some _ => {[ i ]} ∪ lz_src_removed st
                                             | None => lz_src_removed st end;
         lz_loads := match loaded with Some src => lz_loads st ++ [(i, src)]
                                       | None => lz_loads st end |}
  end.

Definition lazy_deliver (targets : list lazy_target) (st : lazy_state) (batch : list (nat * bool))
  : lazy_state :=
  fold_left (lazy_entry targets)
    (List.filter (fun en => bool_decide (en.1 ∈ lz_observed st)) batch) st.

(** [initLazyReveal()], lines 317-335: no observer when no element
    matches, otherwise every matching element is observed. *)
Definition initLazyReveal (targets : list lazy_target) : option lazy_state :=
  let elems := List.filter (fun i =>
                 match nth_error targets i with
                 | Some t => (lz_is_img t && match lz_data_src t with Some _ => true | None => false end)
                             || lz_fade_in t
                 | None => false
                 end) (seq 0 (length targets)) in
  match elems with
  | [] => None
  | _ => Some {| lz_observed := list_to_set elems; lz_visible := ∅;
                 lz_src_removed := ∅; lz_loads := [] |}
  end.

(** ** Counting the counters *)

#[export] Instance origin_eq_dec : EqDecision origin.
Proof. solve_decision. Defined.

(** The counters started on element [i] by the code [o]. *)
Definition counters_for (i : nat) (o : origin) (st : page_state) : list counter :=
  List.filter (fun c => Nat.eqb (cn_elem c) i && bool_decide (cn_origin c = o)) (counters st).

(** Element [i] is a [.stat-item] with an [h3]: the only elements the
    counters touch. *)
Definition stat_h3 (doc : list element) (i : nat) : bool :=
  match nth_error doc i with
  | Some e => is_stat_item e && match el_h3 e with Some _ => true | None => false end
  | None => false
  end.

Lemma counters_for_add (i : nat) (o : origin) (c : counter) (st : page_state) :
  length (counters_for i o (add_counter c st)) =
  (length (counters_for i o st) +
   if Nat.eqb (cn_elem c) i && bool_decide (cn_origin c = o) then 1 else 0)%nat.
Proof.
  unfold counters_for, add_counter. simpl. rewrite List.filter_app, length_app. simpl.
  destruct (_ && _); reflexivity.
Qed.

Lemma count_occ_seq (a n i : nat) :
  count_occ Nat.eq_dec (seq a n) i = if (a <=? i) && (i <? a + n) then 1%nat else 0%nat.
Proof.
  revert a. induction n as [|n IH]; intros a; simpl.
  - destruct (a <=? i) eqn:E1, (i <? a + 0) eqn:E2; simpl; auto.
    apply Nat.leb_le in E1. apply Nat.ltb_lt in E2. lia.
  - rewrite IH. destruct (Nat.eq_dec a i) as [<-|Hne].
    + rewrite Nat.leb_refl. replace (S a <=? a) with false by (symmetry; apply Nat.leb_gt; lia).
      replace (a <? a + S n) with true by (symmetry; apply Nat.ltb_lt; lia). reflexivity.
    + destruct (S a <=? i) eqn:E1, (i <? S a + n) eqn:E2, (a <=? i) eqn:E3, (i <? a + S n) eqn:E4;
        simpl; auto; rewrite ?Nat.leb_le, ?Nat.leb_gt, ?Nat.ltb_lt, ?Nat.ltb_ge in *; lia.
Qed.

(** [initCounters] starts one counter on every [.stat-item] with an [h3]
    and touches nothing else. *)
Lemma initCounters_count (doc : list element) (st : page_state) (i : nat) (o : origin) :
  length (counters_for i o (initCounters doc st)) =
  (length (counters_for i o st) +
   if stat_h3 doc i && bool_decide (FromInitCounters = o) then 1 else 0)%nat.
Proof.
  unfold initCounters, indices.
  assert (Hgen : forall l st,
    length (counters_for i o (fold_left (fun st j =>
      match nth_error doc j with
      | Some e => if is_stat_item e then
                    match el_h3 e with
                    | Some _ => add_counter {| cn_elem := j; cn_origin := FromInitCounters;
                                               cn_end := init_target (data_target e) |} st
                    | None => st end
                  else st
      | None => st end) l st)) =
    (length (counters_for i o st) +
     count_occ Nat.eq_dec l i * (if stat_h3 doc i && bool_decide (FromInitCounters = o) then 1 else 0))%nat).
  { induction l as [|j l IH]; intros st'; simpl; [lia|]. rewrite IH.
    unfold stat_h3. destruct (nth_error doc j) as [e|] eqn:Ej.
    - destruct (is_stat_item e) eqn:Es; [destruct (el_h3 e) eqn:Eh|].
      + rewrite counters_for_add. simpl.
        destruct (Nat.eq_dec j i) as [<-|Hne]; [rewrite Ej, Es, Eh, Nat.eqb_refl; simpl;
          destruct (bool_decide _); simpl; lia|].
        apply Nat.eqb_neq in Hne. rewrite Hne. simpl. lia.
      + destruct (Nat.eq_dec j i) as [<-|]; [rewrite Ej, Es, Eh; simpl; lia|lia].
      + destruct (Nat.eq_dec j i) as [<-|]; [rewrite Ej, Es; simpl; lia|lia].
    - destruct (Nat.eq_dec j i) as [<-|]; [rewrite Ej; simpl; lia|lia]. }
  rewrite Hgen, count_occ_seq.
  destruct (stat_h3 doc i) eqn:Ei; simpl; [|lia].
  assert (Hi : (i < length doc)%nat).
  { unfold stat_h3 in Ei. destruct (nth_error doc i) eqn:E; [|discriminate].
    apply nth_error_Some. congruence. }
  replace (i <? length doc) with true by (symmetry; apply Nat.ltb_lt; lia). simpl.
  destruct (bool_decide _); lia.
Qed.

(** What one reveal entry does to the reveal counters of element [i] and
    to its [data-animated] flag. *)
Lemma reveal_entry_effect (doc : list element) (st : page_state) (en : nat * bool) (i : nat) :
  (length (counters_for i FromReveal (reveal_entry doc st en)),
   bool_decide (i ∈ animated (reveal_entry doc st en))) =
  if bool_decide (en = (i, true)) && stat_h3 doc i && bool_decide (i ∉ animated st)
  then (S (length (counters_for i FromReveal st)), true)
  else (length (counters_for i FromReveal st), bool_decide (i ∈ animated st)).
Proof.
  unfold counters_for, stat_h3, not_animated.
  destruct en as [j []]; cbn [reveal_entry negb]; unfold not_animated.
  2:{ rewrite (bool_decide_false ((j, false) = (i, true))) by congruence. reflexivity. }
  destruct (decide (j = i)) as [<-|Hne].
  - rewrite (bool_decide_true ((j, true) = (j, true))) by reflexivity.
    destruct (nth_error doc j) as [e|]; simpl; [|reflexivity].
    destruct (is_stat_item e); simpl; [|reflexivity].
    destruct (el_h3 e); simpl; [|reflexivity].
    destruct (bool_decide (j ∉ animated st)) eqn:Ea; simpl; [|reflexivity].
    rewrite List.filter_app, length_app. simpl. rewrite Nat.eqb_refl. simpl.
    f_equal; [lia|]. apply bool_decide_eq_true. set_solver.
  - rewrite (bool_decide_false ((j, true) = (i, true))) by congruence. simpl.
    destruct (nth_error doc j) as [e|]; simpl; [|reflexivity].
    destruct (is_stat_item e); simpl; [|reflexivity].
    destruct (el_h3 e); simpl; [|reflexivity].
    destruct (bool_decide (j ∉ animated st)); simpl; [|reflexivity].
    rewrite List.filter_app, length_app. simpl. rewrite (proj2 (Nat.eqb_neq j i) Hne). simpl.
    f_equal; [lia|]. apply bool_decide_ext. set_solver.
Qed.

Lemma reveal_entry_init_count (doc : list element) (st : page_state) (en : nat * bool) (i : nat) :
  counters_for i FromInitCounters (reveal_entry doc st en) = counters_for i FromInitCounters st.
Proof.
  unfold counters_for. destruct en as [j []]; cbn [reveal_entry negb]; [|reflexivity].
  unfold not_animated. simpl.
  destruct (nth_error doc j) as [e|]; [|reflexivity].
  destruct (is_stat_item e); [|reflexivity]. destruct (el_h3 e); [|reflexivity].
  destruct (bool_decide _); [|reflexivity]. simpl.
  rewrite List.filter_app. simpl. rewrite ?andb_false_r. apply app_nil_r.
Qed.

(** The reveal guard's invariant for element [i]: it has started one
    counter when the flag is set and none otherwise ([exact = true]), or
    at most that ([exact = false]). *)
Definition guard_inv (exact : bool) (i : nat) (st : page_state) : Prop :=
  let n := length (counters_for i FromReveal st) in
  let m := if bool_decide (i ∈ animated st) then 1%nat else 0%nat in
  if exact then n = m else (n <= m)%nat.

Lemma reveal_entry_guard_inv (exact : bool) (doc : list element) (st : page_state)
    (en : nat * bool) (i : nat) :
  guard_inv exact i st -> guard_inv exact i (reveal_entry doc st en).
Proof.
  unfold guard_inv. pose proof (reveal_entry_effect doc st en i) as E.
  destruct (bool_decide (en = (i, true)) && stat_h3 doc i && bool_decide (i ∉ animated st)) eqn:C;
    injection E as E1 E2; rewrite E1, E2; [|tauto].
  apply andb_true_iff in C as [_ C]. apply bool_decide_eq_true in C.
  rewrite (bool_decide_false (i ∈ animated st)) by exact C.
  destruct exact; intros H; lia.
Qed.

Lemma reveal_entry_animated_mono (doc : list element) (st : page_state) (en : nat * bool) (i : nat) :
  i ∈ animated st -> i ∈ animated (reveal_entry doc st en).
Proof.
  intros H. pose proof (reveal_entry_effect doc st en i) as E.
  rewrite (bool_decide_false (i ∉ animated st)) in E by tauto.
  rewrite !andb_false_r in E. injection E as _ E2.
  rewrite (bool_decide_true (i ∈ animated st)) in E2 by exact H.
  apply bool_decide_eq_true in E2. exact E2.
Qed.

Lemma reveal_entry_sets_flag (doc : list element) (st : page_state) (i : nat) :
  stat_h3 doc i = true -> i ∈ animated (reveal_entry doc st (i, true)).
Proof.
  intros Hs. unfold stat_h3 in Hs. cbn [reveal_entry negb]. unfold not_animated. simpl.
  destruct (nth_error doc i) as [e|]; [|discriminate].
  destruct (is_stat_item e); [|discriminate]. destruct (el_h3 e); [|discriminate]. simpl.
  destruct (bool_decide (i ∉ animated st)) eqn:E; simpl; [set_solver|].
  apply bool_decide_eq_false in E. destruct (decide (i ∈ animated st)); [assumption|contradiction].
Qed.

Lemma reveal_callback_guard_inv (exact : bool) (doc : list element) (st : page_state)
    (es : list (nat * bool)) (i : nat) :
  guard_inv exact i st -> guard_inv exact i (reveal_callback doc st es).
Proof.
  unfold reveal_callback. revert st. induction es as [|en es IH]; intros st H; simpl; [exact H|].
  apply IH, reveal_entry_guard_inv, H.
Qed.

Lemma reveal_callback_animated (doc : list element) (st : page_state) (es : list (nat * bool))
    (i : nat) :
  stat_h3 doc i = true -> In (i, true) es -> i ∈ animated (reveal_callback doc st es).
Proof.
  intros Hs. unfold reveal_callback. revert st.
  assert (Hmono : forall es st, i ∈ animated st -> i ∈ animated (fold_left (reveal_entry doc) es st)).
  { induction es0 as [|en es0 IH]; intros st H; simpl; [exact H|].
    apply IH, reveal_entry_animated_mono, H. }
  induction es as [|en es IH]; intros st Hin; [contradiction|]. simpl.
  destruct Hin as [->|Hin]; [apply Hmono, reveal_entry_sets_flag, Hs|apply IH, Hin].
Qed.

Lemma reveal_callback_init_count (doc : list element) (st : page_state) (es : list (nat * bool))
    (i : nat) :
  counters_for i FromInitCounters (reveal_callback doc st es) = counters_for i FromInitCounters st.
Proof.
  unfold reveal_callback. revert st. induction es as [|en es IH]; intros st; simpl; [done|].
  rewrite IH. apply reveal_entry_init_count.
Qed.

Lemma counters_for_revealOnLoad (doc : list element) (st : page_state) (i : nat) (o : origin) :
  counters_for i o (revealOnLoad doc st) = counters_for i o st.
Proof. reflexivity. Qed.

(** After [load], no reveal counter has started yet. *)
Lemma on_load_counts (doc : list element) (p : bool) (i : nat) (o : origin) :
  length (counters_for i o (on_load doc p (initial_state doc))) =
  if stat_h3 doc i && bool_decide (FromInitCounters = o) then 1%nat else 0%nat.
Proof. unfold on_load. rewrite counters_for_revealOnLoad, initCounters_count. reflexivity. Qed.

Lemma reveal_observed_on_load (doc : list element) (p : bool) (i : nat) (e : element) :
  nth_error doc i = Some e -> is_fade_in e = true ->
  i ∈ reveal_observed (on_load doc p (initial_state doc)).
Proof.
  intros He Hf. unfold on_load, revealOnLoad. simpl.
  apply elem_of_list_to_set, list_elem_of_In, filter_In. split.
  - unfold indices. apply in_seq. split; [lia|]. simpl. apply nth_error_Some. congruence.
  - rewrite He. exact Hf.
Qed.

Lemma on_load_animated (doc : list element) (p : bool) (st : page_state) :
  animated (on_load doc p st) = animated st.
Proof.
  unfold on_load, revealOnLoad, initCounters. simpl.
  generalize (indices doc). intros l.
  set (st1 := {| counters := _ |}).
  change (animated st) with (animated st1). generalize st1. clear st1.
  induction l as [|j l IH]; intros st1; simpl; [reflexivity|].
  rewrite IH. destruct (nth_error doc j) as [e|]; [|reflexivity].
  destruct (is_stat_item e); [|reflexivity]. destruct (el_h3 e); reflexivity.
Qed.

(** ** Theorems *)

(** C9. Reveal guard: over any sequence of batches after [load], the
    reveal observer starts at most one counter on each element (the
    [data-animated] flag is set with the first one, and the observer,
    which never unobserves, keeps delivering entries). *)
Theorem reveal_at_most_once (doc : list element) (p : bool) (bs : list (list (nat * bool)))
    (i : nat) :
  (length (counters_for i FromReveal
             (fold_left (reveal_deliver doc) bs (on_load doc p (initial_state doc)))) <= 1)%nat.
Proof.
  assert (H0 : guard_inv false i (on_load doc p (initial_state doc))).
  { unfold guard_inv. rewrite on_load_counts. rewrite andb_false_r. simpl. lia. }
  assert (H : guard_inv false i
            (fold_left (reveal_deliver doc) bs (on_load doc p (initial_state doc)))).
  { revert H0. generalize (on_load doc p (initial_state doc)).
    induction bs as [|b bs IH]; intros st H; simpl; [exact H|].
    apply IH. apply reveal_callback_guard_inv. exact H. }
  unfold guard_inv in H. destruct (bool_decide _); lia.
Qed.

(** C10. Double animation: a [.stat-item] that is also [.fade-in], with an
    [h3] not marked [data-animated], gets two counters on its [h3]: one
    from [initCounters] at [load] (which sets no flag) and one from the
    reveal observer when it first intersects.  The two loops then write
    the same text node concurrently. *)
Theorem stat_counter_animated_twice (doc : list element) (p : bool) (b : list (nat * bool))
    (i : nat) (e : element) :
  nth_error doc i = Some e -> is_fade_in e = true -> stat_h3 doc i = true ->
  i ∉ animated (initial_state doc) -> In (i, true) b ->
  length (counters_for i FromInitCounters
            (reveal_deliver doc (on_load doc p (initial_state doc)) b)) = 1%nat /\
  length (counters_for i FromReveal
            (reveal_deliver doc (on_load doc p (initial_state doc)) b)) = 1%nat.
Proof.
  intros He Hf Hs Ha Hin. unfold reveal_deliver.
  split.
  - rewrite reveal_callback_init_count, on_load_counts, Hs. reflexivity.
  - set (st := on_load doc p (initial_state doc)).
    assert (H0 : guard_inv true i st).
    { unfold guard_inv, st. rewrite on_load_counts, andb_false_r.
      rewrite bool_decide_false; [reflexivity|]. rewrite on_load_animated. exact Ha. }
    set (es := List.filter _ b).
    assert (Hes : In (i, true) es).
    { apply filter_In. split; [exact Hin|]. apply bool_decide_eq_true.
      apply (reveal_observed_on_load doc p i e He Hf). }
    pose proof (reveal_callback_guard_inv true doc st es i H0) as H.
    pose proof (reveal_callback_animated doc st es i Hs Hes) as Hanim.
    unfold guard_inv in H. rewrite bool_decide_true in H by exact Hanim. exact H.
Qed.

(** ** The counter's frame loop *)

(** A first frame at a nonzero time reads it as the start time. *)
Lemma value_step_none (start end_ D : num) (perc : option string) (u : Q) :
  ~ u == 0 -> value_step start end_ D perc None u = value_step start end_ D perc (Some u) u.
Proof.
  intros Hu. unfold value_step. destruct (Qeq_bool u 0) eqn:E; [|reflexivity].
  apply Qeq_bool_iff in E. contradiction.
Qed.

Section ValueLoop.
Variables (start end_ : num) (perc : option string) (d t0 : Q).
Hypothesis Hd : 0 < d.
Hypothesis Ht0 : ~ t0 == 0.

(** The loop's callback once [startTime] holds [t0]. *)
Definition value_frame (u : Q) : counter_text * bool :=
  (snd (fst (value_step start end_ (Fin d) perc (Some t0) u)),
   snd (value_step start end_ (Fin d) perc (Some t0) u)).

Lemma value_step_eq (u : Q) :
  value_step start end_ (Fin d) perc (Some t0) u =
  (Some t0,
   CText (num_floor (num_add (num_mul (Fin (Qmin ((u - t0) / d) 1)) (num_sub end_ start)) start))
         (num_ge end_ (Fin 100) && percent_attr perc),
   num_lt (Fin (Qmin ((u - t0) / d) 1)) (Fin 1)).
Proof.
  unfold value_step. destruct (Qeq_bool t0 0) eqn:E; [apply Qeq_bool_iff in E; contradiction|].
  rewrite num_sub_fin, num_div_fin by (intros E'; rewrite E' in Hd; discriminate).
  rewrite num_min_fin. reflexivity.
Qed.

Lemma value_frame_stop (u : Q) : snd (value_frame u) = false <-> t0 + d <= u.
Proof.
  unfold value_frame. rewrite value_step_eq. cbn [snd]. rewrite num_lt_fin_false.
  split; intros H.
  - apply Q.min_glb_iff in H as [H _]. apply Qle_div_iff in H; lra.
  - apply Q.min_glb; [|lra]. apply Qle_div_iff; lra.
Qed.

(** The run of [animateValue] on a timeline starting at [t0]. *)
Lemma animateValue_cons (rest : list Q) :
  animateValue start end_ (Fin d) perc (t0 :: rest) =
  (fst (value_frame t0) :: fst (raf_run0 value_frame rest), snd (raf_run0 value_frame rest)).
Proof.
  unfold animateValue. cbn [raf_run]. rewrite value_step_none by exact Ht0.
  assert (Hs : snd (value_frame t0) = true).
  { destruct (snd (value_frame t0)) eqn:E; [reflexivity|]. apply value_frame_stop in E. lra. }
  unfold value_frame in Hs |- *. rewrite value_step_eq in Hs |- *. cbn [fst snd] in Hs |- *.
  rewrite Hs, raf_run_const_state by (intros u; rewrite value_step_eq; reflexivity).
  destruct (raf_run0 _ rest). reflexivity.
Qed.

End ValueLoop.

(** C11. The counter's last value: with a first frame at a nonzero time
    [t0] (the counter's start time) and a frame at [t0 + 1600] or later,
    the loop of [animateValue(h3, 0, z, 1600)] has stopped and its last
    text is exactly [z], with a ['%'] when [z >= 100] and [data-percent] is
    ["true"]. *)
Theorem animateValue_final (z : Z) (perc : option string) (t0 t : Q) (rest : list Q) :
  ~ t0 == 0 -> In t (t0 :: rest) -> t0 + 1600 <= t ->
  snd (animateValue (Fin 0) (of_Z z) (Fin 1600) perc (t0 :: rest)) = false /\
  List.last (fst (animateValue (Fin 0) (of_Z z) (Fin 1600) perc (t0 :: rest))) (CText (Fin 0) false)
  = CText (of_Z z) (num_ge (of_Z z) (Fin 100) && percent_attr perc).
Proof.
  intros Hz Hin Ht. assert (Hd : 0 < 1600) by lra.
  rewrite (animateValue_cons _ _ perc 1600 t0 Hd Hz rest). cbn [fst snd].
  assert (Hin' : In t rest) by (destruct Hin as [<-|Hin]; [lra|exact Hin]).
  apply (value_frame_stop (Fin 0) (of_Z z) perc 1600 t0 Hd Hz) in Ht.
  destruct (raf_run0_last _ rest t Hin' Ht) as [t1 (_ & Hs1 & Hrun & Hlast)].
  rewrite Hrun. cbn [fst snd]. split; [reflexivity|].
  rewrite last_cons_nonempty by (intros F; apply map_eq_nil, frames_run_nil in F; subst; contradiction).
  rewrite (last_map_nonempty _ _ t) by (intros F; apply frames_run_nil in F; subst; contradiction).
  rewrite Hlast. apply (value_frame_stop (Fin 0) (of_Z z) perc 1600 t0 Hd Hz) in Hs1.
  unfold value_frame. rewrite (value_step_eq _ _ _ _ _ Hd Hz). cbn [fst snd]. f_equal.
  unfold of_Z. cbn [num_mul num_sub num_add num_neg num_floor]. unfold of_Z.
  do 2 f_equal. transitivity (Qfloor (inject_Z z)); [|apply Qfloor_Z].
  apply Qfloor_compat. rewrite Q.min_r by (apply Qle_div_iff; lra). ring.
Qed.

Lemma num_ge_100_false (e : num) : num_lt e (Fin 100) = true -> num_ge e (Fin 100) = false.
Proof.
  destruct e as [q| | |]; try discriminate; intros H; [|reflexivity].
  unfold num_ge. destruct (num_le (Fin 100) (Fin q)) eqn:E; [|reflexivity].
  unfold num_le in E. simpl in E. apply num_lt_fin in H.
  assert (100 <= q) by (rewrite Qle_alt; destruct (100 ?= q); congruence). lra.
Qed.

(** C12. The percent sign: [animateValue] appends ['%'] only when the
    target is at least 100, so a counter with [data-percent="true"] and a
    target below 100 never shows the sign, on any frame. *)
Theorem percent_sign_needs_100 (start end_ duration : num) (perc : option string) (ts : list Q) :
  num_lt end_ (Fin 100) = true ->
  Forall (fun c => ct_percent c = false) (fst (animateValue start end_ duration perc ts)).
Proof.
  intros H. apply raf_run_forall. intros s t. unfold value_step. simpl.
  rewrite (num_ge_100_false end_ H). reflexivity.
Qed.

(** C38. Termination of the counter's loop: on a display whose frames
    are at least [delta] ms apart, with a first frame at a nonzero time,
    [animateValue] with duration [d] stops requesting frames within
    [K + 1] frames for any [K] with [d <= K * delta] (101 frames for
    [initCounters]' 1600 ms at 16 ms a frame), whatever its start and end
    values. *)
Theorem animateValue_terminates (start end_ : num) (perc : option string) (d delta t0 : Q)
    (rest : list Q) (K : nat) :
  0 < d -> 0 < delta -> ~ t0 == 0 -> d <= inject_Z (Z.of_nat K) * delta ->
  spaced delta (t0 :: rest) -> (K <= length rest)%nat ->
  snd (animateValue start end_ (Fin d) perc (t0 :: rest)) = false /\
  (length (fst (animateValue start end_ (Fin d) perc (t0 :: rest))) <= S K)%nat.
Proof.
  intros Hd Hdelta Ht0 HK Hsp Hlen. destruct K as [|K].
  { change (inject_Z (Z.of_nat 0)) with 0 in HK. lra. }
  destruct (nth_error rest K) as [t|] eqn:E; [|apply nth_error_None in E; lia].
  pose proof (spaced_nth delta t0 t rest K (Qlt_le_weak _ _ Hdelta) Hsp E) as Ht.
  assert (Hstop : snd (value_frame start end_ perc d t0 t) = false)
    by (apply value_frame_stop; [exact Hd|exact Ht0|lra]).
  destruct (frames_run_stop_at _ rest K t E Hstop) as [Hl Hw].
  rewrite (animateValue_cons start end_ perc d t0 Hd Ht0 rest), raf_run0_spec. cbn [fst snd].
  rewrite Hw. split; [reflexivity|]. cbn [length]. rewrite length_map. lia.
Qed.

(** C39. The counter shows integers: with a finite start, end and a
    positive duration, every value [animateValue] writes is an integer
    ([Math.floor] of a finite number), on any timeline. *)
Theorem animateValue_integers (s e d : Q) (perc : option string) (ts : list Q) :
  0 < d ->
  Forall (fun c => exists n, ct_value c = of_Z n) (fst (animateValue (Fin s) (Fin e) (Fin d) perc ts)).
Proof.
  intros Hd. apply raf_run_forall. intros st t. unfold value_step.
  rewrite num_sub_fin, num_div_fin by (intros E; rewrite E in Hd; discriminate).
  rewrite num_min_fin. eexists. reflexivity.
Qed.

(** C13. The two parses of [data-target]: [initCounters] calls
    [parseInt(t, 10)] and the reveal observer [parseInt(t)].  They read
    the same target for every attribute that does not start, after white
    space and sign, with ["0x"] or ["0X"]; for ["0x"] followed by
    hexadecimal digits the counter of the load counts to 0 and the one
    of the reveal to the hexadecimal value. *)
Theorem target_parses_disagree (s : string) (h : list ascii) :
  (hex_prefixed s = false -> init_target (Some s) = reveal_target (Some s)) /\
  (h <> [] -> forallb (is_digit 16) h = true ->
   init_target (Some (string_of_list_ascii ("0"%char :: "x"%char :: h))) = of_Z 0 /\
   reveal_target (Some (string_of_list_ascii ("0"%char :: "x"%char :: h))) =
     of_Z (digits_value 16 (map digit_of h))).
Proof.
  unfold init_target, reveal_target. split.
  - intros Hs. destruct (String.eqb s "") eqn:E; [reflexivity|]. apply parse_int_10_none, Hs.
  - intros Hne Hh. apply parse_int_hex; assumption.
Qed.

(** ** Witnesses *)

Lemma target_parses_disagree_witness :
  hex_prefixed "95"%string = false /\
  init_target (Some "95"%string) = reveal_target (Some "95"%string) /\
  ["1"%char; "0"%char] <> [] /\ forallb (is_digit 16) ["1"%char; "0"%char] = true /\
  init_target (Some "0x10"%string) = of_Z 0 /\ reveal_target (Some "0x10"%string) = of_Z 16.
Proof.
  assert (H1 : hex_prefixed "95"%string = false) by reflexivity.
  assert (H2 : ["1"%char; "0"%char] <> []) by discriminate.
  assert (H3 : forallb (is_digit 16) ["1"%char; "0"%char] = true) by reflexivity.
  split; [exact H1|]. split; [exact (proj1 (target_parses_disagree "95"%string [] ) H1)|].
  split; [exact H2|]. split; [exact H3|].
  exact (proj2 (target_parses_disagree EmptyString ["1"%char; "0"%char]) H2 H3).
Defined.

Definition stat_fade : element :=
  {| is_stat_item := true; is_fade_in := true; data_target := Some "95"%string;
     el_h3 := Some {| h3_percent := Some "true"%string; h3_animated := None |} |}.

Definition doc_stats : list element := [stat_fade].

Lemma reveal_at_most_once_witness :
  (length (counters_for 0 FromReveal
             (fold_left (reveal_deliver doc_stats) [[(0%nat, true)]; [(0%nat, true)]]
                (on_load doc_stats true (initial_state doc_stats)))) <= 1)%nat.
Proof. apply reveal_at_most_once. Defined.

Lemma stat_counter_animated_twice_witness :
  nth_error doc_stats 0 = Some stat_fade /\ is_fade_in stat_fade = true /\
  stat_h3 doc_stats 0 = true /\ (0%nat ∉ animated (initial_state doc_stats)) /\
  In (0%nat, true) [(0%nat, true)] /\
  length (counters_for 0 FromInitCounters
            (reveal_deliver doc_stats (on_load doc_stats true (initial_state doc_stats))
               [(0%nat, true)])) = 1%nat /\
  length (counters_for 0 FromReveal
            (reveal_deliver doc_stats (on_load doc_stats true (initial_state doc_stats))
               [(0%nat, true)])) = 1%nat.
Proof.
  assert (Ha : 0%nat ∉ animated (initial_state doc_stats)) by (vm_compute; set_solver).
  split; [reflexivity|]. split; [reflexivity|]. split; [reflexivity|]. split; [exact Ha|].
  split; [simpl; tauto|].
  apply (stat_counter_animated_twice doc_stats true [(0%nat, true)] 0 stat_fade);
    [reflexivity|reflexivity|reflexivity|exact Ha|simpl; tauto].
Defined.

Lemma animateValue_final_witness :
  ~ 16 == 0 /\ In 1616 [16; 1000; 1616] /\ 16 + 1600 <= 1616 /\
  snd (animateValue (Fin 0) (of_Z 95) (Fin 1600) (Some "true"%string) [16; 1000; 1616]) = false /\
  List.last (fst (animateValue (Fin 0) (of_Z 95) (Fin 1600) (Some "true"%string) [16; 1000; 1616]))
    (CText (Fin 0) false)
  = CText (of_Z 95) (num_ge (of_Z 95) (Fin 100) && percent_attr (Some "true"%string)).
Proof.
  assert (H : ~ 16 == 0) by discriminate.
  split; [exact H|]. split; [simpl; tauto|]. split; [lra|].
  apply (animateValue_final 95 (Some "true"%string) 16 1616 [1000; 1616]); [exact H|simpl; tauto|lra].
Defined.

Lemma percent_sign_needs_100_witness :
  num_lt (of_Z 95) (Fin 100) = true /\
  Forall (fun c => ct_percent c = false)
    (fst (animateValue (Fin 0) (of_Z 95) (Fin 1600) (Some "true"%string) [16; 1000; 1616])).
Proof.
  assert (H : num_lt (of_Z 95) (Fin 100) = true) by reflexivity.
  split; [exact H|]. apply percent_sign_needs_100. exact H.
Defined.

(** ** Lazy images *)

Definition loads_of (i : nat) (st : lazy_state) : nat :=
  length (List.filter (fun p => Nat.eqb p.1 i) (lz_loads st)).

(** An image's [src] was assigned once when its [data-src] is gone, never
    otherwise. *)
Definition lazy_inv (st : lazy_state) : Prop :=
  forall i, (loads_of i st <= if bool_decide (i ∈ lz_src_removed st) then 1 else 0)%nat.

Lemma current_data_src_some (st : lazy_state) (i : nat) (t : lazy_target) (src : string) :
  current_data_src st i t = Some src -> i ∉ lz_src_removed st.
Proof.
  unfold current_data_src. destruct (bool_decide (i ∈ lz_src_removed st)) eqn:E; [discriminate|].
  intros _. apply bool_decide_eq_false in E. exact E.
Qed.

Lemma lazy_entry_inv (targets : list lazy_target) (st : lazy_state) (en : nat * bool) :
  lazy_inv st -> lazy_inv (lazy_entry targets st en).
Proof.
  intros H k. destruct en as [j []]; cbn [lazy_entry negb]; [|apply H].
  destruct (nth_error targets j) as [t|]; [|apply H].
  destruct (lz_is_img t); [|apply H].
  destruct (current_data_src st j t) as [src|] eqn:C; [|apply H].
  unfold loads_of. simpl. rewrite List.filter_app, length_app. simpl.
  destruct (Nat.eqb_spec j k) as [<-|Hne].
  - apply current_data_src_some in C. specialize (H j). unfold loads_of in H.
    rewrite bool_decide_false in H by exact C. rewrite bool_decide_true by set_solver. simpl. lia.
  - specialize (H k). unfold loads_of in H. simpl.
    replace (bool_decide (k ∈ {[j]} ∪ lz_src_removed st))
      with (bool_decide (k ∈ lz_src_removed st)) by (apply bool_decide_ext; set_solver).
    lia.
Qed.

(** The observer [initLazyReveal] creates keeps [lazy_inv] over any
    sequence of batches. *)
Lemma lazy_run_inv (targets : list lazy_target) (st0 : lazy_state)
    (bs : list (list (nat * bool))) :
  initLazyReveal targets = Some st0 -> lazy_inv (fold_left (lazy_deliver targets) bs st0).
Proof.
  intros Hinit.
  assert (H0 : lazy_inv st0).
  { unfold initLazyReveal in Hinit. destruct (List.filter _ _); [discriminate|].
    injection Hinit as <-. intros k. unfold loads_of. simpl. lia. }
  clear Hinit. revert st0 H0. induction bs as [|b bs IH]; intros st H; simpl; [exact H|].
  apply IH.
  unfold lazy_deliver. generalize (List.filter (fun en => bool_decide (en.1 ∈ lz_observed st)) b).
  intros es. revert st H. induction es as [|en es IHes]; intros st H; simpl; [exact H|].
  apply IHes, lazy_entry_inv, H.
Qed.

(** C14. Lazy images load once: from the observer [initLazyReveal]
    creates, over any sequence of batches, each image's [src] is assigned
    from its [data-src] at most once (the attribute is removed with the
    first assignment and the target unobserved). *)
Theorem lazy_load_at_most_once (targets : list lazy_target) (st0 : lazy_state)
    (bs : list (list (nat * bool))) (i : nat) :
  initLazyReveal targets = Some st0 ->
  (loads_of i (fold_left (lazy_deliver targets) bs st0) <= 1)%nat.
Proof.
  intros Hinit. pose proof (lazy_run_inv targets st0 bs Hinit i) as H.
  destruct (bool_decide _); lia.
Qed.

Definition lazy_page : list lazy_target :=
  [ {| lz_is_img := true; lz_data_src := Some "hero.png"%string; lz_fade_in := true |} ].

Lemma lazy_load_at_most_once_witness :
  initLazyReveal lazy_page =
    Some {| lz_observed := {[ 0%nat ]}; lz_visible := ∅; lz_src_removed := ∅; lz_loads := [] |} /\
  (loads_of 0 (fold_left (lazy_deliver lazy_page) [[(0%nat, true); (0%nat, true)]; [(0%nat, true)]]
     {| lz_observed := {[ 0%nat ]}; lz_visible := ∅; lz_src_removed := ∅; lz_loads := [] |})
   <= 1)%nat.
Proof.
  assert (H : initLazyReveal lazy_page =
    Some {| lz_observed := {[ 0%nat ]}; lz_visible := ∅; lz_src_removed := ∅; lz_loads := [] |})
    by reflexivity.
  split; [exact H|]. apply (lazy_load_at_most_once lazy_page _ _ 0 H).
Defined.

(** ** Witnesses of the counter's loop *)

(** A counter of 50 ms on a display refreshing every 16 ms: it stops by
    the fifth frame. *)
Lemma animateValue_terminates_witness :
  snd (animateValue (Fin 0) (of_Z 95) (Fin 50) None [16; 32; 48; 64; 80]%Q) = false /\
  (length (fst (animateValue (Fin 0) (of_Z 95) (Fin 50) None [16; 32; 48; 64; 80]%Q)) <= 5)%nat.
Proof.
  apply (animateValue_terminates (Fin 0) (of_Z 95) None 50 16 16 [32; 48; 64; 80]%Q 4);
    [lra | lra | intros E; vm_compute in E; discriminate E | | | simpl; lia].
  - change (inject_Z (Z.of_nat 4)) with 4. lra.
  - simpl. repeat split; lra.
Defined.

Lemma animateValue_integers_witness :
  Forall (fun c => exists n, ct_value c = of_Z n)
         (fst (animateValue (Fin 0) (Fin 95) (Fin 1600) None [16; 500; 1700]%Q)).
Proof. apply animateValue_integers. lra. Defined.
