(* ===== verification/Typewriter.v ===== *)
(** * The typewriter (src/script.js, lines 87-106)

    The IIFE [typewriterInit] types and erases the words of the
    [data-text] attribute of the [.typewriter] element, one character per
    tick.  Its state is the three variables [i] (the word index), [pos]
    (the length shown) and [forward] (typing or erasing); each [tick]
    either writes [word.slice(0, pos)] and schedules the next tick in 90
    ms, or, when typing reaches the end of the word, turns around and
    schedules the next tick in 900 ms without writing.

    [tick] is the handler, [tw_reach] the states reachable from the
    initial one by ticks (the timer chain never ends), [run] the first [n]
    ticks.  The theorems: an invariant of the reachable states; the text
    written is always a strict prefix of the current word, so the whole
    word is never displayed; each word takes [2 * max(1, length)] ticks
    before the next one starts.

    [typewriterInit] is the IIFE itself: [JSON.parse] of [data-text] (or
    of ['[]'] when it is absent or empty), with the [SyntaxError] of a text
    that is not JSON, the [TypeError] of [null] (whose [length] the first
    tick reads), the words a tick reads from the parsed value (an array's
    elements, falsy ones read as [''], a string's characters, no word for
    a number or a boolean), and the first tick, which runs synchronously.
    A parsed value with a truthy element that is not a string, or an
    object, is reported as [TwOutside]: its ticks read properties the
    model does not follow. *)

From Stdlib Require Import ZArith Lia List String Ascii Bool.
From S2P Require Import Prelude JsNum JsString JsJson.
Import ListNotations.

#[local] Open Scope string_scope.
#[local] Open Scope Z_scope.


Record tw_state := { tw_i : nat; tw_pos : Z; tw_forward : bool }.

(** What a tick does besides updating the state: write a text and wait
    [delay] ms, or only wait. *)
Inductive tw_effect :=
| Write (text : string) (delay : Z)
| Pause (delay : Z).

(** [words[i % words.length] || '']: with no words, [i % 0] is NaN and the
    word is [undefined], hence ['']. *)
Definition word_at (words : list string) (i : nat) : string :=
  match words with
  | [] => ""
  | _ => List.nth (Nat.modulo i (List.length words)) words ""
  end.

(** [word.slice(0, pos)] *)
Definition slice_to (w : string) (pos : Z) : string :=
  if pos <=? 0 then "" else substring 0 (Z.to_nat pos) w.

Definition speed : Z := 90.

(** [tick()], lines 93-104. *)
Definition tick (words : list string) (st : tw_state) : tw_state * tw_effect :=
  let word := word_at words (tw_i st) in
  let len := Z.of_nat (String.length word) in
  if tw_forward st then
    let pos := tw_pos st + 1 in
    if len <=? pos then ({| tw_i := tw_i st; tw_pos := pos; tw_forward := false |}, Pause 900)
    else ({| tw_i := tw_i st; tw_pos := pos; tw_forward := true |}, Write (slice_to word pos) speed)
  else
    let pos := tw_pos st - 1 in
    if pos <=? 0
    then ({| tw_i := S (tw_i st); tw_pos := pos; tw_forward := true |}, Write (slice_to word pos) speed)
    else ({| tw_i := tw_i st; tw_pos := pos; tw_forward := false |}, Write (slice_to word pos) speed).

(** [let i=0, pos=0, forward=true], line 91. *)
Definition tw_init : tw_state := {| tw_i := 0; tw_pos := 0; tw_forward := true |}.

(** The states the timer chain reaches. *)
Inductive tw_reach (words : list string) : tw_state -> Prop :=
| tw_reach_init : tw_reach words tw_init
| tw_reach_tick st : tw_reach words st -> tw_reach words (fst (tick words st)).

(** The first [n] ticks: their effects in order, and the state after. *)
Fixpoint run (words : list string) (n : nat) (st : tw_state) : list tw_effect * tw_state :=
  match n with
  | O => ([], st)
  | S n' =>
      let '(st1, eff) := tick words st in
      let '(effs, st2) := run words n' st1 in
      (eff :: effs, st2)
  end.

(** ** Start: [JSON.parse] of [data-text] and the first tick *)

(** A string of code units below 256 as a Stdlib string. *)
Fixpoint units_string (us : list Z) : option string :=
  match us with
  | [] => Some EmptyString
  | u :: us' =>
      if (0 <=? u) && (u <? 256) then
        match units_string us' with
        | Some s => Some (String (ascii_of_nat (Z.to_nat u)) s)
        | None => None
        end
      else None
  end.

(** [words[k] || ''] for an element [v] of the parsed array: a falsy
    element gives [''], a string itself; a truthy non-string (whose
    [slice] the tick would call) is outside the model. *)
Definition tw_word_of (v : json) : option string :=
  match v with
  | JNull | JBool false => Some ""
  | JNum n => if num_truthy n then None else Some ""
  | JStr us => units_string us
  | _ => None
  end.

Fixpoint all_words (vs : list json) : option (list string) :=
  match vs with
  | [] => Some []
  | v :: vs' =>
      match tw_word_of v, all_words vs' with
      | Some w, Some ws => Some (w :: ws)
      | _, _ => None
      end
  end.

(** The words the ticks read from the parsed value [words]: an array's
    elements; a string's characters ([words[k]] of a string is its
    [k]-th character); nothing for a number or a boolean, whose
    [length] is [undefined], so that [words[NaN]] is [undefined] and the
    word is [''] on every tick, as for an empty list. *)
Definition tw_words_of (v : json) : option (list string) :=
  match v with
  | JArr vs => all_words vs
  | JStr us => match units_string us with
               | Some s => Some (map (fun c => String c EmptyString) (list_ascii_of_string s))
               | None => None
               end
  | JNum _ | JBool _ => Some []
  | JNull | JObj _ => None
  end.

(** What [typewriterInit] does at load, lines 87-106. *)
Inductive tw_start :=
| TwAbsent                                  (** no [.typewriter]: [return] *)
| TwRunning (words : list string) (st : tw_state) (first : tw_effect)
                                            (** after the first, synchronous, tick *)
| TwThrows (e : js_error)                   (** the IIFE throws at load *)
| TwOutside (v : json).                     (** a value the model does not follow *)

(** [el] is the [.typewriter] element's [data-text] attribute, [None]
    outside when there is no such element.  [JSON.parse] throws a
    [SyntaxError] on a text that is not JSON, and the first tick reads
    [words.length] of [null] and throws a [TypeError]. *)
Definition typewriterInit (el : option (option string)) : tw_start :=
  match el with
  | None => TwAbsent
  | Some attr =>
      let text := match attr with
                  | Some s => if String.eqb s "" then "[]" else s
                  | None => "[]"
                  end in
      match json_parse text with
      | None => TwThrows SyntaxError
      | Some JNull => TwThrows TypeError
      | Some v =>
          match tw_words_of v with
          | Some ws => let '(st, eff) := tick ws tw_init in TwRunning ws st eff
          | None => TwOutside v
          end
      end
  end.

(** ** The invariant *)

Definition word_len (words : list string) (st : tw_state) : Z :=
  Z.of_nat (String.length (word_at words (tw_i st))).

(** While typing, [pos] is below the word's length (or 0); while erasing,
    it is between 1 and the length (1 for the empty word). *)
Definition tw_inv (words : list string) (st : tw_state) : Prop :=
  if tw_forward st then 0 <= tw_pos st /\ (tw_pos st < word_len words st \/ tw_pos st = 0)
  else 1 <= tw_pos st /\ tw_pos st <= Z.max (word_len words st) 1.

Lemma tick_inv (words : list string) (st : tw_state) :
  tw_inv words st -> tw_inv words (fst (tick words st)).
Proof.
  unfold tw_inv, tick, word_len. destruct st as [i pos []]; simpl;
    set (L := Z.of_nat (String.length (word_at words i))); intros H.
  - destruct (Z.leb_spec L (pos + 1)); simpl; lia.
  - destruct (Z.leb_spec (pos - 1) 0); simpl; [lia|]. fold L. lia.
Qed.

Lemma tw_reach_inv (words : list string) (st : tw_state) : tw_reach words st -> tw_inv words st.
Proof.
  induction 1 as [|st _ IH].
  - unfold tw_inv. simpl. lia.
  - apply tick_inv, IH.
Qed.

Lemma slice_to_length (w : string) (pos : Z) :
  0 <= pos <= Z.of_nat (String.length w) ->
  Z.of_nat (String.length (slice_to w pos)) = pos.
Proof.
  intros H. unfold slice_to. destruct (Z.leb_spec pos 0); [simpl; lia|].
  rewrite substring0_length; lia.
Qed.

Lemma slice_to_prefix (w : string) (pos : Z) : String.prefix (slice_to w pos) w = true.
Proof.
  unfold slice_to. destruct (pos <=? 0); [destruct w; reflexivity|apply substring0_prefix].
Qed.

(** ** Theorems *)

(** C15. The whole word is never shown: every text a reachable tick
    writes is a prefix of the current word, strictly shorter than it
    unless the word is empty.  Typing turns around when [pos] reaches the
    length, before writing [word.slice(0, pos)], so the last character of
    each word never appears (a one-letter word never appears at all). *)
Theorem typed_text_strict_prefix (words : list string) (st st' : tw_state) (s : string) (d : Z) :
  tw_reach words st -> tick words st = (st', Write s d) ->
  String.prefix s (word_at words (tw_i st)) = true /\
  (String.length s < String.length (word_at words (tw_i st)) \/ word_at words (tw_i st) = "")%nat.
Proof.
  intros Hr Ht. pose proof (tw_reach_inv words st Hr) as Hinv.
  unfold tw_inv, word_len in Hinv. unfold tick in Ht.
  destruct st as [i pos []]; simpl in *;
    remember (word_at words i) as w eqn:Ew; clear Ew.
  - destruct (Z.leb_spec (Z.of_nat (String.length w)) (pos + 1)); [discriminate|].
    injection Ht as _ <- _. split; [apply slice_to_prefix|]. left.
    pose proof (slice_to_length w (pos + 1) ltac:(lia)). lia.
  - destruct (Z.leb_spec (pos - 1) 0); injection Ht as _ <- _;
      (split; [apply slice_to_prefix|]).
    + assert (Hs : slice_to w (pos - 1) = "")
        by (unfold slice_to; destruct (Z.leb_spec (pos - 1) 0); [reflexivity|lia]).
      rewrite Hs. destruct w as [|c w']; [right; reflexivity|left; simpl; lia].
    + left. pose proof (slice_to_length w (pos - 1) ltac:(lia)). lia.
Qed.

(** ** Cycles *)

Lemma run_add (words : list string) (a b : nat) (st : tw_state) :
  snd (run words (a + b) st) = snd (run words b (snd (run words a st))).
Proof.
  revert st. induction a as [|a IH]; intros st; [reflexivity|]. simpl.
  destruct (tick words st) as [st1 eff].
  specialize (IH st1). destruct (run words (a + b) st1), (run words a st1). simpl in *. exact IH.
Qed.

Lemma run_one (words : list string) (st : tw_state) : snd (run words 1 st) = fst (tick words st).
Proof. simpl. destruct (tick words st). reflexivity. Qed.

(** The four branches of [tick]. *)
Lemma tick_type (words : list string) (i : nat) (p : Z) :
  p + 1 < Z.of_nat (String.length (word_at words i)) ->
  fst (tick words {| tw_i := i; tw_pos := p; tw_forward := true |}) =
  {| tw_i := i; tw_pos := p + 1; tw_forward := true |}.
Proof.
  intros H. unfold tick. simpl.
  destruct (Z.leb_spec (Z.of_nat (String.length (word_at words i))) (p + 1)); [lia|reflexivity].
Qed.

Lemma tick_turn (words : list string) (i : nat) (p : Z) :
  Z.of_nat (String.length (word_at words i)) <= p + 1 ->
  fst (tick words {| tw_i := i; tw_pos := p; tw_forward := true |}) =
  {| tw_i := i; tw_pos := p + 1; tw_forward := false |}.
Proof.
  intros H. unfold tick. simpl.
  destruct (Z.leb_spec (Z.of_nat (String.length (word_at words i))) (p + 1)); [reflexivity|lia].
Qed.

Lemma tick_erase (words : list string) (i : nat) (q : Z) :
  1 < q ->
  fst (tick words {| tw_i := i; tw_pos := q; tw_forward := false |}) =
  {| tw_i := i; tw_pos := q - 1; tw_forward := false |}.
Proof. intros H. unfold tick. simpl. destruct (Z.leb_spec (q - 1) 0); [lia|reflexivity]. Qed.

Lemma tick_next (words : list string) (i : nat) :
  fst (tick words {| tw_i := i; tw_pos := 1; tw_forward := false |}) =
  {| tw_i := S i; tw_pos := 0; tw_forward := true |}.
Proof. reflexivity. Qed.

(** Typing: from [pos = p], [k + 1] ticks reach the end of the word and
    turn around. *)
Lemma fwd_phase (words : list string) (i k : nat) (p : Z) :
  0 <= p -> p + Z.of_nat k + 1 = Z.of_nat (String.length (word_at words i)) ->
  snd (run words (S k) {| tw_i := i; tw_pos := p; tw_forward := true |}) =
  {| tw_i := i; tw_pos := p + Z.of_nat k + 1; tw_forward := false |}.
Proof.
  revert p. induction k as [|k IH]; intros p Hp HL.
  - rewrite run_one, tick_turn by lia. f_equal. lia.
  - change (S (S k)) with (1 + S k)%nat. rewrite run_add, run_one, tick_type by lia.
    rewrite IH by lia. f_equal. lia.
Qed.

(** Erasing: from [pos = k >= 1], [k] ticks erase the word and move to
    the next one. *)
Lemma bwd_phase (words : list string) (i k : nat) :
  (1 <= k)%nat ->
  snd (run words k {| tw_i := i; tw_pos := Z.of_nat k; tw_forward := false |}) =
  {| tw_i := S i; tw_pos := 0; tw_forward := true |}.
Proof.
  induction k as [|k IH]; intros Hk; [lia|].
  destruct k as [|k].
  - rewrite run_one. apply tick_next.
  - change (S (S k)) with (1 + S k)%nat. rewrite run_add, run_one, tick_erase by lia.
    replace (Z.of_nat (1 + S k) - 1) with (Z.of_nat (S k)) by lia.
    apply IH. lia.
Qed.

(** C16. Progress through the words: from the start of word [i]
    ([pos = 0], typing), exactly [2 * max(1, length)] ticks type it, turn
    around, erase it and start word [i + 1]; the timer chain therefore
    visits every word of the list, cyclically, forever. *)
Theorem word_cycle (words : list string) (i : nat) :
  snd (run words (2 * Nat.max 1 (String.length (word_at words i)))
         {| tw_i := i; tw_pos := 0; tw_forward := true |}) =
  {| tw_i := S i; tw_pos := 0; tw_forward := true |}.
Proof.
  destruct (String.length (word_at words i)) as [|L] eqn:EL.
  - simpl. unfold tick at 1. simpl. rewrite EL. simpl. reflexivity.
  - replace (2 * Nat.max 1 (S L))%nat with (S L + S L)%nat by lia.
    rewrite run_add, (fwd_phase words i L 0); [|lia|rewrite EL; lia].
    replace (0 + Z.of_nat L + 1) with (Z.of_nat (S L)) by lia.
    apply bwd_phase. lia.
Qed.

(** The first word of ["abc"] is typed to "ab", never to "abc". *)
Example abc_cycle :
  fst (run ["abc"] 6 tw_init) =
  [Write "a" 90; Write "ab" 90; Pause 900; Write "ab" 90; Write "a" 90; Write "" 90].
Proof. reflexivity. Qed.

Lemma typed_text_strict_prefix_witness :
  tw_reach ["abc"] tw_init /\
  tick ["abc"] tw_init = ({| tw_i := 0; tw_pos := 1; tw_forward := true |}, Write "a" 90) /\
  String.prefix "a" (word_at ["abc"] (tw_i tw_init)) = true /\
  (String.length "a" < String.length (word_at ["abc"] (tw_i tw_init)) \/
   word_at ["abc"] (tw_i tw_init) = "")%nat.
Proof.
  assert (Hr : tw_reach ["abc"] tw_init) by constructor.
  assert (Ht : tick ["abc"] tw_init = ({| tw_i := 0; tw_pos := 1; tw_forward := true |}, Write "a" 90))
    by reflexivity.
  split; [exact Hr|]. split; [exact Ht|].
  exact (typed_text_strict_prefix ["abc"] tw_init _ "a" 90 Hr Ht).
Defined.
