(* ===== verification/Prefs.v ===== *)
(** * Preferences in localStorage (src/script.js, lines 13-24, 40-63, 280-294)

    Two features keep a flag in [localStorage]: the theme ([sp-theme]) and
    the cookie consent ([sp-cookies]).  Both are written against the
    [KVStore] class, the interface [localStorage] offers them
    ([getItem], [setItem]), with its laws in [KVStoreLaws]; the theorems
    are proved from the laws, and [gmap_kv] (a [gmap string string])
    discharges them.

    - [showToast] (lines 13-24): a toast is appended when the container
      exists (its timers only animate and remove it: not modelled);
    - [applyTheme], [initTheme], [theme_click] (lines 40-63);
    - [initCookie], [accept_click] (lines 280-294).

    The theorems: a click persists the theme it shows, and a reload shows
    it again; two clicks restore a light or dark theme but not another
    one; [aria-pressed] follows the theme; accepting cookies hides the
    banner for later loads; each feature leaves the other's key alone. *)

From stdpp Require Import gmap strings.
From Stdlib Require Import String Ascii.
From S2P Require Import Prelude.

#[local] Open Scope string_scope.

(** ** The store interface *)

Class KVStore (S : Type) := {
  kv_get : S -> string -> option string;
  kv_set : S -> string -> string -> S
}.

Class KVStoreLaws (S : Type) `{KVStore S} := {
  kv_get_set_eq : forall s k v, kv_get (kv_set s k v) k = Some v;
  kv_get_set_ne : forall s k k' v, k <> k' -> kv_get (kv_set s k v) k' = kv_get s k'
}.

#[export] Instance gmap_kv : KVStore (gmap string string) := {
  kv_get s k := s !! k;
  kv_set s k v := <[k := v]> s
}.

#[export] Instance gmap_kv_laws : KVStoreLaws (gmap string string).
Proof.
  split.
  - intros s k v. apply lookup_insert_eq.
  - intros s k k' v Hne. simpl. by apply lookup_insert_ne.
Qed.

(** ** The page *)

(** What the two features read and write on the page: the
    [data-theme] attribute of [<html>], the toggle's [aria-pressed], the
    cookie bar's [aria-hidden], the toasts shown, and which of the
    elements exist. *)
Record page := {
  data_theme : option string;
  aria_pressed : option string;
  cookie_bar_hidden : option string;
  toasts : list string;
  has_toggle : bool;
  has_cookie_bar : bool;
  has_toast_container : bool
}.

Definition set_theme_attrs (p : page) (theme : option string) (pressed : option string) : page :=
  {| data_theme := theme; aria_pressed := pressed; cookie_bar_hidden := cookie_bar_hidden p;
     toasts := toasts p; has_toggle := has_toggle p; has_cookie_bar := has_cookie_bar p;
     has_toast_container := has_toast_container p |}.

Definition set_cookie_bar (p : page) (v : option string) : page :=
  {| data_theme := data_theme p; aria_pressed := aria_pressed p; cookie_bar_hidden := v;
     toasts := toasts p; has_toggle := has_toggle p; has_cookie_bar := has_cookie_bar p;
     has_toast_container := has_toast_container p |}.

(** [showToast(message)], lines 13-24. *)
Definition showToast (p : page) (message : string) : page :=
  if has_toast_container p then
    {| data_theme := data_theme p; aria_pressed := aria_pressed p;
       cookie_bar_hidden := cookie_bar_hidden p; toasts := toasts p ++ [message];
       has_toggle := has_toggle p; has_cookie_bar := has_cookie_bar p;
       has_toast_container := has_toast_container p |}
  else p.

(** A string is truthy when it is not empty; [getItem] returns [null]
    ([None]) for a missing key. *)
Definition truthy_item (o : option string) : option string :=
  match o with Some s => if String.eqb s "" then None else Some s | None => None end.

(** [s[0].toUpperCase() + s.slice(1)] on a non-empty ASCII string. *)
Definition capitalize (s : string) : string :=
  match s with
  | EmptyString => EmptyString
  | String c s' =>
      let n := nat_of_ascii c in
      String (if andb (Nat.leb 97 n) (Nat.leb n 122) then ascii_of_nat (n - 32) else c) s'
  end.

Section Theme.
Context {S : Type} `{KVStore S}.

  (** [applyTheme(theme)], lines 41-44: [setAttribute] turns the boolean
      [theme === 'dark'] into ["true"] or ["false"]. *)
Definition applyTheme (p : page) (theme : string) : page :=
    set_theme_attrs p (Some theme)
      (if has_toggle p then Some (if String.eqb theme "dark" then "true" else "false")
       else aria_pressed p).

  (** [initTheme()], lines 45-54; [prefersDark] is the result of the
      [prefers-color-scheme: dark] media query. *)
Definition initTheme (prefersDark : bool) (store : S) (p : page) : page :=
    match truthy_item (kv_get store "sp-theme") with
    | Some saved => applyTheme p saved
    | None => applyTheme p (if prefersDark then "dark" else "light")
    end.

  (** The toggle's click handler, lines 56-62. *)
Definition theme_click (store : S) (p : page) : S * page :=
    let current := match data_theme p with
                   | Some t => if String.eqb t "" then "light" else t
                   | None => "light"
                   end in
    let next := if String.eqb current "light" then "dark" else "light" in
    let p1 := applyTheme p next in
    let store1 := kv_set store "sp-theme" next in
    (store1, showToast p1 (capitalize next ++ " theme enabled")).

  (** [initCookie()], lines 282-287. *)
Definition initCookie (store : S) (p : page) : page :=
    match truthy_item (kv_get store "sp-cookies") with
    | Some _ => p
    | None => if has_cookie_bar p then set_cookie_bar p (Some "false") else p
    end.

  (** The accept button's click handler, lines 289-293. *)
Definition accept_click (store : S) (p : page) : S * page :=
    let store1 := kv_set store "sp-cookies" "1" in
    let p1 := if has_cookie_bar p then set_cookie_bar p (Some "true") else p in
    (store1, showToast p1 "Cookies accepted").
End Theme.

(** ** Theorems, from the store laws *)

Section Laws.
Context {S : Type} `{KVStoreLaws S}.

Lemma applyTheme_theme (p : page) (t : string) : data_theme (applyTheme p t) = Some t.
Proof. reflexivity. Qed.

Lemma showToast_theme (p : page) (m : string) : data_theme (showToast p m) = data_theme p.
Proof. unfold showToast. destruct (has_toast_container p); reflexivity. Qed.

Lemma showToast_pressed (p : page) (m : string) : aria_pressed (showToast p m) = aria_pressed p.
Proof. unfold showToast. destruct (has_toast_container p); reflexivity. Qed.

Lemma showToast_toggle (p : page) (m : string) : has_toggle (showToast p m) = has_toggle p.
Proof. unfold showToast. destruct (has_toast_container p); reflexivity. Qed.

(** The theme a click selects. *)
Definition next_theme (p : page) : string :=
  let current := match data_theme p with
                 | Some t => if String.eqb t "" then "light" else t
                 | None => "light"
                 end in
  if String.eqb current "light" then "dark" else "light".

Lemma theme_click_eq (s : S) (p : page) :
  theme_click s p = (kv_set s "sp-theme" (next_theme p),
                     showToast (applyTheme p (next_theme p)) (capitalize (next_theme p) ++ " theme enabled")).
Proof. reflexivity. Qed.

Lemma next_theme_truthy (p : page) : truthy_item (Some (next_theme p)) = Some (next_theme p).
Proof. unfold next_theme. destruct (String.eqb _ "light"); reflexivity. Qed.

(** C17. Persistence round trip: after a click on the theme toggle, the
    stored [sp-theme] is the theme the page shows, and reloading the page
    ([initTheme] on the new store, whatever the system preference and the
    fresh page) shows that theme again. *)
Theorem theme_click_reload (s : S) (p p0 : page) (prefersDark : bool) :
  kv_get (fst (theme_click s p)) "sp-theme" = data_theme (snd (theme_click s p)) /\
  data_theme (initTheme prefersDark (fst (theme_click s p)) p0) = data_theme (snd (theme_click s p)).
Proof.
  rewrite theme_click_eq. cbn [fst snd]. rewrite showToast_theme, applyTheme_theme, kv_get_set_eq.
  split; [reflexivity|]. unfold initTheme. rewrite kv_get_set_eq, next_theme_truthy. reflexivity.
Qed.

(** Toggling: two clicks bring back a light or dark theme; any other
    value of [data-theme] (a stored ["blue"], say) is replaced by light on
    the first click. *)
Theorem theme_click_twice (s : S) (p : page) :
  (data_theme p = Some "light" \/ data_theme p = Some "dark") ->
  data_theme (snd (theme_click (fst (theme_click s p)) (snd (theme_click s p)))) = data_theme p.
Proof.
  intros Hp. rewrite !theme_click_eq. cbn [fst snd]. rewrite !showToast_theme, !applyTheme_theme.
  unfold next_theme. rewrite showToast_theme, applyTheme_theme.
  destruct Hp as [-> | ->]; reflexivity.
Qed.

(** [aria-pressed] says whether the theme shown is dark. *)
Definition pressed_consistent (p : page) : Prop :=
  has_toggle p = true ->
  aria_pressed p = Some (match data_theme p with
                         | Some t => if String.eqb t "dark" then "true" else "false"
                         | None => "false"
                         end).

Lemma applyTheme_consistent (p : page) (t : string) : pressed_consistent (applyTheme p t).
Proof. unfold pressed_consistent, applyTheme. simpl. intros ->. reflexivity. Qed.

(** C19. Accessibility state: [aria-pressed] of the toggle matches the
    theme after [initTheme], and every later click, cookie acceptance or
    cookie initialisation keeps it matching. *)
Theorem pressed_consistent_preserved (prefersDark : bool) (s s' : S) (p : page) :
  pressed_consistent (initTheme prefersDark s p) /\
  (pressed_consistent p -> pressed_consistent (snd (theme_click s' p))) /\
  (pressed_consistent p -> pressed_consistent (snd (accept_click s' p))) /\
  (pressed_consistent p -> pressed_consistent (initCookie s' p)).
Proof.
  split; [unfold initTheme; destruct (truthy_item _); apply applyTheme_consistent|].
  split; [|split].
  - intros _. rewrite theme_click_eq. cbn [snd]. unfold pressed_consistent.
    rewrite showToast_toggle, showToast_pressed, showToast_theme. apply applyTheme_consistent.
  - unfold pressed_consistent, accept_click. cbn [snd].
    rewrite showToast_toggle, showToast_pressed, showToast_theme.
    destruct (has_cookie_bar p); exact id.
  - unfold pressed_consistent, initCookie.
    destruct (truthy_item _); [exact id|]. destruct (has_cookie_bar p); exact id.
Qed.

(** C20. Cookie consent persists: after the accept button, the banner is
    hidden and a later load ([initCookie] on the new store) leaves every
    fresh page as it is, where before acceptance it shows the banner. *)
Theorem accept_then_reload (s : S) (p p0 : page) :
  has_cookie_bar p = true ->
  cookie_bar_hidden (snd (accept_click s p)) = Some "true" /\
  initCookie (fst (accept_click s p)) p0 = p0.
Proof.
  intros Hb. unfold accept_click. cbn [fst snd]. rewrite Hb. split.
  - unfold showToast. destruct (has_toast_container _); reflexivity.
  - unfold initCookie. rewrite kv_get_set_eq. reflexivity.
Qed.

(** The two features use distinct keys: a theme click leaves the
    cookie consent stored as it was, and accepting cookies leaves the
    stored theme as it was. *)
Theorem prefs_independent (s : S) (p : page) :
  kv_get (fst (theme_click s p)) "sp-cookies" = kv_get s "sp-cookies" /\
  kv_get (fst (accept_click s p)) "sp-theme" = kv_get s "sp-theme".
Proof.
  split.
  - rewrite theme_click_eq. apply kv_get_set_ne. discriminate.
  - apply kv_get_set_ne. discriminate.
Qed.
End Laws.

(** ** The specification's scenario, on a [gmap] store *)

Definition fresh_page : page :=
  {| data_theme := None; aria_pressed := None; cookie_bar_hidden := None; toasts := [];
     has_toggle := true; has_cookie_bar := true; has_toast_container := true |}.

(** No stored preference and a dark system preference: the page starts
    dark; one click stores and shows light and says so in a toast. *)
Example theme_scenario :
  let p1 := initTheme true (∅ : gmap string string) fresh_page in
  data_theme p1 = Some "dark" /\
  (fst (theme_click (∅ : gmap string string) p1)) !! "sp-theme" = Some "light" /\
  toasts (snd (theme_click (∅ : gmap string string) p1)) = ["Light theme enabled"].
Proof. repeat split; reflexivity. Qed.

Lemma theme_click_twice_witness :
  let p1 := initTheme true (∅ : gmap string string) fresh_page in
  (data_theme p1 = Some "light" \/ data_theme p1 = Some "dark") /\
  data_theme (snd (theme_click (fst (theme_click (∅ : gmap string string) p1))
                               (snd (theme_click (∅ : gmap string string) p1)))) = data_theme p1.
Proof.
  intros p1. assert (H : data_theme p1 = Some "light" \/ data_theme p1 = Some "dark")
    by (right; reflexivity).
  split; [exact H|]. apply (theme_click_twice (∅ : gmap string string) p1 H).
Defined.

Lemma accept_then_reload_witness :
  has_cookie_bar fresh_page = true /\
  cookie_bar_hidden (snd (accept_click (∅ : gmap string string) fresh_page)) = Some "true" /\
  initCookie (fst (accept_click (∅ : gmap string string) fresh_page)) fresh_page = fresh_page.
Proof.
  assert (H : has_cookie_bar fresh_page = true) by reflexivity.
  split; [exact H|]. apply (accept_then_reload (∅ : gmap string string) fresh_page fresh_page H).
Defined.

Lemma theme_click_reload_witness :
  kv_get (fst (theme_click (∅ : gmap string string) fresh_page)) "sp-theme" =
    data_theme (snd (theme_click (∅ : gmap string string) fresh_page)) /\
  data_theme (initTheme false (fst (theme_click (∅ : gmap string string) fresh_page)) fresh_page) =
    data_theme (snd (theme_click (∅ : gmap string string) fresh_page)).
Proof. exact (theme_click_reload (∅ : gmap string string) fresh_page fresh_page false). Defined.

Lemma pressed_consistent_preserved_witness :
  pressed_consistent (initTheme true (∅ : gmap string string) fresh_page) /\
  pressed_consistent (snd (theme_click (∅ : gmap string string) (initTheme true (∅ : gmap string string) fresh_page))).
Proof.
  pose proof (pressed_consistent_preserved true (∅ : gmap string string) (∅ : gmap string string) fresh_page) as [H0 _].
  split; [exact H0|].
  exact (proj1 (proj2 (pressed_consistent_preserved true (∅ : gmap string string) (∅ : gmap string string)
                         (initTheme true (∅ : gmap string string) fresh_page))) H0).
Defined.

Lemma prefs_independent_witness :
  kv_get (fst (theme_click (<["sp-cookies" := "1"]> (∅ : gmap string string)) fresh_page)) "sp-cookies" = Some "1".
Proof.
  rewrite (proj1 (prefs_independent (<["sp-cookies" := "1"]> (∅ : gmap string string)) fresh_page)).
  reflexivity.
Defined.
