(* ===== verification/Wallet.v ===== *)
(** * The simulated wallet connection (src/script.js, lines 190-257, 299-312)

    - [connect_click] (lines 196-206): opens [#walletModal] and focuses its
      first [.wallet-btn] ([querySelector] returns [null] when there is
      none, and [.focus()] then throws);
    - [close_click] (lines 207-212) and the Escape branch of the keydown
      handler, [escape_key] (lines 305-311), close it;
    - [wallet_click] (lines 213-224): builds the account label from the
      button's [data-wallet] and [Math.random()], writes it on the connect
      button, shows a toast and closes the modal; [wallet[0]] of a missing
      or empty attribute throws;
    - [generateShortId] (lines 255-257): ["SP-"] and eight base-36 digits of
      [Math.random()], as the specification describes it.

    A handler's effects before a throw stay on the page: each handler
    returns the page and, when it threw, the error.  [Math.random()] is an
    input, a rational in [0, 1).  The connect button's text contains a
    non-ASCII bullet, so it is kept as the pair (wallet label, account).

    The theorems: the modal's two attributes agree after every handler;
    Escape closes an open modal; the error paths; the shape of the
    generated identifiers and a value for which it is not 8 digits long. *)

From Stdlib Require Import QArith Qround Lqa Lia ZArith List String Ascii Bool.
From S2P Require Import Prelude JsNum JsString.
Import ListNotations.

#[local] Open Scope string_scope.

(** ** The page *)

Record modal := { m_aria_hidden : option string; m_display : option string }.

(** The connect button's label after a wallet was chosen. *)
Record connect_label := { cl_wallet : string; cl_account : string }.

Record wallet_page := {
  wallet_modal : option modal;          (** [#walletModal] *)
  modal_has_wallet_btn : bool;          (** [walletModal.querySelector('.wallet-btn')] *)
  has_close_btn : bool;                 (** [.modal-close] inside the modal *)
  has_connect_btn : bool;               (** [#connectWalletBtn] *)
  connect_text : option connect_label;
  connect_primary : bool;               (** class [btn-primary] *)
  focused_wallet_btn : bool;
  w_container : bool;                   (** [#toast-container] *)
  w_toasts : list string
}.

Definition with_modal (p : wallet_page) (m : option modal) : wallet_page :=
  {| wallet_modal := m; modal_has_wallet_btn := modal_has_wallet_btn p;
     has_close_btn := has_close_btn p; has_connect_btn := has_connect_btn p;
     connect_text := connect_text p; connect_primary := connect_primary p;
     focused_wallet_btn := focused_wallet_btn p; w_container := w_container p; w_toasts := w_toasts p |}.

Definition open_modal (m : modal) : modal :=
  {| m_aria_hidden := Some "false"; m_display := Some "flex" |}.

Definition closed_modal (m : modal) : modal :=
  {| m_aria_hidden := Some "true"; m_display := Some "none" |}.

(** [showToast]'s append, lines 14-18: only when [#toast-container]
    exists. *)
Definition push_toast {A} (has_container : bool) (ts : list A) (m : A) : list A :=
  if has_container then (ts ++ [m])%list else ts.

(** A handler's outcome: the page, and the error if it threw. *)
Definition outcome := (wallet_page * option js_error)%type.

(** ** Handlers *)

(** The connect button's click handler, lines 197-205. *)
Definition connect_click (p : wallet_page) : outcome :=
  match wallet_modal p with
  | None => (p, None)
  | Some m =>
      let p1 := with_modal p (Some (open_modal m)) in
      if modal_has_wallet_btn p then
        ({| wallet_modal := wallet_modal p1; modal_has_wallet_btn := modal_has_wallet_btn p1;
            has_close_btn := has_close_btn p1; has_connect_btn := has_connect_btn p1;
            connect_text := connect_text p1; connect_primary := connect_primary p1;
            focused_wallet_btn := true; w_container := w_container p1; w_toasts := w_toasts p1 |}, None)
      else (p1, Some TypeError)
  end.

(** The close button's click handler, lines 208-211 (registered only when
    the close button exists, which requires the modal). *)
Definition close_click (p : wallet_page) : outcome :=
  match wallet_modal p with
  | Some m => if has_close_btn p then (with_modal p (Some (closed_modal m)), None) else (p, None)
  | None => (p, None)
  end.

(** The Escape branch of the keydown handler, lines 305-311. *)
Definition escape_key (p : wallet_page) : outcome :=
  match wallet_modal p with
  | Some m =>
      match m_aria_hidden m with
      | Some s => if String.eqb s "false" then (with_modal p (Some (closed_modal m)), None)
                  else (p, None)
      | None => (p, None)
      end
  | None => (p, None)
  end.

(** [s[0].toUpperCase() + s.slice(1)]: [s[0]] of an empty string is
    [undefined], and [undefined.toUpperCase()] throws. *)
Definition capitalize_first (s : string) : completion string :=
  match s with
  | EmptyString => Throw TypeError
  | String c s' => Normal (String (upper_char c) s')
  end.

(** [Math.random().toString(16).slice(2,10).toUpperCase()] *)
Definition random_hex8 (r : Q) : string := to_upper (slice 2 10 (frac_to_string 16 r)).

(** The account shown for a wallet, line 217. *)
Definition fake_account (wallet : option string) (r : Q) : string :=
  match wallet with
  | Some w => if String.eqb w "phantom" then "Phantom: 0xDEAD...BEAF" else "0x" ++ random_hex8 r
  | None => "0x" ++ random_hex8 r
  end.

(** A [.wallet-btn]'s click handler, lines 214-223: [wallet] is the
    button's [data-wallet] ([undefined] when absent) and [r] the value of
    [Math.random()]. *)
Definition wallet_click (wallet : option string) (r : Q) (p : wallet_page) : outcome :=
  let account := fake_account wallet r in
  match wallet with
  | None => (p, Some TypeError)
  | Some w =>
      match capitalize_first w with
      | Throw e => (p, Some e)
      | Normal label =>
          if negb (has_connect_btn p) then (p, Some TypeError) else
          let p1 := {| wallet_modal := wallet_modal p; modal_has_wallet_btn := modal_has_wallet_btn p;
                       has_close_btn := has_close_btn p; has_connect_btn := has_connect_btn p;
                       connect_text := Some {| cl_wallet := label; cl_account := account |};
                       connect_primary := false; focused_wallet_btn := focused_wallet_btn p;
                       w_container := w_container p;
                       w_toasts := push_toast (w_container p) (w_toasts p) ("Connected with " ++ w) |} in
          match wallet_modal p1 with
          | Some m => (with_modal p1 (Some (closed_modal m)), None)
          | None => (p1, None)
          end
      end
  end.

(** [generateShortId()], lines 255-257, for [Math.random() = r]. *)
Definition generateShortId (r : Q) : string := "SP-" ++ to_upper (slice 2 10 (frac_to_string 36 r)).

(** ** Events *)

(** The events the wallet feature reacts to. *)
Inductive wallet_event :=
| EvConnect
| EvClose
| EvEscape
| EvWallet (wallet : option string) (r : Q).

Definition handle (ev : wallet_event) (p : wallet_page) : outcome :=
  match ev with
  | EvConnect => connect_click p
  | EvClose => close_click p
  | EvEscape => escape_key p
  | EvWallet w r => wallet_click w r p
  end.

(** The pages reachable from [p0] by events, errors included (a thrown
    error ends the handler, not the page). *)
Inductive wallet_reach (p0 : wallet_page) : wallet_page -> Prop :=
| wr_init : wallet_reach p0 p0
| wr_step p ev : wallet_reach p0 p -> wallet_reach p0 (fst (handle ev p)).

(** ** The modal's attributes agree *)

(** The modal is shown ([display: flex]) exactly when it is announced
    ([aria-hidden="false"]). *)
Definition modal_ok (om : option modal) : Prop :=
  match om with
  | None => True
  | Some m => m_aria_hidden m = Some "false" <-> m_display m = Some "flex"
  end.

(** A page with a closed modal, its buttons present. *)
Definition demo_wallet_page : wallet_page :=
  {| wallet_modal := Some {| m_aria_hidden := Some "true"; m_display := Some "none" |};
     modal_has_wallet_btn := true; has_close_btn := true; has_connect_btn := true;
     connect_text := None; connect_primary := true; focused_wallet_btn := false; w_container := true; w_toasts := [] |}.

(** The same page, its modal without a [.wallet-btn]. *)
Definition demo_page_no_btn : wallet_page :=
  {| wallet_modal := wallet_modal demo_wallet_page; modal_has_wallet_btn := false;
     has_close_btn := true; has_connect_btn := true; connect_text := None;
     connect_primary := true; focused_wallet_btn := false; w_container := true; w_toasts := [] |}.

Lemma open_modal_ok (m : modal) : modal_ok (Some (open_modal m)).
Proof. simpl. tauto. Qed.

Lemma closed_modal_ok (m : modal) : modal_ok (Some (closed_modal m)).
Proof. simpl. split; discriminate. Qed.

#[export] Hint Resolve open_modal_ok closed_modal_ok : js.

Lemma handle_modal_ok (ev : wallet_event) (p : wallet_page) :
  modal_ok (wallet_modal p) -> modal_ok (wallet_modal (fst (handle ev p))).
Proof.
  intros H. destruct ev as [| | |w r]; cbn [handle].
  - unfold connect_click. destruct (wallet_modal p) as [m|] eqn:E; [|cbn [fst]; rewrite E; exact I].
    destruct (modal_has_wallet_btn p); cbn [fst wallet_modal with_modal]; auto with js.
  - unfold close_click. destruct (wallet_modal p) as [m|] eqn:E; [|cbn [fst]; rewrite E; exact I].
    destruct (has_close_btn p); cbn [fst wallet_modal with_modal]; rewrite ?E; auto with js.
  - unfold escape_key. destruct (wallet_modal p) as [m|] eqn:E; [|cbn [fst]; rewrite E; exact I].
    destruct (m_aria_hidden m); [destruct (String.eqb _ _)|];
      cbn [fst wallet_modal with_modal]; rewrite ?E; auto with js.
  - unfold wallet_click. destruct w as [w|]; [|exact H].
    destruct (capitalize_first w); [|exact H]. destruct (has_connect_btn p); [|exact H].
    cbn [negb fst wallet_modal with_modal].
    destruct (wallet_modal p) as [m|]; cbn [fst wallet_modal with_modal]; auto with js.
Qed.

(** C22. Modal consistency: from a page whose modal's [aria-hidden] and
    [display] agree, every sequence of connect, close, Escape and wallet
    events, throwing ones included, keeps them in agreement. *)
Theorem wallet_modal_consistent (p0 p : wallet_page) :
  modal_ok (wallet_modal p0) -> wallet_reach p0 p -> modal_ok (wallet_modal p).
Proof. intros H0 Hr. induction Hr; [exact H0|]. apply handle_modal_ok. assumption. Qed.

(** Escape closes the open modal: when the modal is announced, the
    Escape key hides it and sets [display: none]; it does nothing to a
    closed one. *)
Theorem escape_closes (p : wallet_page) (m : modal) :
  wallet_modal p = Some m -> m_aria_hidden m = Some "false" ->
  wallet_modal (fst (escape_key p)) = Some {| m_aria_hidden := Some "true"; m_display := Some "none" |} /\
  snd (escape_key p) = None.
Proof. intros Hm Ha. unfold escape_key. rewrite Hm, Ha. split; reflexivity. Qed.

(** C24. Error paths: a wallet button without [data-wallet] (or with an
    empty one) throws a [TypeError] at [wallet[0].toUpperCase()] and leaves
    the page unchanged, modal open; opening a modal that has no
    [.wallet-btn] throws at [.focus()] after the modal is shown. *)
Theorem wallet_error_paths (r : Q) (p : wallet_page) (m : modal) :
  wallet_click None r p = (p, Some TypeError) /\
  wallet_click (Some "") r p = (p, Some TypeError) /\
  (wallet_modal p = Some m -> modal_has_wallet_btn p = false ->
   connect_click p = (with_modal p (Some (open_modal m)), Some TypeError)).
Proof.
  split; [reflexivity|]. split; [reflexivity|].
  intros Hm Hb. unfold connect_click. rewrite Hm, Hb. reflexivity.
Qed.

(** C25. Shape of the generated identifiers: for [0 <= Math.random() < 1]
    the identifier is ["SP-"] followed by [min 8 k] characters of
    [[0-9A-Z]], where [k] is the number of base-36 digits of the random
    value; it has eight only when the expansion has at least eight. *)
Theorem generateShortId_shape (r : Q) :
  0 <= r < 1 ->
  exists s, generateShortId r = "SP-" ++ s /\
            String.length s = Nat.min 8 (List.length (frac_digits 36 r 64)) /\
            all_chars is_upper_alnum s = true.
Proof.
  intros Hr. pose proof (frac_digits_range 36 r 64 ltac:(lia) Hr) as Hd.
  unfold generateShortId, frac_to_string.
  destruct (frac_digits 36 r 64) as [|d ds] eqn:E.
  - exists EmptyString. repeat split.
  - set (t := string_of_digits (d :: ds)).
    exists (to_upper (substring 0 8 t)). split; [reflexivity|]. split.
    + rewrite to_upper_length, substring0_length_min. unfold t.
      rewrite string_of_digits_length. reflexivity.
    + apply (all_chars_to_upper is_lower_alnum); [exact upper_char_upper_alnum|].
      apply all_chars_substring, string_of_digits_lower_alnum, Hd.
Qed.



Example generateShortId_half : generateShortId (inject_Z 18 / inject_Z 36) = "SP-I".
Proof. vm_compute. reflexivity. Qed.

(** ** Witnesses *)

Lemma wallet_modal_consistent_witness :
  modal_ok (wallet_modal demo_wallet_page) /\
  modal_ok (wallet_modal (fst (handle (EvWallet (Some "phantom") 0) (fst (handle EvConnect demo_wallet_page))))).
Proof.
  assert (H0 : modal_ok (wallet_modal demo_wallet_page)) by (simpl; split; discriminate).
  split; [exact H0|].
  apply (wallet_modal_consistent demo_wallet_page); [exact H0|].
  apply wr_step, wr_step, wr_init.
Defined.

Lemma escape_closes_witness :
  wallet_modal (fst (escape_key (fst (connect_click demo_wallet_page)))) =
    Some {| m_aria_hidden := Some "true"; m_display := Some "none" |} /\
  snd (escape_key (fst (connect_click demo_wallet_page))) = None.
Proof.
  apply (escape_closes _ {| m_aria_hidden := Some "false"; m_display := Some "flex" |});
    reflexivity.
Defined.

Lemma wallet_error_paths_witness :
  connect_click demo_page_no_btn =
    (with_modal demo_page_no_btn (Some (open_modal {| m_aria_hidden := Some "true"; m_display := Some "none" |})),
     Some TypeError).
Proof.
  exact (proj2 (proj2 (wallet_error_paths 0 demo_page_no_btn
           {| m_aria_hidden := Some "true"; m_display := Some "none" |})) eq_refl eq_refl).
Defined.


Lemma generateShortId_shape_witness :
  0 <= 12345#65536 < 1 /\
  exists s, generateShortId (12345#65536) = "SP-" ++ s /\
            String.length s = Nat.min 8 (List.length (frac_digits 36 (12345#65536) 64)) /\
            all_chars is_upper_alnum s = true.
Proof.
  assert (H : 0 <= 12345#65536 < 1) by (split; lra).
  split; [exact H|]. apply generateShortId_shape. exact H.
Defined.
