(* ===== verification/Widgets.v ===== *)
(** * The page's small handlers (src/script.js)

    - scroll progress bar, lines 67-72: [progress_width], [scroll_progress];
    - back-to-top button, lines 183-188: [back_to_top];
    - mobile menu, lines 157-165: [menu_click];
    - accordion, lines 170-178: [acc_click], [acc_click_at];
    - feature filter, lines 340-349: [filter_change];
    - newsletter form, lines 262-275: [newsletter_submit];
    - the ['/'] shortcut of the keydown handler, lines 299-304: [slash_key];
    - in-page links, lines 361-371: [link_click], and [link_event] over a
      [Dom.v] document, where an ['#name'] href is parsed by the CSS ident
      rule ([id_href]) and looked up with [querySelector];
    - ticker and minted-credentials span, lines 77-82 and 376-384:
      [initTicker], [mint_count], [mintDemo];
    - network switch and credential copy, lines 229-250: [network_change],
      [copy_click].

    Each handler is a function of the event's data and of the part of
    the page it reads and writes.  A handler that can throw returns a
    [completion], or its effects paired with the error when some effects
    come before the throw ([link_click]).  Numbers are the [num] of [JsNum]; [Math.random()] is
    an input in [0, 1).

    The theorems: the progress bar's width is within [0, 100] on a
    scrollable page and [NaN] on one that is not; the menu's and the
    accordion's attributes agree after every click; the filter's result
    depends only on the last choice; the newsletter accepts exactly the
    inputs whose trimmed text contains ['@']; a link to ['#name'] scrolls
    to the element of that [id] when [name] is a CSS identifier and throws
    a [SyntaxError] otherwise ([link_id_href]); the ticker's track is not two copies of one
    sequence after [mintDemo]; the minted count is within [200, 1199]. *)

From Stdlib Require Import QArith Qround Qminmax Lqa Lia ZArith List String Ascii Bool.
From S2P Require Import Prelude JsNum JsString Dom Wallet.
Import ListNotations.

#[local] Open Scope string_scope.

(** [String(b)] of a boolean. *)
Definition bool_string (b : bool) : string := if b then "true" else "false".

(** ** Scroll progress and back to top *)

Record scroll_env := { scrollY : Q; scrollHeight : Q; innerHeight : Q }.

(** [(window.scrollY / (scrollHeight - innerHeight)) * 100], line 69. *)
Definition scrolled (e : scroll_env) : num :=
  num_mul (num_div (Fin (scrollY e)) (num_sub (Fin (scrollHeight e)) (Fin (innerHeight e)))) (of_Z 100).

(** [Math.min(100, scrolled)], the number written before ['%'], line 70. *)
Definition progress_width (e : scroll_env) : num := num_min (of_Z 100) (scrolled e).

Record scroll_ui := {
  has_progress : bool;              (** [.scroll-progress] *)
  progress_style : option num;      (** its [style.width], as a number of percent *)
  has_back_btn : bool;              (** [.back-to-top] *)
  back_active : bool                (** its class [active] *)
}.

(** The scroll listener of lines 68-71. *)
Definition scroll_progress (e : scroll_env) (u : scroll_ui) : scroll_ui :=
  if has_progress u then
    {| has_progress := true; progress_style := Some (progress_width e);
       has_back_btn := has_back_btn u; back_active := back_active u |}
  else u.

(** The scroll listener of lines 184-188. *)
Definition back_to_top (e : scroll_env) (u : scroll_ui) : scroll_ui :=
  if negb (has_back_btn u) then u else
  {| has_progress := has_progress u; progress_style := progress_style u;
     has_back_btn := true; back_active := negb (Qle_bool (scrollY e) 400) |}.

(** A scroll event runs both listeners, in the order they were added. *)
Definition on_scroll (e : scroll_env) (u : scroll_ui) : scroll_ui :=
  back_to_top e (scroll_progress e u).

(** ** Mobile menu *)

Record menu := { toggle_expanded : option string; nav_hidden : option string }.

(** The click handler of lines 160-164. *)
Definition menu_click (m : menu) : menu :=
  let expanded := match toggle_expanded m with Some s => String.eqb s "true" | None => false end in
  {| toggle_expanded := Some (bool_string (negb expanded));
     nav_hidden := Some (bool_string expanded) |}.

(** ** Accordion *)

Record acc_item := {
  acc_header : bool;                (** [.accordion-header] *)
  acc_body : bool;                  (** [.accordion-body] *)
  acc_active : bool;                (** the item's class [active] *)
  acc_expanded : option string      (** the header's [aria-expanded] *)
}.

(** The header's click handler, lines 174-177; an item without a header
    or a body has none. *)
Definition acc_click (it : acc_item) : acc_item :=
  if acc_header it && acc_body it then
    let isActive := negb (acc_active it) in
    {| acc_header := true; acc_body := true; acc_active := isActive;
       acc_expanded := Some (if isActive then "true" else "false") |}
  else it.

(** A click on the header of the [i]-th [.accordion-item]. *)
Fixpoint acc_click_at (i : nat) (items : list acc_item) : list acc_item :=
  match items, i with
  | [], _ => []
  | it :: rest, O => acc_click it :: rest
  | it :: rest, S i' => it :: acc_click_at i' rest
  end.

(** ** Feature filter *)

Record card := { card_type : option string; card_display : option string }.

(** The change handler of lines 343-348 for the selected value [v]. *)
Definition filter_card (v : string) (c : card) : card :=
  if String.eqb v "all" || match card_type c with Some t => String.eqb t v | None => false end
  then {| card_type := card_type c; card_display := Some "" |}
  else {| card_type := card_type c; card_display := Some "none" |}.

Definition filter_change (v : string) (cards : list card) : list card := map (filter_card v) cards.

(** ** Newsletter form *)

(** The toasts of the form's handler. *)
Inductive nl_msg := EnterValidEmail | Subscribed.

Record nl_form := {
  nl_email : option string;         (** [#newsletterEmail]'s value, [None] when absent *)
  nl_container : bool;              (** [#toast-container], which [showToast] needs *)
  nl_toasts : list nl_msg
}.

(** The submit handler of lines 264-274.  [newsletter.reset()] restores
    the input to its default value, the empty string of the page's
    markup.  [$('#newsletterEmail').value] of a missing input throws. *)
Definition newsletter_submit (f : nl_form) : completion nl_form :=
  match nl_email f with
  | None => Throw TypeError
  | Some raw =>
      let email := trim raw in
      if String.eqb email "" || negb (includes_char "@"%char email) then
        Normal {| nl_email := Some raw; nl_container := nl_container f;
                  nl_toasts := push_toast (nl_container f) (nl_toasts f) EnterValidEmail |}
      else
        Normal {| nl_email := Some ""; nl_container := nl_container f;
                  nl_toasts := push_toast (nl_container f) (nl_toasts f) Subscribed |}
  end.

(** ** Keyboard shortcut ['/'] *)

Record kb_page := {
  active_tag : string;              (** [document.activeElement.tagName] *)
  has_search : bool;                (** [#credentialSearch] *)
  search_focused : bool;
  kb_prevented : bool;              (** [e.preventDefault()] was called *)
  kb_toasts : list string
}.

(** The ['/'] branch of the keydown handler, lines 300-304.  The search
    box [#credentialSearch] is a text input (its [value] is read at line
    245), so focusing it makes the active element an [INPUT]; [select()]
    only selects its text. *)
Definition slash_key (key : string) (p : kb_page) : kb_page :=
  if String.eqb key "/" && negb (String.eqb (active_tag p) "INPUT")
     && negb (String.eqb (active_tag p) "TEXTAREA") then
    {| active_tag := if has_search p then "INPUT" else active_tag p;
       has_search := has_search p;
       search_focused := has_search p || search_focused p;
       kb_prevented := true;
       kb_toasts := if has_search p then (kb_toasts p ++ ["Search focused"])%list else kb_toasts p |}
  else p.

(** The whole keydown handler, lines 299-311: the ['/'] branch, then the
    Escape branch of [Wallet.escape_key]. *)
Definition keydown (key : string) (p : kb_page) (w : wallet_page) : kb_page * wallet_page :=
  (slash_key key p, if String.eqb key "Escape" then fst (escape_key w) else w).

(** ** In-page links *)

(** The outcome of a click: whether the default navigation was prevented
    and whether a target was scrolled to. *)
Record link_outcome := { lk_prevented : bool; lk_scrolled : bool }.

Section Links.
(** [document.querySelector] throws a [SyntaxError] on a string that is
    not a selector ([css_valid]) and otherwise finds an element or not
    ([has_target]); both belong to the browser. *)
Variable css_valid : string -> bool.
Variable has_target : string -> bool.

(** The document's click handler, lines 361-370; [href] is the [href] of
    the closest [a[href^="#"]], [None] when there is none.  A throw
    happens after [e.preventDefault()]. *)
Definition link_click (href : option string) : link_outcome * option js_error :=
  match href with
  | None => ({| lk_prevented := false; lk_scrolled := false |}, None)
  | Some h =>
      if (1 <? String.length h)%nat then
        if css_valid h then ({| lk_prevented := true; lk_scrolled := has_target h |}, None)
        else ({| lk_prevented := true; lk_scrolled := false |}, Some SyntaxError)
      else ({| lk_prevented := false; lk_scrolled := false |}, None)
  end.
End Links.

(** ** In-page links on a document *)

(** CSS name characters: ASCII letters and digits, [_], [-], and every
    non-ASCII character; a name starts with a letter, [_] or a non-ASCII
    character. *)
Definition css_name_start (c : ascii) : bool :=
  let n := nat_of_ascii c in
  ((65 <=? n) && (n <=? 90) || (97 <=? n) && (n <=? 122) || (n =? 95) || (128 <=? n))%nat.

Definition css_name_char (c : ascii) : bool :=
  let n := nat_of_ascii c in (css_name_start c || (48 <=? n) && (n <=? 57) || (n =? 45))%nat.

(** A run of name characters after [#] forms an [id] selector when it
    starts an identifier (CSS Syntax, "would start an ident sequence"): a
    name-start character, or [-] followed by a name-start character or
    another [-].  Otherwise ([#2024], [#-1], [#-]) the hash token is not an
    [id] and the selector is invalid. *)
Definition css_ident (name : list ascii) : bool :=
  match name with
  | [] => false
  | c :: rest =>
      if (nat_of_ascii c =? 45)%nat then
        match rest with
        | c2 :: _ => css_name_start c2 || (nat_of_ascii c2 =? 45)%nat
        | [] => false
        end
      else css_name_start c
  end.

(** The selector [querySelector] parses an [href] of the form [#name],
    [name] made of name characters, into: [Some (Some sel)] an [id]
    selector, [Some None] a syntax error.  [None] for any other [href],
    whose selector syntax the model leaves to [other_valid]. *)
Definition id_href (h : string) : option (option selector) :=
  match list_ascii_of_string h with
  | c :: name =>
      if Ascii.eqb c "#" && forallb css_name_char name then
        Some (if css_ident name then Some [Compound [SId (string_of_list_ascii name)]] else None)
      else None
  | [] => None
  end.

Section LinksDoc.
Variables (other_valid other_target : string -> bool) (doc : list node).

Definition href_valid (h : string) : bool :=
  match id_href h with
  | Some (Some _) => true
  | Some None => false
  | None => other_valid h
  end.

(** [document.querySelector(href)] found an element. *)
Definition href_target (h : string) : bool :=
  match id_href h with
  | Some (Some sel) => match querySelector sel doc with Some _ => true | None => false end
  | Some None => false
  | None => other_target h
  end.

(** The document's click handler for a click on [t], whose ancestors are
    [anc]: [e.target.closest('a[href^="#"]')], its [href], and the rest
    of the handler, lines 361-371. *)
Definition link_event (t : elem) (anc : list elem) : link_outcome * option js_error :=
  link_click href_valid href_target
    (match closest anchor_selector t anc with Some a => get_attr a "href" | None => None end).
End LinksDoc.

(** ** Ticker, minted-credentials span, network switch, copy *)

Inductive ticker_child := Static (html : string) | MintSpan (count : num).

(** [initTicker()], lines 77-82: [track.innerHTML += track.innerHTML]. *)
Definition initTicker (track : option (list ticker_child)) : option (list ticker_child) :=
  match track with Some l => Some (l ++ l)%list | None => None end.

(** [Math.floor(200 + Math.random()*1000)], line 380. *)
Definition mint_count (r : Q) : num := num_floor (num_add (of_Z 200) (num_mul (Fin r) (of_Z 1000))).

(** [mintDemo()], lines 377-384. *)
Definition mintDemo (r : Q) (track : option (list ticker_child)) : option (list ticker_child) :=
  match track with Some l => Some (l ++ [MintSpan (mint_count r)])%list | None => None end.

(** The network switch's change handler, lines 230-233. *)
Definition network_change (has_container : bool) (net : string) (ts : list string) : list string :=
  push_toast has_container ts ("Switched network to " ++ to_upper net).

(** The copy button's click handler, lines 241-249: [value] is the
    search input's value, [r] the value of [Math.random()] and [ok]
    whether [navigator.clipboard.writeText] resolved.  It returns the
    clipboard's new content and the toast. *)
Definition copy_click (value : string) (r : Q) (ok : bool) : option string * string :=
  let text := if String.eqb value "" then generateShortId r else value in
  if ok then (Some text, "Credential ID copied to clipboard") else (None, "Copy failed").

(** A selector check that refuses an [id] starting with a digit, as the
    CSS grammar does. *)
Definition digit_id_invalid (s : string) : bool :=
  match s with String "#" (String c _) => negb (is_digit 10 c) | _ => true end.

(** ** Invariants *)

(** An accordion item with a header and a body announces its state. *)
Definition acc_ok (it : acc_item) : Prop :=
  acc_header it && acc_body it = true -> acc_expanded it = Some (bool_string (acc_active it)).

(** ** Lemmas *)

Lemma scrolled_fin (e : scroll_env) :
  ~ scrollHeight e - innerHeight e == 0 ->
  scrolled e = Fin (scrollY e / (scrollHeight e - innerHeight e) * 100).
Proof. intros H. unfold scrolled. rewrite num_sub_fin, num_div_fin by exact H. reflexivity. Qed.

Lemma acc_click_ok (it : acc_item) : acc_ok (acc_click it).
Proof.
  unfold acc_ok, acc_click. destruct (acc_header it && acc_body it) eqn:E; [|congruence].
  intros _. simpl. destruct (acc_active it); reflexivity.
Qed.

Lemma acc_click_at_other (i j : nat) (items : list acc_item) :
  i <> j -> nth_error (acc_click_at i items) j = nth_error items j.
Proof.
  revert i j. induction items as [|it items IH]; intros [|i] [|j] Hij; simpl; auto; lia.
Qed.

Lemma acc_click_at_Forall (i : nat) (items : list acc_item) :
  Forall acc_ok items -> Forall acc_ok (acc_click_at i items).
Proof.
  revert i. induction items as [|it items IH]; intros [|i] H; inversion H; subst; simpl;
    constructor; auto using acc_click_ok.
Qed.

Lemma filter_card_idem (v v' : string) (c : card) :
  filter_card v (filter_card v' c) = filter_card v c.
Proof. unfold filter_card at 2. destruct (_ || _); reflexivity. Qed.

Lemma includes_char_empty_guard (c : ascii) (s : string) :
  String.eqb s "" || negb (includes_char c s) = negb (includes_char c s).
Proof. destruct s; reflexivity. Qed.

#[export] Hint Resolve acc_click_ok acc_click_at_Forall : js.

(** ** Properties *)

Lemma length_string_of_list_ascii (l : list ascii) :
  String.length (string_of_list_ascii l) = List.length l.
Proof. induction l; simpl; congruence. Qed.

(** C21. In-page links to an [id]: for a click inside an anchor whose
    [href] is [#name], [name] made of CSS name characters, the handler
    prevents the navigation and scrolls exactly when an element has that
    [id], if [name] is a CSS identifier; otherwise ([#2024], [#-1], [#-])
    [document.querySelector] throws a [SyntaxError] and nothing scrolls. *)
Theorem link_id_href (other_valid other_target : string -> bool) (doc : list node)
    (t a : elem) (anc : list elem) (name : list ascii) :
  closest anchor_selector t anc = Some a ->
  get_attr a "href" = Some (string_of_list_ascii ("#"%char :: name)) ->
  name <> [] -> forallb css_name_char name = true ->
  link_event other_valid other_target doc t anc =
  if css_ident name then
    ({| lk_prevented := true;
        lk_scrolled := match querySelector [Compound [SId (string_of_list_ascii name)]] doc with
                       | Some _ => true | None => false end |}, None)
  else ({| lk_prevented := true; lk_scrolled := false |}, Some SyntaxError).
Proof.
  intros Hc Hh Hne Hn. unfold link_event. rewrite Hc, Hh. unfold link_click.
  rewrite length_string_of_list_ascii.
  destruct name as [|c name]; [congruence|]. cbn [List.length Nat.ltb Nat.leb].
  unfold href_valid, href_target, id_href. rewrite list_ascii_of_string_of_list_ascii.
  cbn [Ascii.eqb Bool.eqb andb]. rewrite Hn. destruct (css_ident (c :: name)); reflexivity.
Qed.

(** C27. Scroll progress bounds: on a scrollable page ([innerHeight <
    scrollHeight]) and for [scrollY >= 0], the width written is
    [min(100, 100 * scrollY / (scrollHeight - innerHeight))], a number
    within [0, 100]. *)
Theorem scroll_progress_range (e : scroll_env) :
  0 <= scrollY e -> innerHeight e < scrollHeight e ->
  progress_width e = Fin (Qmin 100 (scrollY e / (scrollHeight e - innerHeight e) * 100)) /\
  0 <= Qmin 100 (scrollY e / (scrollHeight e - innerHeight e) * 100) <= 100.
Proof.
  intros Hy Hh. unfold progress_width. rewrite scrolled_fin by lra.
  change (of_Z 100) with (Fin 100). rewrite num_min_fin. split; [reflexivity|].
  assert (0 <= scrollY e / (scrollHeight e - innerHeight e)).
  { apply Qle_shift_div_l; lra. }
  split; [apply Q.min_glb; lra | apply Q.le_min_l].
Qed.

(** C28. On a page that does not scroll ([scrollHeight = innerHeight])
    the ratio is [0/0] at the top: the width written is [NaN] (the style
    ["NaN%"], which the browser ignores); any scroll offset above zero
    gives [Infinity] and the width 100. *)
Theorem scroll_progress_unscrollable (h y : Q) :
  progress_width {| scrollY := 0; scrollHeight := h; innerHeight := h |} = NaN /\
  (0 < y -> progress_width {| scrollY := y; scrollHeight := h; innerHeight := h |} = of_Z 100).
Proof.
  assert (Hz : Qeq_bool (h - h) 0 = true) by (apply Qeq_bool_iff; ring).
  unfold progress_width, scrolled. cbn [scrollY scrollHeight innerHeight].
  rewrite num_sub_fin. cbn [num_div]. rewrite Hz. split; [reflexivity|].
  intros Hy. unfold scale_inf.
  destruct (Qeq_bool y 0) eqn:E1; [apply Qeq_bool_iff in E1; lra|].
  destruct (Qle_bool y 0) eqn:E2; [apply Qle_bool_iff in E2; lra|]. reflexivity.
Qed.

(** C29. Mobile menu: after any click, the toggle is expanded exactly
    when the navigation is shown, whatever the attributes were before;
    from then on clicks alternate between two states. *)
Theorem menu_click_consistent (m : menu) :
  (toggle_expanded (menu_click m) = Some "true" <-> nav_hidden (menu_click m) = Some "false") /\
  menu_click (menu_click (menu_click m)) = menu_click m.
Proof.
  unfold menu_click. destruct (toggle_expanded m) as [s|]; [destruct (String.eqb s "true")|];
    simpl; (split; [split; congruence | reflexivity]).
Qed.

(** C30. Accordion: a click on the [i]-th item keeps every item's
    [aria-expanded] in agreement with its [active] class, and changes no
    other item. *)
Theorem acc_click_at_spec (i : nat) (items : list acc_item) :
  Forall acc_ok items ->
  Forall acc_ok (acc_click_at i items) /\
  (forall j, i <> j -> nth_error (acc_click_at i items) j = nth_error items j).
Proof. intros H. split; [auto with js | intros j; apply acc_click_at_other]. Qed.

(** Feature filter: a card is shown exactly when the choice is
    ["all"] or the card's [data-type]; the display depends only on the
    last choice, not on earlier ones. *)
Theorem filter_change_spec (v v' : string) (cards : list card) :
  filter_change v (filter_change v' cards) = filter_change v cards /\
  Forall2 (fun c c' => card_display c' = Some "" <-> v = "all" \/ card_type c = Some v)
          cards (filter_change v cards).
Proof.
  split.
  - unfold filter_change. rewrite map_map. apply map_ext. apply filter_card_idem.
  - induction cards as [|c cards IH]; constructor; [|exact IH].
    unfold filter_card. destruct (String.eqb_spec v "all") as [->|Hv]; simpl.
    + split; auto.
    + destruct (card_type c) as [t|]; [destruct (String.eqb_spec t v) as [->|Ht]|]; simpl;
        split; intros H; try congruence; intuition congruence.
Qed.

(** C32. Newsletter: with the email input present, a submit accepts the
    input exactly when its trimmed value contains ['@'] (the empty test is
    subsumed), shows the matching toast, and clears the input only when
    it accepts. *)
Theorem newsletter_submit_spec (f : nl_form) (raw : string) :
  nl_email f = Some raw ->
  newsletter_submit f =
    Normal {| nl_email := if includes_char "@" (trim raw) then Some "" else Some raw;
              nl_container := nl_container f;
              nl_toasts := push_toast (nl_container f) (nl_toasts f)
                             (if includes_char "@" (trim raw) then Subscribed else EnterValidEmail) |}.
Proof.
  intros H. unfold newsletter_submit. rewrite H, includes_char_empty_guard.
  destruct (includes_char "@" (trim raw)); reflexivity.
Qed.

(** C33. Error paths that the specification excludes ("no crash
    paths"): submitting the form without [#newsletterEmail] throws a
    [TypeError], and a link whose [href] is longer than ["#"] but not a
    selector throws a [SyntaxError] after [e.preventDefault()], so the
    link neither navigates nor scrolls. *)
Theorem widget_error_paths (css_valid has_target : string -> bool) (f : nl_form) (h : string) :
  nl_email f = None -> newsletter_submit f = Throw TypeError /\
  (css_valid h = false -> (1 < String.length h)%nat ->
   link_click css_valid has_target (Some h) =
     ({| lk_prevented := true; lk_scrolled := false |}, Some SyntaxError)).
Proof.
  intros Hf. split; [unfold newsletter_submit; rewrite Hf; reflexivity|].
  intros Hv Hl. unfold link_click. apply Nat.ltb_lt in Hl. rewrite Hl, Hv. reflexivity.
Qed.

(** C34. The ticker's loop is not seamless: after [initTicker] doubled
    the track, [mintDemo] appends one span, so the track is never two
    copies of one sequence, which the CSS loop relies on. *)
Theorem ticker_not_doubled (r : Q) (l t : list ticker_child) :
  mintDemo r (initTicker (Some l)) = Some t -> ~ exists h, t = (h ++ h)%list.
Proof.
  cbn [initTicker mintDemo]. intros Ht [h ->]. injection Ht as Ht.
  apply (f_equal (@List.length ticker_child)) in Ht. rewrite !app_length in Ht. simpl in Ht. lia.
Qed.


(** The ['/'] shortcut: typed into an [INPUT] or a [TEXTAREA] it is
    left alone; anywhere else its default is prevented and, when the
    search box exists, the search box gets the focus and a toast. *)
Theorem slash_key_spec (p : kb_page) :
  ((active_tag p = "INPUT" \/ active_tag p = "TEXTAREA") -> slash_key "/" p = p) /\
  (active_tag p <> "INPUT" -> active_tag p <> "TEXTAREA" ->
   kb_prevented (slash_key "/" p) = true /\
   (has_search p = true -> search_focused (slash_key "/" p) = true /\
                           kb_toasts (slash_key "/" p) = (kb_toasts p ++ ["Search focused"])%list)).
Proof.
  unfold slash_key. cbn [String.eqb Ascii.eqb Bool.eqb andb]. split.
  - intros [-> | ->]; reflexivity.
  - intros H1 H2. apply String.eqb_neq in H1, H2. rewrite H1, H2. simpl.
    split; [reflexivity|]. intros ->. split; reflexivity.
Qed.

(** ** Witnesses *)

Lemma scroll_progress_range_witness :
  progress_width {| scrollY := 300; scrollHeight := 1600; innerHeight := 800 |} = Fin (Qmin 100 (300 / (1600 - 800) * 100)) /\
  0 <= Qmin 100 (300 / (1600 - 800) * 100) <= 100.
Proof. apply (scroll_progress_range {| scrollY := 300; scrollHeight := 1600; innerHeight := 800 |}); simpl; lra. Defined.

Lemma scroll_progress_unscrollable_witness :
  progress_width {| scrollY := 5; scrollHeight := 700; innerHeight := 700 |} = of_Z 100.
Proof. apply (proj2 (scroll_progress_unscrollable 700 5)). lra. Defined.

Lemma acc_click_at_spec_witness :
  Forall acc_ok (acc_click_at 1 [{| acc_header := true; acc_body := true; acc_active := false; acc_expanded := Some "false" |};
                                 {| acc_header := true; acc_body := false; acc_active := false; acc_expanded := None |}]).
Proof.
  apply acc_click_at_spec. repeat constructor; unfold acc_ok; simpl; congruence.
Defined.

Lemma newsletter_submit_spec_witness :
  newsletter_submit {| nl_email := Some " @ "; nl_container := true; nl_toasts := [] |} =
    Normal {| nl_email := Some ""; nl_container := true; nl_toasts := [Subscribed] |}.
Proof. exact (newsletter_submit_spec {| nl_email := Some " @ "; nl_container := true; nl_toasts := [] |} " @ " eq_refl). Defined.

Lemma widget_error_paths_witness :
  link_click digit_id_invalid (fun _ => true) (Some "#2024") =
    ({| lk_prevented := true; lk_scrolled := false |}, Some SyntaxError).
Proof.
  exact (proj2 (widget_error_paths digit_id_invalid (fun _ => true)
           {| nl_email := None; nl_container := true; nl_toasts := [] |} "#2024" eq_refl)
           eq_refl ltac:(simpl; lia)).
Defined.

Lemma ticker_not_doubled_witness :
  ~ exists h, ([Static "a"; Static "a"; MintSpan (mint_count 0)] = h ++ h)%list.
Proof. exact (ticker_not_doubled 0 [Static "a"] _ eq_refl). Defined.


Lemma slash_key_spec_witness :
  search_focused (slash_key "/" {| active_tag := "BODY"; has_search := true; search_focused := false;
                                   kb_prevented := false; kb_toasts := [] |}) = true.
Proof.
  apply (slash_key_spec {| active_tag := "BODY"; has_search := true; search_focused := false;
                           kb_prevented := false; kb_toasts := [] |}); simpl; congruence.
Defined.

(** A page with a section [#team] and two anchors. *)
Definition team_link : elem := mk_elem 10 "a" None [] [("href", "#team")].
Definition year_link : elem := mk_elem 11 "a" None [] [("href", "#2024")].
Definition links_doc : list node :=
  [Node (mk_elem 0 "body" None [] [])
     [Node team_link []; Node year_link []; Node (mk_elem 12 "section" (Some "team") [] []) []]].

Lemma link_id_href_witness :
  link_event (fun _ => true) (fun _ => false) links_doc team_link [] =
    ({| lk_prevented := true; lk_scrolled := true |}, None) /\
  link_event (fun _ => true) (fun _ => false) links_doc year_link [] =
    ({| lk_prevented := true; lk_scrolled := false |}, Some SyntaxError).
Proof.
  split.
  - exact (link_id_href _ _ links_doc team_link team_link [] (list_ascii_of_string "team")
             eq_refl eq_refl ltac:(discriminate) eq_refl).
  - exact (link_id_href _ _ links_doc year_link year_link [] (list_ascii_of_string "2024")
             eq_refl eq_refl ltac:(discriminate) eq_refl).
Defined.
