(* ===== verification/Toasts.v ===== *)
(** * Toasts and their timers (src/script.js, lines 13-24)

    [showToast(message, timeout = 3000)] appends a [.toast] to
    [#toast-container] (nothing when the container is missing) and
    schedules two timers: after 20 ms the class [visible] is added, after
    [timeout + 200] ms the toast is removed.  The timers run on the event
    loop: a timer whose delay has elapsed fires, in the order of its due
    time and, for equal due times, of its scheduling ([setTimeout] clamps a
    negative delay to 0).

    The state is the list of toasts created (their message, creation time,
    timeout, and the two flags the timers change) and the queue of pending
    timers.  [run_until] fires, in event-loop order, the timers due by a
    given time; [toast_run] interleaves the [showToast] calls of a session
    with the timers due before each call.

    The theorem: at any time [T] after a session of calls, a toast is shown
    ([visible]) exactly when 20 ms have passed since its call and still in
    the page exactly until [max(0, timeout + 200)] ms have passed, whatever
    the interleaving of the calls' timers ([toast_lifetime], proved from
    the invariant [toast_inv] that [run_until] and [showToast_at] keep);
    [toast_demo] runs a session where a toast of the default timeout is
    gone after 3200 ms. *)

From Stdlib Require Import PeanoNat QArith Qminmax Lqa Lia List String Bool Permutation.
From S2P Require Import Prelude.
Import ListNotations.

#[local] Open Scope Q_scope.

(** ** State *)

Record toast := {
  t_id : nat;                     (** its position among the toasts created *)
  t_msg : string;
  t_created : Q;
  t_timeout : Q;
  t_visible : bool;               (** class [visible] *)
  t_attached : bool               (** still in [#toast-container] *)
}.

Inductive timer_action := AddVisible (i : nat) | RemoveToast (i : nat).

Record timer := { tm_due : Q; tm_seq : nat; tm_action : timer_action }.

Record toast_state := {
  ts_container : bool;
  ts_toasts : list toast;
  ts_timers : list timer;         (** pending timers *)
  ts_seq : nat                    (** timers scheduled so far *)
}.

(** [setTimeout(cb, delay)] at time [now]: due at [now + max(0, delay)]. *)
Definition due_at (now delay : Q) : Q := now + Qmax 0 delay.

(** [showToast(message, timeout)] at time [now], lines 13-24. *)
Definition showToast_at (now : Q) (message : string) (timeout : Q) (st : toast_state) : toast_state :=
  if negb (ts_container st) then st else
  let i := List.length (ts_toasts st) in
  {| ts_container := true;
     ts_toasts := ts_toasts st ++ [{| t_id := i; t_msg := message; t_created := now;
                                      t_timeout := timeout; t_visible := false; t_attached := true |}];
     ts_timers := ts_timers st ++
                  [{| tm_due := due_at now 20; tm_seq := ts_seq st; tm_action := AddVisible i |};
                   {| tm_due := due_at now (timeout + 200); tm_seq := S (ts_seq st);
                      tm_action := RemoveToast i |}];
     ts_seq := S (S (ts_seq st)) |}.

(** A timer's callback on one toast: [t.classList.add('visible')] (also on
    a toast already removed) and [t.remove()]. *)
Definition act (a : timer_action) (t : toast) : toast :=
  match a with
  | AddVisible i =>
      if Nat.eqb (t_id t) i then
        {| t_id := t_id t; t_msg := t_msg t; t_created := t_created t; t_timeout := t_timeout t;
           t_visible := true; t_attached := t_attached t |}
      else t
  | RemoveToast i =>
      if Nat.eqb (t_id t) i then
        {| t_id := t_id t; t_msg := t_msg t; t_created := t_created t; t_timeout := t_timeout t;
           t_visible := t_visible t; t_attached := false |}
      else t
  end.

Definition fire (ts : list toast) (tm : timer) : list toast := map (act (tm_action tm)) ts.

(** ** The event loop *)

(** Timer [a] fires before timer [b]. *)
Definition timer_before (a b : timer) : bool :=
  Qle_bool (tm_due a) (tm_due b) && negb (Qeq_bool (tm_due a) (tm_due b))
  || Qeq_bool (tm_due a) (tm_due b) && Nat.leb (tm_seq a) (tm_seq b).

Fixpoint insert_timer (t : timer) (l : list timer) : list timer :=
  match l with
  | [] => [t]
  | u :: l' => if timer_before t u then t :: l else u :: insert_timer t l'
  end.

Fixpoint sort_timers (l : list timer) : list timer :=
  match l with
  | [] => []
  | t :: l' => insert_timer t (sort_timers l')
  end.

(** Fire, in order, the timers due by [T]; keep the others. *)
Definition run_until (T : Q) (st : toast_state) : toast_state :=
  let due := filter (fun tm => Qle_bool (tm_due tm) T) (ts_timers st) in
  {| ts_container := ts_container st;
     ts_toasts := fold_left fire (sort_timers due) (ts_toasts st);
     ts_timers := filter (fun tm => negb (Qle_bool (tm_due tm) T)) (ts_timers st);
     ts_seq := ts_seq st |}.

(** A session: [showToast(message, timeout)] calls at their times, each
    after the timers due by then. *)
Fixpoint toast_calls (calls : list (Q * string * Q)) (st : toast_state) : toast_state :=
  match calls with
  | [] => st
  | (now, m, tmo) :: calls' => toast_calls calls' (showToast_at now m tmo (run_until now st))
  end.

Definition toast_start : toast_state :=
  {| ts_container := true; ts_toasts := []; ts_timers := []; ts_seq := 0 |}.

(** The toasts at time [T] after the session. *)
Definition toast_run (calls : list (Q * string * Q)) (T : Q) : list toast :=
  ts_toasts (run_until T (toast_calls calls toast_start)).

(** ** Specification *)

(** The toast of the [j]-th call as the page shows it at time [T]. *)
Definition toast_at (T : Q) (j : nat) (call : Q * string * Q) : toast :=
  let '(now, m, tmo) := call in
  {| t_id := j; t_msg := m; t_created := now; t_timeout := tmo;
     t_visible := Qle_bool (due_at now 20) T;
     t_attached := negb (Qle_bool (due_at now (tmo + 200)) T) |}.

(** [l.map((x, k) => f(j + k, x))]. *)
Fixpoint mapi_from {A B} (f : nat -> A -> B) (j : nat) (l : list A) : list B :=
  match l with
  | [] => []
  | x :: l' => f j x :: mapi_from f (S j) l'
  end.

Definition toasts_spec (T : Q) (calls : list (Q * string * Q)) : list toast :=
  mapi_from (toast_at T) 0 calls.

(** ** Timer actions *)

Definition action_eqb (a b : timer_action) : bool :=
  match a, b with
  | AddVisible i, AddVisible j | RemoveToast i, RemoveToast j => Nat.eqb i j
  | _, _ => false
  end.

Definition action_index (a : timer_action) : nat :=
  match a with AddVisible i | RemoveToast i => i end.

(** Whether a timer of action [a] is in [l]. *)
Definition pend (a : timer_action) (l : list timer) : bool :=
  existsb (fun tm => action_eqb (tm_action tm) a) l.

(** The due time the [j]-th call gives its timer of action [a]. *)
Definition due_of (calls : list (Q * string * Q)) (a : timer_action) : Q :=
  match nth_error calls (action_index a) with
  | Some (now, _, tmo) =>
      match a with
      | AddVisible _ => due_at now 20
      | RemoveToast _ => due_at now (tmo + 200)
      end
  | None => 0
  end.

(** The toast of call [j] with flags read off the pending timers. *)
Definition toast_pending (l : list timer) (j : nat) (call : Q * string * Q) : toast :=
  let '(now, m, tmo) := call in
  {| t_id := j; t_msg := m; t_created := now; t_timeout := tmo;
     t_visible := negb (pend (AddVisible j) l); t_attached := pend (RemoveToast j) l |}.


(** The invariant of a session whose calls were [calls], all before [T]:
    the toasts are those of the calls, each flag set exactly when its
    timer has fired; each pending timer is due when its call asked; and a
    timer that fired was due by [T]. *)
Record toast_inv (T : Q) (calls : list (Q * string * Q)) (st : toast_state) : Prop := {
  inv_container : ts_container st = true;
  inv_toasts : ts_toasts st = mapi_from (toast_pending (ts_timers st)) 0 calls;
  inv_due : Forall (fun tm => tm_due tm = due_of calls (tm_action tm) /\
                              (action_index (tm_action tm) < List.length calls)%nat) (ts_timers st);
  inv_fired : forall a, (action_index a < List.length calls)%nat ->
              pend a (ts_timers st) = false -> due_of calls a <= T
}.

(** ** Lemmas *)

Section MapiFrom.
Context {A B : Type}.

Lemma mapi_from_ext (f g : nat -> A -> B) (j : nat) (l : list A) :
  (forall k x, nth_error l k = Some x -> f (j + k)%nat x = g (j + k)%nat x) ->
  mapi_from f j l = mapi_from g j l.
Proof.
  revert j. induction l as [|x l IH]; intros j H; simpl; [reflexivity|].
  f_equal.
  - specialize (H 0%nat x eq_refl). rewrite Nat.add_0_r in H. exact H.
  - apply IH. intros k y Hk. replace (S j + k)%nat with (j + S k)%nat by lia. apply (H (S k)). exact Hk.
Qed.

Lemma mapi_from_app (f : nat -> A -> B) (j : nat) (l : list A) (x : A) :
  mapi_from f j (l ++ [x]) = mapi_from f j l ++ [f (j + List.length l)%nat x].
Proof.
  revert j. induction l as [|y l IH]; intros j; simpl.
  - rewrite Nat.add_0_r. reflexivity.
  - rewrite IH, Nat.add_succ_r. reflexivity.
Qed.

Lemma mapi_from_length (f : nat -> A -> B) (j : nat) (l : list A) :
  List.length (mapi_from f j l) = List.length l.
Proof. revert j. induction l; intros j; simpl; auto. Qed.

Lemma map_mapi_from {C} (h : B -> C) (f : nat -> A -> B) (j : nat) (l : list A) :
  map h (mapi_from f j l) = mapi_from (fun k x => h (f k x)) j l.
Proof. revert j. induction l; intros j; simpl; f_equal; auto. Qed.

End MapiFrom.

Lemma action_eqb_eq (a b : timer_action) : action_eqb a b = true <-> a = b.
Proof.
  destruct a as [i|i], b as [j|j]; simpl; rewrite ?Nat.eqb_eq; split; congruence.
Qed.

Lemma pend_app (a : timer_action) (l1 l2 : list timer) :
  pend a (l1 ++ l2) = pend a l1 || pend a l2.
Proof. apply existsb_app. Qed.

Lemma pend_perm (a : timer_action) (l l' : list timer) :
  Permutation l l' -> pend a l = pend a l'.
Proof.
  induction 1; simpl; try congruence.
  rewrite !orb_assoc, (orb_comm (action_eqb (tm_action x) a)). reflexivity.
Qed.

Lemma insert_timer_perm (t : timer) (l : list timer) : Permutation (insert_timer t l) (t :: l).
Proof.
  induction l as [|u l IH]; simpl; [reflexivity|].
  destruct (timer_before t u); [reflexivity|].
  rewrite IH. apply perm_swap.
Qed.

Lemma sort_timers_perm (l : list timer) : Permutation (sort_timers l) l.
Proof.
  induction l as [|t l IH]; simpl; [reflexivity|].
  rewrite insert_timer_perm. auto.
Qed.

(** Timers of the same action are due at the same time, so filtering the
    queue on due times keeps an action's timers all or none. *)
Lemma pend_filter (calls : list (Q * string * Q)) (p : Q -> bool) (a : timer_action) (l : list timer) :
  Forall (fun tm => tm_due tm = due_of calls (tm_action tm)) l ->
  pend a (filter (fun tm => p (tm_due tm)) l) = pend a l && p (due_of calls a).
Proof.
  induction 1 as [|tm l Hd _ IH]; simpl; [reflexivity|].
  destruct (action_eqb (tm_action tm) a) eqn:E.
  - apply action_eqb_eq in E. rewrite Hd, E.
    destruct (p (due_of calls a)); simpl; rewrite ?E, ?IH; simpl;
      rewrite ?(proj2 (action_eqb_eq a a) eq_refl); [reflexivity|].
    destruct (pend a l); reflexivity.
  - destruct (p (tm_due tm)); simpl; rewrite ?E; simpl; exact IH.
Qed.

(** Firing a list of timers on the toasts applies every callback to each
    toast; a toast's flags then say whether one of the timers was its own. *)
Definition act_all (L : list timer) (t : toast) : toast :=
  fold_left (fun t tm => act (tm_action tm) t) L t.

Lemma fold_fire (L : list timer) (ts : list toast) :
  fold_left fire L ts = map (act_all L) ts.
Proof.
  revert ts. induction L as [|tm L IH]; intros ts; simpl.
  - symmetry. apply map_id.
  - rewrite IH. unfold fire. rewrite map_map. reflexivity.
Qed.

Lemma act_all_spec (L : list timer) (t : toast) :
  act_all L t =
  {| t_id := t_id t; t_msg := t_msg t; t_created := t_created t; t_timeout := t_timeout t;
     t_visible := t_visible t || pend (AddVisible (t_id t)) L;
     t_attached := t_attached t && negb (pend (RemoveToast (t_id t)) L) |}.
Proof.
  unfold act_all. revert t. induction L as [|tm L IH]; intros t; simpl.
  - rewrite orb_false_r, andb_true_r. destruct t; reflexivity.
  - rewrite IH. destruct t as [id m c tmo v att], tm as [d sq [i|i]]; simpl;
      rewrite (Nat.eqb_sym i id); destruct (Nat.eqb id i); simpl;
      destruct v, att; reflexivity.
Qed.

(** ** The invariant *)

Section Invariant.
Variable T : Q.

Lemma run_until_toasts (calls : list (Q * string * Q)) (tau : Q) (l : list timer) :
  Forall (fun tm => tm_due tm = due_of calls (tm_action tm)) l ->
  map (act_all (sort_timers (filter (fun tm => Qle_bool (tm_due tm) tau) l)))
      (mapi_from (toast_pending l) 0 calls) =
  mapi_from (toast_pending (filter (fun tm => negb (Qle_bool (tm_due tm) tau)) l)) 0 calls.
Proof.
  intros Hd. rewrite map_mapi_from. apply mapi_from_ext. intros k [[now m] tmo] _.
  rewrite act_all_spec. simpl.
  rewrite <- !(pend_perm _ _ _ (Permutation_sym (sort_timers_perm _))).
  rewrite !(pend_filter calls (fun q => Qle_bool q tau)),
          !(pend_filter calls (fun q => negb (Qle_bool q tau))) by exact Hd.
  destruct (pend (AddVisible k) l), (pend (RemoveToast k) l),
           (Qle_bool (due_of calls (AddVisible k)) tau),
           (Qle_bool (due_of calls (RemoveToast k)) tau); reflexivity.
Qed.

Lemma Forall_filter {A} (P : A -> Prop) (p : A -> bool) (l : list A) :
  Forall P l -> Forall P (filter p l).
Proof.
  rewrite !Forall_forall. intros H x Hx. apply filter_In in Hx. apply H, Hx.
Qed.

(** [run_until tau] keeps the invariant, for [tau <= T]. *)
Lemma run_until_inv (calls : list (Q * string * Q)) (tau : Q) (st : toast_state) :
  toast_inv T calls st -> tau <= T -> toast_inv T calls (run_until tau st).
Proof.
  intros [Hc Ht Hd Hf] Htau. constructor; simpl.
  - exact Hc.
  - rewrite fold_fire, Ht. apply run_until_toasts.
    eapply Forall_impl; [|exact Hd]. intros tm [H _]. exact H.
  - apply Forall_filter, Hd.
  - intros a Ha Hp.
    rewrite (pend_filter calls (fun q => negb (Qle_bool q tau))) in Hp
      by (eapply Forall_impl; [|exact Hd]; intros tm [H _]; exact H).
    destruct (pend a (ts_timers st)) eqn:E; simpl in Hp.
    + apply negb_false_iff, Qle_bool_iff in Hp. eapply Qle_trans; eassumption.
    + apply Hf; assumption.
Qed.
Lemma due_of_app (calls extra : list (Q * string * Q)) (a : timer_action) :
  (action_index a < List.length calls)%nat -> due_of (calls ++ extra) a = due_of calls a.
Proof. intros H. unfold due_of. rewrite nth_error_app1 by exact H. reflexivity. Qed.

Lemma due_of_last (calls : list (Q * string * Q)) (now : Q) (m : string) (tmo : Q) :
  due_of (calls ++ [(now, m, tmo)]) (AddVisible (List.length calls)) = due_at now 20 /\
  due_of (calls ++ [(now, m, tmo)]) (RemoveToast (List.length calls)) = due_at now (tmo + 200).
Proof. unfold due_of. simpl. rewrite nth_error_app2, Nat.sub_diag by lia. split; reflexivity. Qed.

(** The timers [showToast] schedules for toast [i]. *)
Definition new_timers (now : Q) (tmo : Q) (sq i : nat) : list timer :=
  [{| tm_due := due_at now 20; tm_seq := sq; tm_action := AddVisible i |};
   {| tm_due := due_at now (tmo + 200); tm_seq := S sq; tm_action := RemoveToast i |}].

Lemma pend_new_timers (now tmo : Q) (sq i : nat) (a : timer_action) :
  pend a (new_timers now tmo sq i) = Nat.eqb (action_index a) i.
Proof. destruct a as [k|k]; simpl; rewrite ?orb_false_r, Nat.eqb_sym; reflexivity. Qed.

(** [showToast(m, tmo)] at a time [now <= T] keeps the invariant, the
    call appended to the session. *)
Lemma showToast_inv (calls : list (Q * string * Q)) (now : Q) (m : string) (tmo : Q) (st : toast_state) :
  toast_inv T calls st ->
  toast_inv T (calls ++ [(now, m, tmo)]) (showToast_at now m tmo st).
Proof.
  intros [Hc Ht Hd Hf]. unfold showToast_at. rewrite Hc. simpl.
  assert (Hn : List.length (ts_toasts st) = List.length calls)
    by (rewrite Ht; apply mapi_from_length).
  rewrite Hn. fold (new_timers now tmo (ts_seq st) (List.length calls)).
  constructor; simpl; rewrite ?length_app; simpl.
  - reflexivity.
  - rewrite Ht, mapi_from_app. f_equal.
    + apply mapi_from_ext. intros k [[c m'] tmo'] Hk. simpl.
      assert (Hk' : (k < List.length calls)%nat) by (apply nth_error_Some; congruence).
      rewrite !pend_app, !pend_new_timers. simpl.
      rewrite (proj2 (Nat.eqb_neq k (List.length calls))) by lia.
      rewrite !orb_false_r. reflexivity.
    + simpl. rewrite !pend_app, !pend_new_timers. simpl. rewrite Nat.eqb_refl, !orb_true_r. reflexivity.
  - apply Forall_app. split.
    + eapply Forall_impl; [|exact Hd]. intros tm [H1 H2].
      rewrite due_of_app by exact H2. split; [exact H1|lia].
    + destruct (due_of_last calls now m tmo) as [E1 E2].
      repeat constructor; simpl; rewrite ?E1, ?E2; auto; lia.
  - intros a Ha Hp. rewrite pend_app, pend_new_timers in Hp.
    apply orb_false_iff in Hp as [Hp Hi]. apply Nat.eqb_neq in Hi.
    rewrite due_of_app by lia. apply Hf; [lia|exact Hp].
Qed.
(** A session of calls made by [T] keeps the invariant. *)
Lemma toast_calls_inv (done calls : list (Q * string * Q)) (st : toast_state) :
  toast_inv T done st -> Forall (fun c => fst (fst c) <= T) calls ->
  toast_inv T (done ++ calls) (toast_calls calls st).
Proof.
  revert done st. induction calls as [|[[now m] tmo] calls IH]; intros done st Hi Hc; simpl.
  - rewrite app_nil_r. exact Hi.
  - inversion Hc as [|? ? Hnow Hc']; subst. simpl in Hnow.
    replace (done ++ (now, m, tmo) :: calls) with ((done ++ [(now, m, tmo)]) ++ calls)
      by (rewrite <- app_assoc; reflexivity).
    apply IH; [|exact Hc'].
    apply showToast_inv, run_until_inv; assumption.
Qed.

(** At [T], a state of the invariant shows each toast as [toast_at T]. *)
Lemma run_until_final (calls : list (Q * string * Q)) (st : toast_state) :
  toast_inv T calls st -> ts_toasts (run_until T st) = toasts_spec T calls.
Proof.
  intros [Hc Ht Hd Hf]. simpl. rewrite fold_fire, Ht.
  assert (Hd' : Forall (fun tm => tm_due tm = due_of calls (tm_action tm)) (ts_timers st))
    by (eapply Forall_impl; [|exact Hd]; intros tm [H _]; exact H).
  rewrite run_until_toasts by exact Hd'. unfold toasts_spec.
  apply mapi_from_ext. intros k [[now m] tmo] Hk. simpl.
  assert (Hlt : (k < List.length calls)%nat) by (apply nth_error_Some; congruence).
  rewrite !(pend_filter calls (fun q => negb (Qle_bool q T))) by exact Hd'.
  unfold due_of in *. simpl in *. rewrite Hk in *.
  destruct (pend (AddVisible k) (ts_timers st)) eqn:Ea;
  destruct (pend (RemoveToast k) (ts_timers st)) eqn:Er; simpl;
  rewrite ?negb_involutive; f_equal;
  repeat match goal with
  | H : pend ?a (ts_timers st) = false |- _ =>
      let Hle := fresh in
      pose proof (Hf a Hlt H) as Hle; unfold due_of in Hle; simpl in Hle; rewrite Hk in Hle;
      apply Qle_bool_iff in Hle; rewrite Hle; clear H
  end; reflexivity.
Qed.
End Invariant.

(** ** Lifetime of a toast *)

(** C35. Toast lifetime: after a session of [showToast] calls made by
    time [T] on a page with [#toast-container], whatever the order in
    which the event loop interleaves the calls' timers, the toasts at [T]
    are one per call, in call order, each carrying its message; the [k]-th
    is visible exactly when [T] is at least 20 ms after its call, and still
    in the container exactly until [max(0, timeout + 200)] ms after it. *)
Theorem toast_lifetime (calls : list (Q * string * Q)) (T : Q) :
  Forall (fun c => fst (fst c) <= T) calls ->
  toast_run calls T = toasts_spec T calls.
Proof.
  intros Hc. unfold toast_run. apply run_until_final.
  apply (toast_calls_inv T [] calls toast_start); [|exact Hc].
  constructor; simpl; try reflexivity; try constructor. intros a Ha. lia.
Qed.

(** Two toasts: "Copied" at 0 ms and "Subscribed" at 100 ms, seen at 3250
    ms: the first is gone (removed at 3200 ms), the second still shown. *)
Definition demo_calls : list (Q * string * Q) :=
  [(0, "Copied"%string, 3000); (100, "Subscribed"%string, 3000)].

Lemma toast_lifetime_witness :
  Forall (fun c => fst (fst c) <= 3250) demo_calls /\
  toast_run demo_calls 3250 = toasts_spec 3250 demo_calls.
Proof.
  assert (H : Forall (fun c => fst (fst c) <= 3250) demo_calls)
    by (repeat constructor; simpl; lra).
  split; [exact H|]. exact (toast_lifetime demo_calls 3250 H).
Defined.

Example toast_demo :
  map (fun t => (t_msg t, t_visible t, t_attached t)) (toast_run demo_calls 3250) =
  [("Copied"%string, true, false); ("Subscribed"%string, true, true)].
Proof. vm_compute. reflexivity. Qed.
