(* ===== verification/ServiceWorker.v ===== *)
(** * Service worker registration (src/script.js, lines 353-357)

    [if('serviceWorker' in navigator){ navigator.serviceWorker &&
    navigator.serviceWorker.register('/sw.js').catch(()=>{}); }]: the
    registration is requested only when the property exists and holds a
    container, and its promise, which the browser rejects on an insecure
    origin or when [/sw.js] cannot be fetched, gets a handler that
    swallows the rejection.

    The state is the list of registrations requested and the promise the
    statement leaves; the outcome of [register] is an input, settled or
    not.  The theorem: the statement completes normally on every
    navigator, requests [/sw.js] exactly when [navigator.serviceWorker]
    is a container, and never leaves a rejected promise, so no
    [unhandledrejection] reaches the page; this is why [Script.v] counts
    the statement among those that never stop the script. *)

From Stdlib Require Import List String Bool.
From S2P Require Import Prelude.
Import ListNotations.

(** The state of a promise. *)
Inductive promise := Pending | Fulfilled | Rejected (e : js_error).

(** [navigator.serviceWorker]: absent ([!('serviceWorker' in
    navigator)]), present but falsy, or a [ServiceWorkerContainer]. *)
Inductive sw_property := SwAbsent | SwFalsy | SwContainer.

Record sw_result := {
  sw_requests : list string;          (** scripts passed to [register] *)
  sw_promise : option promise         (** the promise the statement leaves *)
}.

(** [p.catch(() => {})]: a rejection becomes a fulfilment with [undefined]. *)
Definition promise_catch (p : promise) : promise :=
  match p with
  | Rejected _ => Fulfilled
  | q => q
  end.

(** The statement of lines 354-356; [reg] is the promise [register]
    returns. *)
Definition sw_register (nav : sw_property) (reg : promise) : completion sw_result :=
  match nav with
  | SwAbsent => Normal {| sw_requests := []; sw_promise := None |}
  | SwFalsy => Normal {| sw_requests := []; sw_promise := None |}
  | SwContainer => Normal {| sw_requests := ["/sw.js"%string]; sw_promise := Some (promise_catch reg) |}
  end.

Definition not_rejected (p : option promise) : bool :=
  match p with Some (Rejected _) => false | _ => true end.

(** The handler settles with the registration: pending while it is
    pending, fulfilled otherwise. *)
Lemma promise_catch_settles (p : promise) :
  promise_catch p = match p with Pending => Pending | _ => Fulfilled end.
Proof. destruct p; reflexivity. Qed.

(** Registration requested, completion and no rejection, for every
    navigator and every outcome of [register]. *)
Lemma sw_register_safe (nav : sw_property) (reg : promise) :
  exists r, sw_register nav reg = Normal r /\
    sw_requests r = (match nav with SwContainer => ["/sw.js"%string] | _ => [] end) /\
    not_rejected (sw_promise r) = true.
Proof.
  destruct nav; eexists; (split; [reflexivity|]); split; try reflexivity;
    simpl; rewrite ?promise_catch_settles; destruct reg; reflexivity.
Qed.
