(* ===== verification/Script.v ===== *)
(** * The script's top level (src/script.js)

    At load the browser runs the script's top-level statements in order:
    it binds the [load] listener (line 29), initialises the theme from
    [localStorage] (lines 44-54), binds the toggle, the scroll listener,
    duplicates the ticker, starts the typewriter (lines 87-106), binds the
    menu, the accordion, back to top, the wallet, the network switch, the
    copy button and the newsletter, initialises the cookie bar from
    [localStorage] (lines 280-287), binds the remaining listeners, starts
    the lazy observer, registers the service worker, appends the minted
    counter and runs the skill-progress IIFE (lines 387-471).

    A statement that throws ends the script: the statements after it never
    run, so their features never respond.  Three statements can throw at
    load: [localStorage.getItem] in [initTheme] and [initCookie] throws a
    [SecurityError] when the browser blocks storage for the page, and the
    typewriter throws when [data-text] is not JSON (a [SyntaxError], from
    [JSON.parse]) or is [null] (a [TypeError], from the first tick).  The
    other statements only look up elements, test them and bind listeners.

    [script_steps] lists the statements, [step_outcome] says which of them
    throw for a page, and [script_run] runs them in order.  The theorems:
    the statements that ran are a prefix of the script, all of it when
    none throws; a blocked storage leaves only the [load] listener bound,
    and a [data-text] that is not JSON stops the script at the typewriter,
    before every handler of the wallet, the forms, the keyboard, the lazy
    images and the skill bars is bound. *)

From Stdlib Require Import List String Bool.
From S2P Require Import Prelude JsJson Typewriter ServiceWorker.
Import ListNotations.

(** ** Statements *)

(** The top-level statements that have an effect, in source order. *)
Inductive step :=
| SLoad | SThemeInit | SThemeToggle | SScroll | STicker | STypewriter
| SMenu | SAccordion | SBackToTop | SWalletConnect | SWalletClose | SWalletButtons
| SNetwork | SCopy | SNewsletter | SCookieInit | SCookieAccept | SKeydown
| SLazy | SFilter | SServiceWorker | SLinks | SMint | SSkills.

Definition script_steps : list step :=
  [SLoad; SThemeInit; SThemeToggle; SScroll; STicker; STypewriter;
   SMenu; SAccordion; SBackToTop; SWalletConnect; SWalletClose; SWalletButtons;
   SNetwork; SCopy; SNewsletter; SCookieInit; SCookieAccept; SKeydown;
   SLazy; SFilter; SServiceWorker; SLinks; SMint; SSkills].

(** What the page offers the script at load: whether [localStorage] is
    accessible, the [.typewriter] element's [data-text] (as in
    [typewriterInit]), [navigator.serviceWorker] and the promise its
    [register] returns. *)
Record page_env := {
  storage_ok : bool;
  typewriter_el : option (option string);
  sw_nav : sw_property;
  sw_reg : promise
}.

Inductive step_result := StepDone | StepThrew (e : js_error) | StepUnmodelled.

(** [localStorage.getItem(...)], lines 46 and 283. *)
Definition storage_read (env : page_env) : step_result :=
  if storage_ok env then StepDone else StepThrew SecurityError.

(** Whether a statement completes.  A typewriter whose parsed
    [data-text] the model does not follow is [StepUnmodelled]. *)
Definition step_outcome (env : page_env) (s : step) : step_result :=
  match s with
  | SThemeInit | SCookieInit => storage_read env
  | STypewriter =>
      match typewriterInit (typewriter_el env) with
      | TwThrows e => StepThrew e
      | TwOutside _ => StepUnmodelled
      | _ => StepDone
      end
  | SServiceWorker =>
      match sw_register (sw_nav env) (sw_reg env) with
      | Normal _ => StepDone
      | Throw e => StepThrew e
      end
  | _ => StepDone
  end.

(** Run statements in order: those that completed, and how the run ended. *)
Fixpoint run_steps (env : page_env) (ss : list step) : list step * step_result :=
  match ss with
  | [] => ([], StepDone)
  | s :: ss' =>
      match step_outcome env s with
      | StepDone => let '(done, r) := run_steps env ss' in (s :: done, r)
      | r => ([], r)
      end
  end.

Definition script_run (env : page_env) : list step * step_result := run_steps env script_steps.

(** ** Ordering *)

(** The statements that ran are a prefix of the list; the run ends with
    [StepDone] exactly when all of them ran, and otherwise at the first
    statement that did not complete, with its outcome. *)
Lemma run_steps_prefix (env : page_env) (ss : list step) :
  let '(done, r) := run_steps env ss in
  Forall (fun s => step_outcome env s = StepDone) done /\
  ((r = StepDone /\ done = ss) \/
   (exists s rest, ss = done ++ s :: rest /\ step_outcome env s = r /\ r <> StepDone)).
Proof.
  induction ss as [|s ss IH]; simpl; [auto|].
  destruct (step_outcome env s) eqn:E.
  - destruct (run_steps env ss) as [done r]. destruct IH as [Hall [[-> ->]|(s' & rest & -> & Hs & Hr)]].
    + split; [constructor; auto|left; auto].
    + split; [constructor; auto|right]. exists s', rest. auto.
  - split; [constructor|right]. exists s, ss. split; [reflexivity|]. split; [exact E|discriminate].
  - split; [constructor|right]. exists s, ss. split; [reflexivity|]. split; [exact E|discriminate].
Qed.



(** C37. Abort at load: when the browser blocks [localStorage], the
    script stops in [initTheme] with a [SecurityError] and only the
    [load] listener is bound; when storage is accessible and the
    [.typewriter]'s [data-text] is not JSON, the script stops at
    [JSON.parse] with a [SyntaxError] after the ticker, so no handler of
    the menu, accordion, wallet, forms, cookie bar, keyboard, lazy images,
    filter, links or skill bars is ever bound. *)
Theorem script_aborts (env : page_env) (t : string) :
  (storage_ok env = false -> script_run env = ([SLoad], StepThrew SecurityError)) /\
  (storage_ok env = true -> typewriter_el env = Some (Some t) ->
   json_parse (if String.eqb t "" then "[]" else t) = None ->
   script_run env = ([SLoad; SThemeInit; SThemeToggle; SScroll; STicker], StepThrew SyntaxError)).
Proof.
  split.
  - intros Hs. unfold script_run. simpl. unfold storage_read. rewrite Hs. reflexivity.
  - intros Hs Ht Hp. unfold script_run. simpl. unfold storage_read. rewrite Hs.
    unfold typewriterInit. rewrite Ht. cbv zeta. rewrite Hp. reflexivity.
Qed.

(** The page whose [data-text] lost its quotes: ["[Learn, Earn]"]. *)
Definition broken_env : page_env :=
  {| storage_ok := true; typewriter_el := Some (Some "[Learn, Earn]"%string);
     sw_nav := SwContainer; sw_reg := Rejected SecurityError |}.

Lemma script_aborts_witness :
  script_run broken_env = ([SLoad; SThemeInit; SThemeToggle; SScroll; STicker], StepThrew SyntaxError).
Proof.
  exact (proj2 (script_aborts broken_env "[Learn, Earn]"%string) eq_refl eq_refl
           ltac:(vm_compute; reflexivity)).
Defined.


