(* ===== verification/Page.v ===== *)
(** * The page's wiring: the helpers' results fed to the handlers (src/script.js)

    Two features of the script take their elements from [$$] over the
    document: [initLazyReveal] observes
    [[...document.querySelectorAll('img[data-src], .fade-in')]] (line 318),
    the feature filter styles [$$('#featureGrid .feature-card')] (line
    344), and with reduced motion the skill IIFE writes every
    [querySelectorAll('.progress-fill')] (line 392).  [Counters.v] and
    [Widgets.v] model the first two handlers over the list of elements
    they receive; this file composes them with the query of [Dom.v],
    reading each element's [tagName], [dataset.src], classes,
    [dataset.type] and [dataset.width] from the document.

    The theorems: an element of the page that matches both alternatives of
    the lazy selector (an [img.fade-in] with a [data-src]) is one target of
    the observer, so its [src] is assigned at most once whatever the
    batches of entries; and the filter's change handler writes a display
    exactly once on each [.feature-card] below [#featureGrid] in the
    document, [''] when it is of the chosen type or the choice is [all],
    ['none'] otherwise; with reduced motion every [.progress-fill] gets
    its raw [data-width] once, unclamped, or ['0%']. *)

From Stdlib Require Import List String Bool Lia.
From stdpp Require Import base gmap.
From S2P Require Import Prelude Dom Skills Counters Widgets.
Import ListNotations.

Module LazyPage.

(** The observed element [t] as the callback reads it: [t.tagName ===
    'IMG'], [t.dataset.src], and its [.fade-in] class (lines 318, 326). *)
Definition lazy_target_of (e : elem) : lazy_target :=
  {| lz_is_img := String.eqb (el_tag e) "img";
     lz_data_src := get_attr e "data-src";
     lz_fade_in := existsb (String.eqb "fade-in") (el_classes e) |}.

(** [const elems = [...document.querySelectorAll('img[data-src], .fade-in')]]. *)
Definition lazy_elems (doc : list node) : list elem := dollars lazy_selector doc.

Definition lazy_targets (doc : list node) : list lazy_target := map lazy_target_of (lazy_elems doc).

(** [initLazyReveal()] on a document. *)
Definition lazyReveal_doc (doc : list node) : option lazy_state := initLazyReveal (lazy_targets doc).

(** The element behind the observer's target [i]. *)
Definition target_uid (doc : list node) (i : nat) : option nat :=
  option_map el_uid (nth_error (lazy_elems doc) i).

(** How many times the element of identity [u] had its [src] assigned. *)
Definition loads_of_elem (doc : list node) (u : nat) (st : lazy_state) : nat :=
  length (List.filter (fun p => match target_uid doc p.1 with Some v => Nat.eqb v u | None => false end)
                      (lz_loads st)).

(** Distinct elements of the document are distinct targets. *)
Lemma target_uid_inj (doc : list node) (i j u : nat) :
  wf_doc doc -> target_uid doc i = Some u -> target_uid doc j = Some u -> i = j.
Proof.
  intros Hwf Hi Hj. pose proof (matching_NoDup lazy_selector doc Hwf) as Hn.
  rewrite <- querySelectorAll_matching in Hn.
  unfold target_uid, lazy_elems, dollars in *.
  apply (proj1 (NoDup_nth_error _) Hn).
  - apply nth_error_Some. rewrite nth_error_map. destruct (nth_error _ i); discriminate.
  - rewrite !nth_error_map. congruence.
Qed.

(** C18. One load per element: on a document whose elements are
    distinct, after [initLazyReveal] started its observer and whatever the
    batches of entries it receives, each element of the page has its [src]
    assigned from [data-src] at most once, also an [img.fade-in] that both
    alternatives of [img[data-src], .fade-in] select. *)
Theorem lazy_element_loads_once (doc : list node) (st0 : lazy_state)
    (bs : list (list (nat * bool))) (u : nat) :
  wf_doc doc -> lazyReveal_doc doc = Some st0 ->
  (loads_of_elem doc u (fold_left (lazy_deliver (lazy_targets doc)) bs st0) <= 1)%nat.
Proof.
  intros Hwf Hinit. pose proof (lazy_run_inv _ _ bs Hinit) as Hinv.
  revert Hinv. generalize (fold_left (lazy_deliver (lazy_targets doc)) bs st0). intros st Hinv.
  unfold loads_of_elem.
  destruct (List.filter _ (lz_loads st)) as [|p0 rest] eqn:E; [simpl; lia|].
  assert (Hp0 : In p0 (p0 :: rest)) by (left; reflexivity).
  rewrite <- E in Hp0 |- *. apply filter_In in Hp0 as [_ Hf0].
  destruct (target_uid doc p0.1) as [v|] eqn:Ev; [|discriminate]. apply Nat.eqb_eq in Hf0 as ->.
  eapply Nat.le_trans; [apply (filter_length_mono _ (fun p => Nat.eqb p.1 p0.1))|].
  - intros [i s] _ Hf. simpl in *. destruct (target_uid doc i) eqn:Ei; [|discriminate].
    apply Nat.eqb_eq in Hf as ->. rewrite (target_uid_inj doc i p0.1 u Hwf Ei Ev). apply Nat.eqb_refl.
  - specialize (Hinv p0.1). unfold loads_of in Hinv. destruct (bool_decide _); lia.
Qed.

(** The page of [Dom.demo_doc]: its lazy image is also [.fade-in]. *)
Definition demo_observer : lazy_state :=
  {| lz_observed := list_to_set [0; 1]; lz_visible := ∅; lz_src_removed := ∅; lz_loads := [] |}.

Definition demo_batches : list (list (nat * bool)) := [[(0, true); (1, true); (2, true)]; [(0, true)]].

Lemma lazy_element_loads_once_witness :
  wf_doc demo_doc /\ lazyReveal_doc demo_doc = Some demo_observer /\
  (loads_of_elem demo_doc 1 (fold_left (lazy_deliver (lazy_targets demo_doc)) demo_batches demo_observer)
   <= 1)%nat.
Proof.
  assert (Hwf : wf_doc demo_doc).
  { unfold wf_doc. simpl. repeat constructor; simpl; intuition discriminate. }
  assert (Hi : lazyReveal_doc demo_doc = Some demo_observer) by reflexivity.
  split; [exact Hwf|]. split; [exact Hi|].
  exact (lazy_element_loads_once demo_doc demo_observer demo_batches 1 Hwf Hi).
Defined.

Example lazy_demo_loads :
  lz_loads (fold_left (lazy_deliver (lazy_targets demo_doc)) demo_batches demo_observer) =
  [(0, "hero.png"%string)].
Proof. vm_compute. reflexivity. Qed.

End LazyPage.

Module FilterPage.

(** A card as the handler reads it: [card.dataset.type]; its
    [style.display] is not set before the first change. *)
Definition card_of (e : elem) : card := {| card_type := get_attr e "data-type"; card_display := None |}.

(** The change handler of lines 342-348 on a document: the display it
    writes on each card, by the card's identity. *)
Definition featureFilter_doc (v : string) (doc : list node) : list (nat * option string) :=
  map (fun e => (el_uid e, card_display (filter_card v (card_of e)))) (dollars feature_card_selector doc).

(** The elements [#featureGrid .feature-card] selects. *)
Lemma feature_card_matches (anc : list elem) (e : elem) :
  sel_matches feature_card_selector anc e = true <->
  In "feature-card"%string (el_classes e) /\
  exists a, In a anc /\ el_id a = Some "featureGrid"%string.
Proof.
  unfold sel_matches, feature_card_selector. cbn [existsb]. rewrite orb_false_r.
  rewrite descendant_compound_matches, andb_true_iff. unfold compound_matches. cbn [forallb].
  rewrite andb_true_r. cbn [simple_matches]. rewrite existsb_eqb_In, existsb_exists.
  apply and_iff_compat_l. split.
  - intros (a & Ha & Hm). exists a. split; [exact Ha|]. cbn [forallb simple_matches] in Hm.
    rewrite andb_true_r in Hm. destruct (el_id a); [|discriminate].
    apply String.eqb_eq in Hm. congruence.
  - intros (a & Ha & Hid). exists a. split; [exact Ha|]. cbn [forallb simple_matches].
    rewrite Hid, String.eqb_refl. reflexivity.
Qed.

(** The display the handler writes on a card. *)
Lemma filter_card_display (v : string) (e : elem) :
  card_display (filter_card v (card_of e)) =
  if String.eqb v "all" || match get_attr e "data-type" with Some t => String.eqb t v | None => false end
  then Some ""%string else Some "none"%string.
Proof. unfold filter_card. simpl. destruct (_ || _); reflexivity. Qed.

Lemma card_shown_iff (v : string) (e : elem) :
  (String.eqb v "all" || match get_attr e "data-type" with Some t => String.eqb t v | None => false end)
    = true <-> v = "all"%string \/ get_attr e "data-type" = Some v.
Proof.
  rewrite orb_true_iff, String.eqb_eq. destruct (get_attr e "data-type") as [t|].
  - rewrite String.eqb_eq. split; (intros [H|H]; [left|right]); congruence.
  - split; intros [H|H]; [left|discriminate|left|discriminate]; exact H.
Qed.

(** C31. The feature filter on the page: on a document whose elements are
    distinct, a change of [#featureFilter] to [v] writes a display on each
    [.feature-card] that has a [#featureGrid] ancestor, once, and on no
    other element: [''] when [v] is ['all'] or the card's [data-type],
    ['none'] otherwise. *)
Theorem feature_filter_doc (v : string) (doc : list node) (u : nat) (d : option string) :
  wf_doc doc ->
  List.NoDup (map fst (featureFilter_doc v doc)) /\
  (In (u, d) (featureFilter_doc v doc) <->
   exists anc e, In (anc, e) (doc_order doc) /\ el_uid e = u /\
     In "feature-card"%string (el_classes e) /\
     (exists a, In a anc /\ el_id a = Some "featureGrid"%string) /\
     ((v = "all"%string \/ get_attr e "data-type" = Some v) /\ d = Some ""%string \/
      ~ (v = "all"%string \/ get_attr e "data-type" = Some v) /\ d = Some "none"%string)).
Proof.
  intros Hwf. unfold featureFilter_doc. split; [apply dollars_pairs_NoDup, Hwf|].
  rewrite In_dollars_pairs.
  pose proof (fun e => if_reflect_iff _ _ (Some ""%string) (Some "none"%string) d (card_shown_iff v e)
                         ltac:(discriminate)) as Hd.
  split.
  - intros (anc & e & Hin & Hm & <- & Hv). apply feature_card_matches in Hm as [Hc Ha].
    exists anc, e. repeat (split; [assumption || reflexivity|]). apply Hd. rewrite <- filter_card_display. exact Hv.
  - intros (anc & e & Hin & <- & Hc & Ha & Hv). exists anc, e.
    repeat (split; [assumption || reflexivity || (apply feature_card_matches; auto)|]).
    rewrite filter_card_display. apply Hd, Hv.
Qed.

(** A grid of two cards and a card outside the grid. *)
Definition filter_doc : list node :=
  [Node (mk_elem 0 "section" (Some "featureGrid") [] [])
     [Node (mk_elem 1 "div" None ["feature-card"] [("data-type", "wallet")]) [];
      Node (mk_elem 2 "div" None ["feature-card"] [("data-type", "badge")]) []];
   Node (mk_elem 3 "div" None ["feature-card"] [("data-type", "wallet")]) []]%string.

Lemma feature_filter_doc_witness :
  wf_doc filter_doc /\ List.NoDup (map fst (featureFilter_doc "wallet" filter_doc)).
Proof.
  assert (Hwf : wf_doc filter_doc).
  { unfold wf_doc. simpl. repeat constructor; simpl; intuition discriminate. }
  split; [exact Hwf|]. exact (proj1 (feature_filter_doc "wallet" filter_doc 0 None Hwf)).
Defined.

Example feature_filter_demo :
  featureFilter_doc "wallet" filter_doc = [(1, Some ""); (2, Some "none")]%string.
Proof. reflexivity. Qed.

End FilterPage.

Module ReducedPage.

(** [document.querySelectorAll('.progress-fill')], line 392. *)
Definition fill_selector : selector := [Compound [SClass "progress-fill"]]%string.

(** Lines 390-396: with [prefers-reduced-motion], each [.progress-fill]
    gets [el.dataset.width || '0%'] as its width, and the IIFE returns
    before any observer exists.  The widths written, by element identity. *)
Definition reduced_doc (doc : list node) : list (nat * string) :=
  map (fun e => (el_uid e, data_width_or_default (get_attr e "data-width"))) (dollars fill_selector doc).

Lemma fill_matches (anc : list elem) (e : elem) :
  sel_matches fill_selector anc e = true <-> In "progress-fill"%string (el_classes e).
Proof.
  unfold sel_matches, fill_selector. cbn [existsb complex_matches]. unfold compound_matches.
  cbn [forallb simple_matches]. rewrite ?orb_false_r, ?andb_true_r. apply existsb_eqb_In.
Qed.

(** [w || '0%'] on an attribute. *)
Lemma data_width_or_default_spec (a : option string) (x : string) :
  x = data_width_or_default a <->
  (exists s, a = Some s /\ s <> ""%string /\ x = s) \/ ((a = None \/ a = Some ""%string) /\ x = "0%"%string).
Proof.
  destruct a as [s|]; simpl; [destruct (String.eqb_spec s "") as [->|Hs]|]; split.
  - intros ->. right. auto.
  - intros [(t & [=<-] & Ht & _)|[_ ->]]; [congruence|reflexivity].
  - intros ->. left. eauto.
  - intros [(t & [=<-] & _ & ->)|[[H|[=H]] _]]; [reflexivity|discriminate|congruence].
  - intros ->. right. auto.
  - intros [(t & H & _)|[_ ->]]; [discriminate|reflexivity].
Qed.

(** C8. Reduced motion on the page: on a document whose elements are
    distinct, with [prefers-reduced-motion] the IIFE writes a width once on
    every [.progress-fill] of the document and on no other element: its
    [data-width] verbatim when present and not empty, with no [0, 100]
    clamp (a ["150%"] fill is 150% wide, where [animateBar] stops at 100),
    and ['0%'] otherwise. *)
Theorem reduced_motion_doc (doc : list node) (u : nat) (w : string) :
  wf_doc doc ->
  List.NoDup (map fst (reduced_doc doc)) /\
  (In (u, w) (reduced_doc doc) <->
   exists anc e, In (anc, e) (doc_order doc) /\ el_uid e = u /\
     In "progress-fill"%string (el_classes e) /\
     ((exists s, get_attr e "data-width" = Some s /\ s <> ""%string /\ w = s) \/
      ((get_attr e "data-width" = None \/ get_attr e "data-width" = Some ""%string) /\ w = "0%"%string))).
Proof.
  intros Hwf. unfold reduced_doc. split; [apply dollars_pairs_NoDup, Hwf|].
  rewrite In_dollars_pairs. split.
  - intros (anc & e & Hin & Hm & <- & Hw). apply fill_matches in Hm.
    exists anc, e. repeat (split; [assumption || reflexivity|]). apply data_width_or_default_spec, Hw.
  - intros (anc & e & Hin & <- & Hc & Hw). exists anc, e.
    repeat (split; [assumption || reflexivity || (apply fill_matches; exact Hc)|]).
    apply data_width_or_default_spec, Hw.
Qed.

(** A skill bar whose fill says ["150%"], and a fill with no
    [data-width] outside any [.progress-bg], which the animated path never
    writes. *)
Definition skills_doc : list node :=
  [Node (mk_elem 0 "div" None ["progress-bg"] [])
     [Node (mk_elem 1 "div" None ["progress-fill"] [("data-width", "150%")]) []];
   Node (mk_elem 2 "div" None ["progress-fill"] []) []]%string.

Lemma reduced_motion_doc_witness :
  wf_doc skills_doc /\ List.NoDup (map fst (reduced_doc skills_doc)).
Proof.
  assert (Hwf : wf_doc skills_doc).
  { unfold wf_doc. simpl. repeat constructor; simpl; intuition discriminate. }
  split; [exact Hwf|]. exact (proj1 (reduced_motion_doc skills_doc 0 EmptyString Hwf)).
Defined.

Example reduced_demo : reduced_doc skills_doc = [(1, "150%"); (2, "0%")]%string.
Proof. reflexivity. Qed.

End ReducedPage.
